(** * Wallet service: ledger, reconciliation, API keys and permission gate

    A shallow embedding of the FastAPI wallet service (app/models.py,
    app/utils.py, app/auth_deps.py, app/routers/*.py) and the proofs of its
    ledger properties.

    Conventions of the embedding.
    - A table is the list of its rows in storage order; [.first()] is the
      first row that satisfies the filter; an attribute assignment on a
      fetched ORM object is an update of the row at that position.
    - A handler is a function from the store (and its request) to an
      outcome and the store left behind.  Changes made before an exception
      are dropped with the session, so an outcome other than a return keeps
      the last committed store.
    - Primary keys and [unique=True] columns of models.py are enforced at
      commit: a violating commit raises IntegrityError.  Column widths
      (Integer, BigInteger) depend on the storage backend and are not
      modelled; Python integers are unbounded, so amounts and balances are in
      [Z].
    - Random draws (uuid4, secrets), the clock, the payment gateway, HMAC,
      SHA-256, the JSON parser and the database driver's handling of a query
      parameter that is not a string are inputs.
    - A [str] is the list of its code points below 256, the range of a
      header value; a parsed JSON document is a value of [JSON], on which the
      handlers call [get], [replace] and truth tests as Python does: a call
      that the value does not support raises AttributeError. *)

From Stdlib Require Import ZArith Lia Ascii String List PrimFloat.
From stdpp Require Import base decidable option list strings gmap.
From Stdlib Require Import Sorted.

Local Open Scope string_scope.
Local Open Scope Z_scope.

(** ** Outcomes of a handler *)

(** Python exceptions that no handler of the service turns into an
    HTTPException; FastAPI answers them with status 500. *)
Inductive exn : Set :=
  | IntegrityError
  | OverflowError
  | TypeError
  | AttributeError
  | DBAPIError
  | JSONDecodeError.

(** The HTTPException raised by the service, one constructor per [detail]. *)
Inductive HTTPError : Set :=
  | InvalidExpiryFormat
  | InvalidExpiryUnit (unit : ascii)
  | MissingPermissions (missing : list string)
  | AccountInactive
  | MaxActiveKeys
  | InvalidKeyId
  | KeyNotFound
  | KeyAlreadyRevoked
  | KeyNotExpired
  | WalletNotFound
  | PaystackNotConfigured
  | PaymentInitiationFailed
  | PaystackUnreachable
  | MissingSignature
  | InvalidSignature
  | InvalidJSON
  | MissingReference
  | TransactionNotFound
  | SenderWalletNotFound
  | InsufficientBalance (available : Z)
  | RecipientNotFound
  | SelfTransfer
  | ValidationError
  | GoogleOAuthError
  | MissingCode
  | MissingState
  | InvalidState
  | TokenExchangeFailed
  | UserInfoFailed
  | GoogleUnreachable
  | EmailNotProvided
  | DatabaseError.

Definition status_code (e : HTTPError) : Z :=
  match e with
  | InvalidExpiryFormat | InvalidExpiryUnit _ => 400
  | MissingPermissions _ | AccountInactive => 403
  | MaxActiveKeys | InvalidKeyId | KeyAlreadyRevoked | KeyNotExpired => 400
  | KeyNotFound | WalletNotFound | TransactionNotFound
  | SenderWalletNotFound | RecipientNotFound => 404
  | PaystackNotConfigured | PaystackUnreachable => 500
  | PaymentInitiationFailed => 402
  | MissingSignature | InvalidSignature | InvalidJSON | MissingReference => 400
  | InsufficientBalance _ | SelfTransfer => 400
  | ValidationError => 422
  | GoogleOAuthError | MissingCode | MissingState | InvalidState
  | EmailNotProvided => 400
  | TokenExchangeFailed => 401
  | UserInfoFailed | GoogleUnreachable | DatabaseError => 500
  end.

Inductive outcome (A : Type) : Type :=
  | Return (a : A)
  | HTTPException (e : HTTPError)
  | Raise (x : exn).
Arguments Return {A} a.
Arguments HTTPException {A} e.
Arguments Raise {A} x.

(** A raised exception skips the rest of the handler. *)
#[global] Instance outcome_bind : MBind outcome := λ A B k m,
  match m with
  | Return a => k a
  | HTTPException e => HTTPException e
  | Raise x => Raise x
  end.

(** ** datetime and timedelta

    A naive [datetime] is the number of microseconds since
    0001-01-01T00:00:00; [datetime.max] is 9999-12-31T23:59:59.999999.  A
    [timedelta] is a number of microseconds whose whole days stay within
    999999999 in magnitude.  Both constructors raise OverflowError outside
    their range. *)
Module Datetime.

Definition datetime := Z.
Definition timedelta := Z.

Definition us_per_second : Z := 1000000.
Definition us_per_hour : Z := 3600 * us_per_second.
Definition us_per_day : Z := 86400 * us_per_second.

(** [date.max.toordinal()] *)
Definition max_ordinal : Z := 3652059.
Definition datetime_max : datetime := max_ordinal * us_per_day - 1.
Definition timedelta_max_days : Z := 999999999.

(** [timedelta(days=d, hours=h)] *)
Definition mk_timedelta (d h : Z) : outcome timedelta :=
  let us := d * us_per_day + h * us_per_hour in
  if Z.abs (us / us_per_day) <=? timedelta_max_days
  then Return us else Raise OverflowError.

(** [timedelta(minutes=m)] *)
Definition minutes (m : Z) : outcome timedelta :=
  let us := m * 60 * us_per_second in
  if Z.abs (us / us_per_day) <=? timedelta_max_days
  then Return us else Raise OverflowError.

(** [t + td] *)
Definition add (t : datetime) (td : timedelta) : outcome datetime :=
  let r := t + td in
  if (0 <=? r) && (r <=? datetime_max) then Return r else Raise OverflowError.

End Datetime.

(** ** app/models.py

    One record per mapped class, holding the columns that the handlers read
    or write ([created_at] and [updated_at] are filled by the server and read
    by no modelled handler).  A UUID is its 128-bit number. *)

(** A value of a JSON column, and what [json.loads] returns: [None], a
    [bool], an [int], a [float], a [str], a [list], or a [dict] given by its
    items. *)
#[local] Unset Elimination Schemes.
Inductive JSON : Type :=
  | JNull
  | JBool (b : bool)
  | JNumber (n : Z)
  | JFloat (f : float)
  | JString (s : string)
  | JArray (l : list JSON)
  | JObject (l : list (string * JSON)).
#[local] Set Elimination Schemes.

(** [bool(v)]: what [if v] and [not v] test. *)
Definition truthy (v : JSON) : bool :=
  match v with
  | JNull => false
  | JBool b => b
  | JNumber n => negb (n =? 0)
  | JFloat f => negb (PrimFloat.eqb f PrimFloat.zero)
  | JString s => negb (String.eqb s "")
  | JArray l => match l with [] => false | _ :: _ => true end
  | JObject l => match l with [] => false | _ :: _ => true end
  end.

(** [d.get(key, default)] for the dict with the items [items]. *)
Fixpoint dict_get (items : list (string * JSON)) (key : string) (default : JSON)
  : JSON :=
  match items with
  | [] => default
  | (k, v) :: r => if String.eqb k key then v else dict_get r key default
  end.

(** [v.get(key, default)]: only a dict has the method. *)
Definition py_get (v : JSON) (key : string) (default : JSON) : outcome JSON :=
  match v with
  | JObject items => Return (dict_get items key default)
  | _ => Raise AttributeError
  end.

(** [v == s] for a [str] [s]. *)
Definition py_eq_str (v : JSON) (s : string) : bool :=
  match v with
  | JString x => String.eqb x s
  | _ => false
  end.

Module User.
Record t : Type := mk {
  id : N;
  email : string;
  name : option string;
  picture : option string;
  google_id : option string;
  is_active : bool
}.
End User.

Module Wallet.
Record t : Type := mk {
  id : N;
  user_id : N;
  wallet_number : string;
  balance : Z
}.

Definition set_balance (w : t) (b : Z) : t :=
  mk (id w) (user_id w) (wallet_number w) b.

Definition digit_char (d : Z) : ascii := ascii_of_N (Z.to_N (48 + d)).

(** The [width] low decimal digits of [n], most significant first, in
    front of [acc]: the format [0<width>d] for [0 <= n < 10 ^ width]. *)
Fixpoint zero_padded (width : nat) (n : Z) (acc : string) : string :=
  match width with
  | O => acc
  | S w => zero_padded w (n / 10) (String (digit_char (n mod 10)) acc)
  end.

(** [generate_wallet_number()], with [r = secrets.randbelow(10**12)]. *)
Definition generate_wallet_number (r : Z) : string :=
  String "4" (zero_padded 12 r "").
End Wallet.

Module APIKey.
Record t : Type := mk {
  id : N;
  name : string;
  key_prefix : string;
  key_hash : string;
  owner_id : N;
  permissions : JSON;
  expires_at : option Datetime.datetime;
  is_active : bool
}.

Definition set_is_active (k : t) (b : bool) : t :=
  mk (id k) (name k) (key_prefix k) (key_hash k) (owner_id k)
     (permissions k) (expires_at k) b.
End APIKey.

Module Transaction.
Record t : Type := mk {
  id : N;
  reference : string;
  user_id : N;
  wallet_id : option N;
  amount : Z;
  transaction_type : string;
  status : string;
  recipient_wallet_id : option N;
  paid_at : option Datetime.datetime
}.

Definition set_status (x : t) (s : string) : t :=
  mk (id x) (reference x) (user_id x) (wallet_id x) (amount x)
     (transaction_type x) s (recipient_wallet_id x) (paid_at x).

Definition set_paid_at (x : t) (p : option Datetime.datetime) : t :=
  mk (id x) (reference x) (user_id x) (wallet_id x) (amount x)
     (transaction_type x) (status x) (recipient_wallet_id x) p.
End Transaction.

(** ** The store: the four tables *)
Record Store : Type := mkStore {
  users : list User.t;
  wallets : list Wallet.t;
  api_keys : list APIKey.t;
  transactions : list Transaction.t
}.

Definition with_users (st : Store) (l : list User.t) : Store :=
  mkStore l (wallets st) (api_keys st) (transactions st).
Definition with_wallets (st : Store) (l : list Wallet.t) : Store :=
  mkStore (users st) l (api_keys st) (transactions st).
Definition with_api_keys (st : Store) (l : list APIKey.t) : Store :=
  mkStore (users st) (wallets st) l (transactions st).
Definition with_transactions (st : Store) (l : list Transaction.t) : Store :=
  mkStore (users st) (wallets st) (api_keys st) l.

(** [select(...).where(p)...first()]: position and row of the first match. *)
Fixpoint first {A} (p : A -> bool) (l : list A) : option (nat * A) :=
  match l with
  | [] => None
  | x :: r => if p x then Some (O, x)
              else match first p r with
                   | Some (i, y) => Some (S i, y)
                   | None => None
                   end
  end.

(** [col == v] for a nullable column compared with a non-null value. *)
Definition opt_is {A} (eqb : A -> A -> bool) (o : option A) (v : A) : bool :=
  match o with
  | Some x => eqb x v
  | None => false
  end.

(** Commit of an added row: the constraints of models.py. *)
Definition insert_user (st : Store) (u : User.t) : outcome Store :=
  if existsb (fun x => (User.id x =? User.id u)%N
                       || String.eqb (User.email x) (User.email u)
                       || match User.google_id u with
                          | Some g => opt_is String.eqb (User.google_id x) g
                          | None => false
                          end) (users st)
  then Raise IntegrityError
  else Return (with_users st (users st ++ [u])).

Definition insert_wallet (st : Store) (w : Wallet.t) : outcome Store :=
  if existsb (fun x => (Wallet.id x =? Wallet.id w)%N
                       || (Wallet.user_id x =? Wallet.user_id w)%N
                       || String.eqb (Wallet.wallet_number x) (Wallet.wallet_number w))
             (wallets st)
  then Raise IntegrityError
  else Return (with_wallets st (wallets st ++ [w])).

Definition insert_api_key (st : Store) (k : APIKey.t) : outcome Store :=
  if existsb (fun x => (APIKey.id x =? APIKey.id k)%N
                       || String.eqb (APIKey.key_hash x) (APIKey.key_hash k))
             (api_keys st)
  then Raise IntegrityError
  else Return (with_api_keys st (api_keys st ++ [k])).

Definition insert_transaction (st : Store) (x : Transaction.t) : outcome Store :=
  if existsb (fun y => (Transaction.id y =? Transaction.id x)%N
                       || String.eqb (Transaction.reference y) (Transaction.reference x))
             (transactions st)
  then Raise IntegrityError
  else Return (with_transactions st (transactions st ++ [x])).

(** [not s] for an optional setting or header: absent or empty. *)
Definition falsy (o : option string) : bool :=
  match o with
  | None => true
  | Some s => String.eqb s ""
  end.

(** ** Collaborators outside the service *)

Class Env : Type := {
  (** [hashlib.sha256(s.encode()).hexdigest()] *)
  sha256_hexdigest : string -> string;
  (** [hmac.new(key, msg, hashlib.sha512).hexdigest()] *)
  hmac_sha512_hexdigest : string -> string -> string;
  (** [request.json()], [None] when it raises (the body is not JSON) *)
  json_loads : string -> option JSON;
  (** The text that the database compares a String column with when the
      query parameter is a value other than a [str]; [None] when the driver
      refuses the value *)
  db_bind : JSON -> option string;
  (** [datetime.fromisoformat(s.replace("Z", "+00:00"))], [None] on ValueError *)
  fromisoformat : string -> option Datetime.datetime;
  (** [UUID(s)], [None] on ValueError *)
  UUID : string -> option N;
  (** [jwt.encode({"sub": sub, "exp": exp}, SECRET_KEY, ALGORITHM)] *)
  jwt_encode : N -> Datetime.datetime -> string;
  PAYSTACK_WEBHOOK_SECRET : option string;
  PAYSTACK_SECRET_KEY : option string;
  ACCESS_TOKEN_EXPIRE_MINUTES : Z
}.

(** ** app/utils.py *)
Module Utils.
Import Datetime.

(** Characters are code points U+0000 to U+00FF. *)
Definition code (c : ascii) : Z := Z.of_N (N_of_ascii c).

(** Whitespace skipped by [int()]: the C [isspace] set, and the two
    Unicode spaces below U+0100 (NEL, NBSP), which [int()] turns into a
    blank before parsing. *)
Definition is_space (c : ascii) : bool :=
  let n := code c in
  ((9 <=? n) && (n <=? 13)) || (n =? 32) || (n =? 133) || (n =? 160).

Definition digit_of (c : ascii) : option Z :=
  let n := code c in
  if (48 <=? n) && (n <=? 57) then Some (n - 48) else None.

Definition is_underscore (c : ascii) : bool := code c =? 95.

Fixpoint skip_spaces (l : list ascii) : list ascii :=
  match l with
  | c :: r => if is_space c then skip_spaces r else l
  | [] => []
  end.

(** [sys.int_info.default_max_str_digits] *)
Definition int_max_str_digits : nat := 4300.

(** The digit loop of [int()]: reads digits and single underscores as far
    as they go; [prev_us] says that the previous character was an
    underscore.  Returns the value, the number of digits read and the
    unread rest, or [None] on a doubled or trailing underscore. *)
Fixpoint scan_digits (l : list ascii) (prev_us : bool) (acc : Z) (digits : nat)
  : option (Z * nat * list ascii) :=
  match l with
  | c :: r =>
      if is_underscore c then
        if prev_us then None else scan_digits r true acc digits
      else
        match digit_of c with
        | Some d => scan_digits r false (10 * acc + d) (S digits)
        | None => if prev_us then None else Some (acc, digits, l)
        end
  | [] => if prev_us then None else Some (acc, digits, [])
  end.

(** [int(s)] in base 10; [None] stands for ValueError. *)
Definition py_int (s : list ascii) : option Z :=
  let s1 := skip_spaces s in
  let '(sign, s2) :=
    match s1 with
    | c :: r =>
        if code c =? 43 then (1, r)
        else if code c =? 45 then (-1, r)
        else (1, s1)
    | [] => (1, s1)
    end in
  match s2 with
  | [] => None
  | c :: _ =>
      if is_underscore c then None
      else
        match scan_digits s2 false 0 0 with
        | None => None
        | Some (v, digits, rest) =>
            match digits, skip_spaces rest with
            | O, _ => None
            | _, _ :: _ => None
            | _, [] =>
                if (int_max_str_digits <? digits)%nat then None
                else Some (sign * v)
            end
        end
  end.

(** [c.upper()] on the letters a to z.  No other code point up to U+00FF
    has H, D, M or Y as its upper case; for those the character is kept,
    which shows only in the text of the error detail. *)
Definition upper (c : ascii) : ascii :=
  let n := code c in
  if (97 <=? n) && (n <=? 122) then ascii_of_N (Z.to_N (n - 32)) else c.

(** [parse_expiry(expiry_str)] at time [now = datetime.utcnow()]. *)
Definition parse_expiry (now : datetime) (expiry_str : string) : outcome datetime :=
  let l := list_ascii_of_string expiry_str in
  if (length l <? 2)%nat then HTTPException InvalidExpiryFormat
  else
    let num_str := removelast l in
    let unit := upper (List.last l "000"%char) in
    match py_int num_str with
    | None => HTTPException InvalidExpiryFormat
    | Some num =>
        if num <=? 0 then HTTPException InvalidExpiryFormat
        else if Ascii.eqb unit "H" then
          td ← mk_timedelta 0 num; add now td
        else if Ascii.eqb unit "D" then
          td ← mk_timedelta num 0; add now td
        else if Ascii.eqb unit "M" then
          td ← mk_timedelta (num * 30) 0; add now td
        else if Ascii.eqb unit "Y" then
          td ← mk_timedelta (num * 365) 0; add now td
        else HTTPException (InvalidExpiryUnit unit)
    end.

(** [create_access_token(data={"sub": sub})] at time [now]: the expiry is
    [now + timedelta(minutes=settings.ACCESS_TOKEN_EXPIRE_MINUTES)]. *)
Definition create_access_token `{Env} (sub : N) (now : datetime) : outcome string :=
  td ← minutes ACCESS_TOKEN_EXPIRE_MINUTES;
  expire ← add now td;
  Return (jwt_encode sub expire).

End Utils.

(** ** app/auth_deps.py *)
Module AuthDeps.

(** [perm == x] for an element [x] of the stored array. *)
Definition json_is_str (perm : string) (x : JSON) : bool :=
  match x with
  | JString s => String.eqb perm s
  | _ => false
  end.

(** [api_key.permissions if isinstance(api_key.permissions, list) else []] *)
Definition api_key_permissions (api_key : APIKey.t) : list JSON :=
  match APIKey.permissions api_key with
  | JArray l => l
  | _ => []
  end.

(** [require_permissions(required_permissions)] applied to the pair that
    [get_current_user_or_service] returned. *)
Definition permission_checker (required_permissions : list string)
    (user_and_key : User.t * option APIKey.t) : outcome User.t :=
  let '(user, api_key) := user_and_key in
  match api_key with
  | None => Return user
  | Some k =>
      let missing_permissions :=
        List.filter
          (fun perm => negb (existsb (json_is_str perm) (api_key_permissions k)))
          required_permissions in
      match missing_permissions with
      | [] => Return user
      | _ :: _ => HTTPException (MissingPermissions missing_permissions)
      end
  end.

End AuthDeps.

(** ** app/routers/api_keys.py *)
Module ApiKeys.
Section Handlers.
Context `{Env}.

(** The validated body of POST /keys/create. *)
Record APIKeyCreate : Type := mkAPIKeyCreate {
  kc_name : string;
  kc_permissions : list string;
  kc_expiry : string
}.

Record APIKeyResponse : Type := mkAPIKeyResponse {
  api_key : string;
  resp_expires_at : option Datetime.datetime
}.

(** [generate_api_key()], with the 64 hexadecimal characters drawn by
    [secrets.token_hex(32)] as input. *)
Definition generate_api_key (random_part : string) : string :=
  "sk_live_" ++ random_part.

Definition hash_api_key (api_key : string) : string :=
  sha256_hexdigest api_key.

(** [api_key[:16]] *)
Definition get_api_key_prefix (api_key : string) : string :=
  String.substring 0 16 api_key.

(** [select(func.count())...where(owner_id == uid, is_active == True)] *)
Definition active_count (st : Store) (uid : N) : nat :=
  length (List.filter
            (fun k => (APIKey.owner_id k =? uid)%N && APIKey.is_active k)
            (api_keys st)).

(** [create_api_key]: [random_part] and [new_id] are the draws of
    [secrets.token_hex] and [uuid4], [now] is the clock. *)
Definition create_api_key (key_data : APIKeyCreate) (current_user : User.t)
    (random_part : string) (new_id : N) (now : Datetime.datetime)
    (st : Store) : outcome APIKeyResponse * Store :=
  if negb (User.is_active current_user) then (HTTPException AccountInactive, st)
  else if (5 <=? active_count st (User.id current_user))%nat
  then (HTTPException MaxActiveKeys, st)
  else
    let raw_key := generate_api_key random_part in
    let hashed := hash_api_key raw_key in
    let prefix := get_api_key_prefix raw_key in
    match Utils.parse_expiry now (kc_expiry key_data) with
    | HTTPException e => (HTTPException e, st)
    | Raise x => (Raise x, st)
    | Return expires_at =>
        let new_key :=
          APIKey.mk new_id (kc_name key_data) prefix hashed
                    (User.id current_user)
                    (JArray (map JString (kc_permissions key_data)))
                    (Some expires_at) true in
        match insert_api_key st new_key with
        | Return st' => (Return (mkAPIKeyResponse raw_key (Some expires_at)), st')
        | HTTPException e => (HTTPException e, st)
        | Raise x => (Raise x, st)
        end
    end.

(** [revoke_api_key]; the response carries the id and the name of the
    revoked key. *)
Definition revoke_api_key (key_id : string) (current_user : User.t)
    (st : Store) : outcome (string * string) * Store :=
  match UUID key_id with
  | None => (HTTPException InvalidKeyId, st)
  | Some key_uuid =>
      match first (fun k => (APIKey.id k =? key_uuid)%N
                            && (APIKey.owner_id k =? User.id current_user)%N)
                  (api_keys st) with
      | None => (HTTPException KeyNotFound, st)
      | Some (i, key) =>
          if negb (APIKey.is_active key)
          then (HTTPException KeyAlreadyRevoked, st)
          else
            (Return (key_id, APIKey.name key),
             with_api_keys st (<[i := APIKey.set_is_active key false]> (api_keys st)))
      end
  end.

End Handlers.
End ApiKeys.

(** ** app/schemas.py: the request bodies of the wallet router *)
Module Schemas.

(** [WalletTransferRequest]: [wallet_number] of exactly 13 characters,
    [amount >= 100]. *)
Record WalletTransferRequest : Type := mkTransfer {
  tr_wallet_number : string;
  tr_amount : Z
}.

Definition WalletTransferRequest_validate (wallet_number : string) (amount : Z)
  : outcome WalletTransferRequest :=
  if (String.length wallet_number =? 13)%nat && (100 <=? amount)
  then Return (mkTransfer wallet_number amount)
  else HTTPException ValidationError.

(** [WalletDepositRequest]: the field validator replaces the float [v] of
    the body, [v >= 1.0], by [int(v * 100)].  The float product is not
    modelled: the record holds the integer the validator returned, which
    is at least 100 because [1.0 * 100] is exactly [100.0] and the product
    is monotone in [v]. *)
Record WalletDepositRequest : Type := mkDeposit {
  dep_amount : Z
}.

Definition WalletDepositRequest_validate (amount_in_kobo : Z)
  : outcome WalletDepositRequest :=
  if 100 <=? amount_in_kobo
  then Return (mkDeposit amount_in_kobo)
  else HTTPException ValidationError.

End Schemas.

(** ** app/routers/wallet.py *)
Module WalletRouter.
Import Schemas.
Section Handlers.
Context `{Env}.

(** [generate_reference()], with the draw of [secrets.token_hex(16)]. *)
Definition generate_reference (token_hex : string) : string :=
  "txn_" ++ token_hex.

(** [s.isascii()] *)
Definition is_ascii (s : string) : bool :=
  forallb (fun c => (N_of_ascii c <? 128)%N) (list_ascii_of_string s).

(** [hmac.compare_digest(a, b)] on two [str]: a [str] with a character
    outside ASCII raises TypeError. *)
Definition compare_digest (a b : string) : outcome bool :=
  if is_ascii a && is_ascii b then Return (String.eqb a b) else Raise TypeError.

Definition verify_paystack_signature (payload signature : string) : outcome bool :=
  match PAYSTACK_WEBHOOK_SECRET with
  | None => Return false
  | Some secret =>
      if String.eqb secret "" then Return false
      else
        let expected_signature := hmac_sha512_hexdigest secret payload in
        compare_digest expected_signature signature
  end.

(** [select(Wallet).where(Wallet.user_id == uid)...first()] *)
Definition wallet_of_user (st : Store) (uid : N) : option (nat * Wallet.t) :=
  first (fun w => (Wallet.user_id w =? uid)%N) (wallets st).

(** [select(Wallet).where(Wallet.id == wid)...first()]; [wid] may be
    NULL, which matches no row. *)
Definition wallet_by_id (st : Store) (wid : option N) : option (nat * Wallet.t) :=
  match wid with
  | Some i => first (fun w => (Wallet.id w =? i)%N) (wallets st)
  | None => None
  end.

Definition wallet_by_number (st : Store) (number : string) : option (nat * Wallet.t) :=
  first (fun w => String.eqb (Wallet.wallet_number w) number) (wallets st).

Definition transaction_by_reference (st : Store) (reference : string)
  : option (nat * Transaction.t) :=
  first (fun x => String.eqb (Transaction.reference x) reference) (transactions st).

(** The parameter of the filter [Transaction.reference == reference] for a
    value taken from a parsed body: a [str] is compared as it is, another
    value as the driver binds it. *)
Definition bind_reference (reference : JSON) : option string :=
  match reference with
  | JString s => Some s
  | _ => db_bind reference
  end.

Definition get_wallet_balance (current_user : User.t) (st : Store) : outcome Z :=
  match wallet_of_user st (User.id current_user) with
  | None => HTTPException WalletNotFound
  | Some (_, wallet) => Return (Wallet.balance wallet)
  end.

(** The answer of the gateway to the initialize call. *)
Inductive GatewayReply : Type :=
  | RequestError
  | Response (http_status : Z) (status : bool) (authorization_url : string).

(** [initiate_deposit]: [token_hex] and [new_id] are the random draws,
    [reply] is what the gateway answers.  Returns the reference and the
    authorization URL. *)
Definition initiate_deposit (deposit : WalletDepositRequest)
    (current_user : User.t) (token_hex : string) (new_id : N)
    (reply : GatewayReply) (st : Store) : outcome (string * string) * Store :=
  match wallet_of_user st (User.id current_user) with
  | None => (HTTPException WalletNotFound, st)
  | Some (_, wallet) =>
      if falsy PAYSTACK_SECRET_KEY then (HTTPException PaystackNotConfigured, st)
      else
        let reference := generate_reference token_hex in
        match reply with
        | RequestError => (HTTPException PaystackUnreachable, st)
        | Response http_status ok authorization_url =>
            if negb (http_status =? 200) || negb ok
            then (HTTPException PaymentInitiationFailed, st)
            else
              let transaction :=
                Transaction.mk new_id reference (User.id current_user)
                               (Some (Wallet.id wallet)) (dep_amount deposit)
                               "deposit" "pending" None None in
              match insert_transaction st transaction with
              | Return st' => (Return (reference, authorization_url), st')
              | HTTPException e => (HTTPException e, st)
              | Raise x => (Raise x, st)
              end
        end
  end.

(** The request of the webhook: raw body and signature header. *)
Record WebhookRequest : Type := mkWebhook {
  body : string;
  x_paystack_signature : option string
}.

(** [paid_at_str] where the handler uses it: [if paid_at_str:] and then
    [paid_at_str.replace("Z", "+00:00")], which only a [str] has. *)
Definition paid_at_value (paid_at_str : JSON) : outcome (option string) :=
  if truthy paid_at_str then
    match paid_at_str with
    | JString s => Return (Some s)
    | _ => Raise AttributeError
    end
  else Return None.

(** The [paid_at] stored on confirmation: the gateway's time when it is
    present and parses, the clock otherwise. *)
Definition confirmed_paid_at (paid_at_str : option string)
    (now : Datetime.datetime) : Datetime.datetime :=
  match paid_at_str with
  | Some s =>
      if String.eqb s "" then now
      else match fromisoformat s with
           | Some t => t
           | None => now
           end
  | None => now
  end.

(** [paystack_webhook]; the response is [WebhookResponse(status=...)].
    An exception raised before the commit leaves the store as it was. *)
Definition paystack_webhook (request : WebhookRequest)
    (now : Datetime.datetime) (st : Store) : outcome bool * Store :=
  let signature := default "" (x_paystack_signature request) in
  if String.eqb signature "" then (HTTPException MissingSignature, st)
  else
    match verify_paystack_signature (body request) signature with
    | Raise x => (Raise x, st)
    | HTTPException e => (HTTPException e, st)
    | Return false => (HTTPException InvalidSignature, st)
    | Return true =>
    match json_loads (body request) with
    | None => (HTTPException InvalidJSON, st)
    | Some payload =>
    match (event ← py_get payload "event" JNull;
           data ← py_get payload "data" (JObject []);
           reference ← py_get data "reference" JNull;
           Return (event, data, reference)) with
    | Raise x => (Raise x, st)
    | HTTPException e => (HTTPException e, st)
    | Return (event, data, reference) =>
        if negb (truthy reference) then (HTTPException MissingReference, st)
        else
          match bind_reference reference with
          | None => (Raise DBAPIError, st)
          | Some reference =>
          match transaction_by_reference st reference with
          | None => (Return true, st)
          | Some (i, transaction) =>
              if String.eqb (Transaction.status transaction) "success"
              then (Return true, st)
              else if py_eq_str event "charge.success" then
                match wallet_by_id st (Transaction.wallet_id transaction) with
                | Some (j, wallet) =>
                    let wallet' :=
                      Wallet.set_balance wallet
                        (Wallet.balance wallet + Transaction.amount transaction) in
                    match (paid_at_str ← py_get data "paid_at" JNull;
                           paid_at_value paid_at_str) with
                    | Raise x => (Raise x, st)
                    | HTTPException e => (HTTPException e, st)
                    | Return paid_at_str =>
                        let transaction' :=
                          Transaction.set_paid_at
                            (Transaction.set_status transaction "success")
                            (Some (confirmed_paid_at paid_at_str now)) in
                        (Return true,
                         mkStore (users st)
                                 (<[j := wallet']> (wallets st))
                                 (api_keys st)
                                 (<[i := transaction']> (transactions st)))
                    end
                | None => (Return true, st)
                end
              else if py_eq_str event "charge.failed" then
                (Return true,
                 with_transactions st
                   (<[i := Transaction.set_status transaction "failed"]>
                      (transactions st)))
              else (Return true, st)
          end
          end
    end
    end
    end.

Record TransactionStatusResponse : Type := mkStatus {
  sr_reference : string;
  sr_status : string;
  sr_amount : Z;
  sr_paid_at : option Datetime.datetime
}.

Definition get_deposit_status (reference : string) (st : Store)
  : outcome TransactionStatusResponse :=
  match transaction_by_reference st reference with
  | None => HTTPException TransactionNotFound
  | Some (_, x) =>
      Return (mkStatus (Transaction.reference x) (Transaction.status x)
                       (Transaction.amount x) (Transaction.paid_at x))
  end.

(** The [data] of the answer of a transfer. *)
Record TransferData : Type := mkTransferData {
  td_reference : string;
  td_amount : Z;
  td_recipient_wallet_number : string
}.

(** [transfer_funds]: [token_hex] and [new_id] are the random draws. *)
Definition transfer_funds (transfer : WalletTransferRequest)
    (current_user : User.t) (token_hex : string) (new_id : N)
    (now : Datetime.datetime) (st : Store) : outcome TransferData * Store :=
  match wallet_of_user st (User.id current_user) with
  | None => (HTTPException SenderWalletNotFound, st)
  | Some (i, sender_wallet) =>
      if Wallet.balance sender_wallet <? tr_amount transfer
      then (HTTPException (InsufficientBalance (Wallet.balance sender_wallet)), st)
      else
        match wallet_by_number st (tr_wallet_number transfer) with
        | None => (HTTPException RecipientNotFound, st)
        | Some (j, recipient_wallet) =>
            if (Wallet.id sender_wallet =? Wallet.id recipient_wallet)%N
            then (HTTPException SelfTransfer, st)
            else
              let sender' :=
                Wallet.set_balance sender_wallet
                  (Wallet.balance sender_wallet - tr_amount transfer) in
              let recipient' :=
                Wallet.set_balance recipient_wallet
                  (Wallet.balance recipient_wallet + tr_amount transfer) in
              let reference := generate_reference token_hex in
              let transaction :=
                Transaction.mk new_id reference (User.id current_user)
                               (Some (Wallet.id sender_wallet)) (tr_amount transfer)
                               "transfer" "success"
                               (Some (Wallet.id recipient_wallet)) (Some now) in
              let st1 :=
                with_wallets st (<[j := recipient']> (<[i := sender']> (wallets st))) in
              match insert_transaction st1 transaction with
              | Return st' =>
                  (Return (mkTransferData reference (tr_amount transfer)
                                          (tr_wallet_number transfer)), st')
              | HTTPException e => (HTTPException e, st)
              | Raise x => (Raise x, st)
              end
        end
  end.

End Handlers.
End WalletRouter.

(** ** app/routers/google_auth.py *)
Module GoogleAuth.
Section Handlers.
Context `{Env}.

Record GoogleUserInfo : Type := mkInfo {
  gi_id : option string;
  gi_email : option string;
  gi_name : option string;
  gi_picture : option string
}.

(** What the two calls to Google give. *)
Inductive GoogleReply : Type :=
  | GoogleRequestError
  | TokenRefused
  | UserInfoRefused
  | UserInfo (user_info : GoogleUserInfo).

Record GoogleUserResponse : Type := mkGoogleUserResponse {
  r_user_id : N;
  r_email : string;
  r_name : option string;
  r_access_token : string;
  r_token_type : string
}.

(** [(User.google_id == google_id) | (User.email == email)]; a comparison
    with [None] is IS NULL. *)
Definition matches (google_id : option string) (email : string) (u : User.t) : bool :=
  match google_id with
  | Some g => opt_is String.eqb (User.google_id u) g
  | None => match User.google_id u with None => true | Some _ => false end
  end || String.eqb (User.email u) email.

(** Commit of the refreshed row at position [i]: [google_id] is unique
    among the other rows. *)
Definition update_user (st : Store) (i : nat) (u : User.t) : outcome Store :=
  let others := (take i (users st) ++ drop (S i) (users st))%list in
  if match User.google_id u with
     | Some g => existsb (fun x => opt_is String.eqb (User.google_id x) g) others
     | None => false
     end
  then Raise IntegrityError
  else Return (with_users st (<[i := u]> (users st))).

(** The body of the [try] block: the outcome of the block and the last
    committed store.  [new_user_id] and [new_wallet_id] are the draws of
    [uuid4], [r] the draw of [secrets.randbelow(10**12)]. *)
Definition create_or_update_user (google_id : option string) (email : string)
    (name picture : option string) (new_user_id new_wallet_id : N) (r : Z)
    (now : Datetime.datetime) (st : Store) : outcome GoogleUserResponse * Store :=
  let respond (user : User.t) (st' : Store) :=
    (access_token ← Utils.create_access_token (User.id user) now;
     Return (mkGoogleUserResponse (User.id user) (User.email user)
                                  (User.name user) access_token "bearer"),
     st') in
  match first (matches google_id email) (users st) with
  | Some (i, existing_user) =>
      let user :=
        User.mk (User.id existing_user) (User.email existing_user) name picture
                google_id (User.is_active existing_user) in
      match update_user st i user with
      | Return st1 => respond user st1
      | HTTPException e => (HTTPException e, st)
      | Raise x => (Raise x, st)
      end
  | None =>
      let user := User.mk new_user_id email name picture google_id true in
      match insert_user st user with
      | Return st1 =>
          let wallet :=
            Wallet.mk new_wallet_id (User.id user)
                      (Wallet.generate_wallet_number r) 0 in
          match insert_wallet st1 wallet with
          | Return st2 => respond user st2
          | HTTPException e => (HTTPException e, st1)
          | Raise x => (Raise x, st1)
          end
      | HTTPException e => (HTTPException e, st)
      | Raise x => (Raise x, st)
      end
  end.

(** [not s] for an optional query parameter. *)
Definition truthy (o : option string) : bool := negb (falsy o).

(** [google_callback]: the state is the store and the process-wide
    [oauth_states].  [except Exception] turns whatever the [try] block
    raises into the 500 answer. *)
Definition google_callback (code state error : option string)
    (reply : GoogleReply) (new_user_id new_wallet_id : N) (r : Z)
    (now : Datetime.datetime) (oauth_states : gmap string bool) (st : Store)
  : outcome GoogleUserResponse * gmap string bool * Store :=
  if truthy error then (HTTPException GoogleOAuthError, oauth_states, st)
  else if falsy code then (HTTPException MissingCode, oauth_states, st)
  else if falsy state then (HTTPException MissingState, oauth_states, st)
  else
    let state_key := default "" state in
    match oauth_states !! state_key with
    | None => (HTTPException InvalidState, oauth_states, st)
    | Some _ =>
        let oauth_states' := delete state_key oauth_states in
        match reply with
        | GoogleRequestError => (HTTPException GoogleUnreachable, oauth_states', st)
        | TokenRefused => (HTTPException TokenExchangeFailed, oauth_states', st)
        | UserInfoRefused => (HTTPException UserInfoFailed, oauth_states', st)
        | UserInfo user_info =>
            if falsy (gi_email user_info)
            then (HTTPException EmailNotProvided, oauth_states', st)
            else
              let email := default "" (gi_email user_info) in
              match create_or_update_user (gi_id user_info) email
                      (gi_name user_info) (gi_picture user_info)
                      new_user_id new_wallet_id r now st with
              | (Return resp, st') => (Return resp, oauth_states', st')
              | (_, st') => (HTTPException DatabaseError, oauth_states', st')
              end
        end
    end.

End Handlers.
End GoogleAuth.

(** ** app/auth_deps.py: the credential verifiers

    The three verifiers answer 401 in eight ways; [Unauthorized] names the
    [detail] of each.  Datetimes are naive, as [datetime.utcnow()] gives them
    and as they were stored. *)
Module Verifier.

Inductive Unauthorized : Set :=
| MissingCredentials
| InvalidCredentials
| MissingApiKey
| InvalidApiKey
| RevokedApiKey
| ExpiredApiKey
| OwnerNotFound
| NoValidCredentials.

Inductive verdict (A : Type) : Type :=
| Authenticated (a : A)
| Unauthenticated (why : Unauthorized).
Arguments Authenticated {A} a.
Arguments Unauthenticated {A} why.

(** [jwt.decode(token, SECRET_KEY, algorithms=[ALGORITHM])] at the given
    time, followed by [payload.get("sub")] read as the id of a user: [None]
    stands for JWTError (bad signature, expired, malformed) and for a
    missing subject.  Tokens are minted by [create_access_token], whose
    subject is [str(user.id)]. *)
Class Jose : Type := {
  jwt_decode : string -> Datetime.datetime -> option N
}.

Section Verifiers.
Context `{Env} `{Jose}.

(** [get_current_user_from_jwt]; [token] is the bearer credential, absent
    when the header is. *)
Definition get_current_user_from_jwt (token : option string)
    (now : Datetime.datetime) (st : Store) : verdict User.t :=
  match token with
  | None => Unauthenticated MissingCredentials
  | Some credentials =>
      match jwt_decode credentials now with
      | None => Unauthenticated InvalidCredentials
      | Some user_id =>
          match first (fun u => (User.id u =? user_id)%N) (users st) with
          | None => Unauthenticated InvalidCredentials
          | Some (_, user) => Authenticated user
          end
      end
  end.

(** [get_current_user_from_api_key] *)
Definition get_current_user_from_api_key (x_api_key : option string)
    (now : Datetime.datetime) (st : Store) : verdict (User.t * APIKey.t) :=
  if falsy x_api_key then Unauthenticated MissingApiKey
  else
    let key_hash := ApiKeys.hash_api_key (default "" x_api_key) in
    match first (fun k => String.eqb (APIKey.key_hash k) key_hash) (api_keys st) with
    | None => Unauthenticated InvalidApiKey
    | Some (_, api_key) =>
        if negb (APIKey.is_active api_key) then Unauthenticated RevokedApiKey
        else if match APIKey.expires_at api_key with
                | Some expires_at => expires_at <? now
                | None => false
                end
        then Unauthenticated ExpiredApiKey
        else
          match first (fun u => (User.id u =? APIKey.owner_id api_key)%N) (users st) with
          | None => Unauthenticated OwnerNotFound
          | Some (_, user) => Authenticated (user, api_key)
          end
    end.

(** [get_current_user_or_service]: the bearer token first; whatever 401 it
    gives is swallowed and the API key is tried. *)
Definition get_current_user_or_service (token x_api_key : option string)
    (now : Datetime.datetime) (st : Store) : verdict (User.t * option APIKey.t) :=
  let try_api_key :=
    if falsy x_api_key then Unauthenticated NoValidCredentials
    else match get_current_user_from_api_key x_api_key now st with
         | Authenticated (user, api_key) => Authenticated (user, Some api_key)
         | Unauthenticated why => Unauthenticated why
         end in
  match token with
  | Some _ =>
      match get_current_user_from_jwt token now st with
      | Authenticated user => Authenticated (user, None)
      | Unauthenticated _ => try_api_key
      end
  | None => try_api_key
  end.

(** The dependency [require_permissions(required)]: the pair of
    [get_current_user_or_service] handed to the permission checker. *)
Definition require_permissions (required_permissions : list string)
    (token x_api_key : option string) (now : Datetime.datetime) (st : Store)
  : verdict (outcome User.t) :=
  match get_current_user_or_service token x_api_key now st with
  | Authenticated user_and_key =>
      Authenticated (AuthDeps.permission_checker required_permissions user_and_key)
  | Unauthenticated why => Unauthenticated why
  end.

End Verifiers.
End Verifier.

(** ** app/routers/api_keys.py: rollover and listing *)
Module KeyRollover.
Section Handlers.
Context `{Env}.

(** The body of POST /keys/rollover. *)
Record RolloverRequest : Type := mkRollover {
  expired_key_id : string;
  rr_expiry : string
}.

(** [rollover_api_key]: [random_part] and [new_id] are the draws of
    [secrets.token_hex] and [uuid4], [now] is the clock. *)
Definition rollover_api_key (rollover_data : RolloverRequest) (current_user : User.t)
    (random_part : string) (new_id : N) (now : Datetime.datetime) (st : Store)
  : outcome ApiKeys.APIKeyResponse * Store :=
  match UUID (expired_key_id rollover_data) with
  | None => (HTTPException InvalidKeyId, st)
  | Some key_uuid =>
      match first (fun k => (APIKey.id k =? key_uuid)%N
                            && (APIKey.owner_id k =? User.id current_user)%N)
                  (api_keys st) with
      | None => (HTTPException KeyNotFound, st)
      | Some (_, old_key) =>
          if match APIKey.expires_at old_key with
             | None => true
             | Some expires_at => now <? expires_at
             end
          then (HTTPException KeyNotExpired, st)
          else if (5 <=? ApiKeys.active_count st (User.id current_user))%nat
          then (HTTPException MaxActiveKeys, st)
          else
            let raw_key := ApiKeys.generate_api_key random_part in
            let hashed := ApiKeys.hash_api_key raw_key in
            let prefix := ApiKeys.get_api_key_prefix raw_key in
            match Utils.parse_expiry now (rr_expiry rollover_data) with
            | HTTPException e => (HTTPException e, st)
            | Raise x => (Raise x, st)
            | Return expires_at =>
                let new_key :=
                  APIKey.mk new_id (APIKey.name old_key ++ " (Renewed)") prefix hashed
                            (User.id current_user) (APIKey.permissions old_key)
                            (Some expires_at) true in
                match insert_api_key st new_key with
                | Return st' =>
                    (Return (ApiKeys.mkAPIKeyResponse raw_key (Some expires_at)), st')
                | HTTPException e => (HTTPException e, st)
                | Raise x => (Raise x, st)
                end
            end
      end
  end.

(** [APIKeyInfo]: what the listing shows of a key (its [created_at] apart):
    neither the hash nor the secret. *)
Record APIKeyInfo : Type := mkInfo {
  info_id : N;
  info_name : string;
  info_key_prefix : string;
  info_permissions : JSON;
  info_expires_at : option Datetime.datetime;
  info_is_active : bool
}.

Definition info_of (k : APIKey.t) : APIKeyInfo :=
  mkInfo (APIKey.id k) (APIKey.name k) (APIKey.key_prefix k) (APIKey.permissions k)
         (APIKey.expires_at k) (APIKey.is_active k).

(** [list_api_keys] *)
Definition list_api_keys (current_user : User.t) (st : Store) : list APIKeyInfo :=
  map info_of
      (List.filter (fun k => (APIKey.owner_id k =? User.id current_user)%N) (api_keys st)).

End Handlers.
End KeyRollover.

(** ** app/routers/wallet.py: the transaction history

    [created_at] is filled by the server when a row is inserted; the history
    reads it through [created_at], a function of the row.  Rows with equal
    times keep their storage order. *)
Module History.
Section Handlers.
Variable created_at : Transaction.t -> Datetime.datetime.

Fixpoint insert_desc (x : Transaction.t) (l : list Transaction.t) : list Transaction.t :=
  match l with
  | [] => [x]
  | y :: r => if created_at y <? created_at x then x :: l else y :: insert_desc x r
  end.

(** [.order_by(Transaction.created_at.desc())] *)
Fixpoint order_by_created_at_desc (l : list Transaction.t) : list Transaction.t :=
  match l with
  | [] => []
  | x :: r => insert_desc x (order_by_created_at_desc r)
  end.

Record TransactionResponse : Type := mkResponse {
  resp_type : string;
  resp_amount : Z;
  resp_status : string;
  resp_created_at : Datetime.datetime;
  resp_reference : option string;
  resp_recipient_wallet_number : option string
}.

(** The rows of a wallet: it is the wallet of the row or its recipient. *)
Definition involves (wallet_id : N) (x : Transaction.t) : bool :=
  opt_is N.eqb (Transaction.wallet_id x) wallet_id
  || opt_is N.eqb (Transaction.recipient_wallet_id x) wallet_id.

(** One item of the answer: the recipient's number is looked up for a
    transfer that names a recipient. *)
Definition render (st : Store) (txn : Transaction.t) : TransactionResponse :=
  let recipient_wallet_number :=
    if String.eqb (Transaction.transaction_type txn) "transfer" then
      match Transaction.recipient_wallet_id txn with
      | Some _ =>
          match WalletRouter.wallet_by_id st (Transaction.recipient_wallet_id txn) with
          | Some (_, recipient_w) => Some (Wallet.wallet_number recipient_w)
          | None => None
          end
      | None => None
      end
    else None in
  mkResponse (Transaction.transaction_type txn) (Transaction.amount txn)
             (Transaction.status txn) (created_at txn)
             (Some (Transaction.reference txn)) recipient_wallet_number.

(** [get_transactions] *)
Definition get_transactions (current_user : User.t) (st : Store)
  : outcome (list TransactionResponse) :=
  match WalletRouter.wallet_of_user st (User.id current_user) with
  | None => HTTPException WalletNotFound
  | Some (_, wallet) =>
      Return (map (render st)
                  (order_by_created_at_desc
                     (List.filter (involves (Wallet.id wallet)) (transactions st))))
  end.

End Handlers.
End History.

(** ** app/schemas.py: the permissions of a key request *)
Module SchemaValidators.

Definition valid_permissions : list string := ["deposit"; "transfer"; "read"].

(** [APIKeyCreate.validate_permissions]: a ValueError is answered 422.
    [list(set(v))] keeps one copy of each permission; the order in which a
    Python set lists them is not fixed, the model keeps the last copy of
    each in the order of [v]. *)
Definition validate_permissions (v : list string) : outcome (list string) :=
  match v with
  | [] => HTTPException ValidationError
  | _ :: _ =>
      if forallb (fun perm => existsb (String.eqb perm) valid_permissions) v
      then Return (nodup string_dec v)
      else HTTPException ValidationError
  end.

End SchemaValidators.

(** ** app/routers/payments.py

    The second router for gateway payments.  It writes the same
    transactions table as the wallet router and never reads or writes a
    wallet. *)
Module Payments.
Import Schemas WalletRouter.
Section Handlers.
Context `{Env}.

(** [PaymentInitiateRequest]: validated and converted like
    [WalletDepositRequest]. *)
Record PaymentInitiateRequest : Type := mkPayment {
  pay_amount : Z
}.

Definition PaymentInitiateRequest_validate (amount_in_kobo : Z)
  : outcome PaymentInitiateRequest :=
  if 100 <=? amount_in_kobo
  then Return (mkPayment amount_in_kobo)
  else HTTPException ValidationError.

(** The router's own copy of the signature check. *)
Definition verify_paystack_signature (payload signature : string) : outcome bool :=
  match PAYSTACK_WEBHOOK_SECRET with
  | None => Return false
  | Some secret =>
      if String.eqb secret "" then Return false
      else
        let expected_signature := hmac_sha512_hexdigest secret payload in
        compare_digest expected_signature signature
  end.

(** [initiate_payment].  The row that it adds sets [reference], [user_id],
    [amount] and [status] only; [transaction_type] is a column with
    [nullable=False] and no default, so the commit raises IntegrityError and
    no row is stored. *)
Definition initiate_payment (payment : PaymentInitiateRequest)
    (current_user : User.t) (token_hex : string) (new_id : N)
    (reply : GatewayReply) (st : Store) : outcome (string * string) * Store :=
  if falsy PAYSTACK_SECRET_KEY then (HTTPException PaystackNotConfigured, st)
  else
    match reply with
    | RequestError => (HTTPException PaystackUnreachable, st)
    | Response http_status ok authorization_url =>
        if negb (http_status =? 200) || negb ok
        then (HTTPException PaymentInitiationFailed, st)
        else (Raise IntegrityError, st)
    end.

(** [paystack_webhook] of this router: no test of the present status, and
    no wallet. *)
Definition paystack_webhook (request : WebhookRequest)
    (now : Datetime.datetime) (st : Store) : outcome bool * Store :=
  let signature := default "" (x_paystack_signature request) in
  if String.eqb signature "" then (HTTPException MissingSignature, st)
  else
    match verify_paystack_signature (body request) signature with
    | Raise x => (Raise x, st)
    | HTTPException e => (HTTPException e, st)
    | Return false => (HTTPException InvalidSignature, st)
    | Return true =>
    match json_loads (body request) with
    | None => (HTTPException InvalidJSON, st)
    | Some payload =>
    match (event ← py_get payload "event" JNull;
           data ← py_get payload "data" (JObject []);
           reference ← py_get data "reference" JNull;
           Return (event, data, reference)) with
    | Raise x => (Raise x, st)
    | HTTPException e => (HTTPException e, st)
    | Return (event, data, reference) =>
        if negb (truthy reference) then (HTTPException MissingReference, st)
        else
          match bind_reference reference with
          | None => (Raise DBAPIError, st)
          | Some reference =>
          match transaction_by_reference st reference with
          | None => (Return true, st)
          | Some (i, transaction) =>
              if py_eq_str event "charge.success" then
                match (paid_at_str ← py_get data "paid_at" JNull;
                       paid_at_value paid_at_str) with
                | Raise x => (Raise x, st)
                | HTTPException e => (HTTPException e, st)
                | Return paid_at_str =>
                    let transaction' :=
                      Transaction.set_paid_at
                        (Transaction.set_status transaction "success")
                        (Some (confirmed_paid_at paid_at_str now)) in
                    (Return true,
                     with_transactions st (<[i := transaction']> (transactions st)))
                end
              else if py_eq_str event "charge.failed" then
                (Return true,
                 with_transactions st
                   (<[i := Transaction.set_status transaction "failed"]>
                      (transactions st)))
              else (Return true, st)
          end
          end
    end
    end
    end.

(** [c.lower()] for a code point below U+0100: the letters A to Z and the
    capital letters U+00C0 to U+00DE, the sign U+00D7 apart. *)
Definition lower_char (c : ascii) : ascii :=
  let n := Utils.code c in
  if ((65 <=? n) && (n <=? 90))
     || ((192 <=? n) && (n <=? 222) && negb (n =? 215))
  then ascii_of_N (Z.to_N (n + 32)) else c.

Definition lower (s : string) : string :=
  string_of_list_ascii (map lower_char (list_ascii_of_string s)).

(** [v.lower()]: only a [str] has the method. *)
Definition py_lower (v : JSON) : outcome string :=
  match v with
  | JString s => Return (lower s)
  | _ => Raise AttributeError
  end.

(** The answer of the gateway to the verify call: no answer, or a status
    code and the document that [response.json()] returns ([None] when it
    raises). *)
Inductive VerifyReply : Type :=
  | VerifyRequestError
  | VerifyResponse (http_status : Z) (json : option JSON).

Definition status_response (x : Transaction.t) : TransactionStatusResponse :=
  mkStatus (Transaction.reference x) (Transaction.status x)
           (Transaction.amount x) (Transaction.paid_at x).

(** [get_transaction_status]; with [refresh] the status that the gateway
    reports is written to the row, whatever the row's status was.  Only
    [httpx.RequestError] is caught. *)
Definition get_transaction_status (reference : string) (refresh : bool)
    (reply : VerifyReply) (st : Store)
  : outcome TransactionStatusResponse * Store :=
  match transaction_by_reference st reference with
  | None => (HTTPException TransactionNotFound, st)
  | Some (i, transaction) =>
      if negb refresh then (Return (status_response transaction), st)
      else if falsy PAYSTACK_SECRET_KEY
      then (HTTPException PaystackNotConfigured, st)
      else
        match reply with
        | VerifyRequestError => (Return (status_response transaction), st)
        | VerifyResponse http_status json =>
            if negb (http_status =? 200)
            then (Return (status_response transaction), st)
            else
              match json with
              | None => (Raise JSONDecodeError, st)
              | Some response_data =>
              match py_get response_data "status" JNull with
              | Raise x => (Raise x, st)
              | HTTPException e => (HTTPException e, st)
              | Return ok =>
                  if negb (truthy ok)
                  then (Return (status_response transaction), st)
                  else
                    match (data ← py_get response_data "data" (JObject []);
                           status ← py_get data "status" (JString "");
                           paystack_status ← py_lower status;
                           Return (data, paystack_status)) with
                    | Raise x => (Raise x, st)
                    | HTTPException e => (HTTPException e, st)
                    | Return (data, paystack_status) =>
                        if String.eqb paystack_status "success" then
                          match (paid_at_str ← py_get data "paid_at" JNull;
                                 paid_at_value paid_at_str) with
                          | Raise x => (Raise x, st)
                          | HTTPException e => (HTTPException e, st)
                          | Return paid_at_str =>
                              let paid_at :=
                                match paid_at_str with
                                | Some s =>
                                    match fromisoformat s with
                                    | Some t => Some t
                                    | None => Transaction.paid_at transaction
                                    end
                                | None => Transaction.paid_at transaction
                                end in
                              let transaction' :=
                                Transaction.set_paid_at
                                  (Transaction.set_status transaction "success")
                                  paid_at in
                              (Return (status_response transaction'),
                               with_transactions st
                                 (<[i := transaction']> (transactions st)))
                          end
                        else if String.eqb paystack_status "failed" then
                          let transaction' :=
                            Transaction.set_status transaction "failed" in
                          (Return (status_response transaction'),
                           with_transactions st
                             (<[i := transaction']> (transactions st)))
                        else (Return (status_response transaction), st)
                    end
              end
              end
        end
  end.

End Handlers.
End Payments.

(** * Vocabulary of the properties *)

(** The three fields that the webhook reads, for a body typed as the
    gateway sends it. *)
Record Payload : Type := mkPayload {
  event : option string;
  data_reference : option string;
  data_paid_at : option string
}.

(** The three fields that the webhook reads, as any JSON document gives
    them, the reference as the query takes it. *)
Record Delivery : Type := mkDelivery {
  dl_event : JSON;
  dl_reference : string;
  dl_paid_at : JSON
}.

(** The string that a JSON value is, if it is one. *)
Definition text (v : JSON) : option string :=
  match v with
  | JString s => Some s
  | _ => None
  end.

Section Vocabulary.
Import Datetime Utils AuthDeps Schemas WalletRouter.
Context `{Env}.

(** The ledger total: the sum of all wallet balances. *)
Definition total_balance (l : list Wallet.t) : Z :=
fold_right (fun w a => Wallet.balance w + a) 0 l.

(** The key grants [perm]: its [permissions] column holds a list of which
  the string [perm] is an element. *)
Definition grants (k : APIKey.t) (perm : string) : Prop :=
exists l, APIKey.permissions k = JArray l /\ In (JString perm) l.

(** The required permissions that the key does not grant, in the order of
  the requirement. *)
Definition missing_of (required : list string) (k : APIKey.t) : list string :=
List.filter (fun perm => negb (existsb (json_is_str perm) (api_key_permissions k)))
            required.

(** The duration of one unit, in microseconds: hours, days, months of 30
  days and years of 365 days, in either case. *)
Definition unit_duration (u : ascii) : option Z :=
match u with
| "H"%char | "h"%char => Some us_per_hour
| "D"%char | "d"%char => Some us_per_day
| "M"%char | "m"%char => Some (30 * us_per_day)
| "Y"%char | "y"%char => Some (365 * us_per_day)
| _ => None
end.

(** A decimal digit 0 to 9, and the number that a string of digits
  writes. *)
Definition is_digit (c : ascii) : bool := (48 <=? code c) && (code c <=? 57).

Definition decimal_value (ds : list ascii) : Z :=
fold_left (fun acc c => 10 * acc + (code c - 48)) ds 0.

Definition all_digits (s : string) : bool :=
forallb is_digit (list_ascii_of_string s).

(** What the handler reads of a request that passes the checks in front
  of the ledger: the signature header is present and verifies, the body is
  a JSON object whose [data] is an object (or absent) with a reference that
  is true and that the database accepts as a parameter. *)
Definition accepted (request : WebhookRequest) : option Delivery :=
match x_paystack_signature request with
| None => None
| Some signature =>
    if String.eqb signature "" then None
    else
      match verify_paystack_signature (body request) signature with
      | Return true =>
          match json_loads (body request) with
          | Some (JObject payload) =>
              match dict_get payload "data" (JObject []) with
              | JObject data =>
                  let reference := dict_get data "reference" JNull in
                  if truthy reference then
                    match bind_reference reference with
                    | Some r =>
                        Some (mkDelivery (dict_get payload "event" JNull) r
                                         (dict_get data "paid_at" JNull))
                    | None => None
                    end
                  else None
              | _ => None
              end
          | _ => None
          end
      | _ => None
      end
end.

(** The fields of a delivery that arrive as the gateway types them: the
  event as a string if it is one, and the payment time a string or a value
  that counts as absent. *)
Definition typed (d : Delivery) : option Payload :=
match paid_at_value (dl_paid_at d) with
| Return paid_at_str =>
    Some (mkPayload (text (dl_event d)) (Some (dl_reference d)) paid_at_str)
| _ => None
end.

(** The payload of a request that passes the checks in front of the
  ledger and whose payment time, if any, is a string. *)
Definition delivered (request : WebhookRequest) : option Payload :=
match accepted request with
| Some d => typed d
| None => None
end.

(** A request to one of the three ledger endpoints, with the random draws,
  the clock and the gateway's answer that the handler consumes. *)
Inductive Op : Type :=
| Deposit (amount_in_kobo : Z) (current_user : User.t) (token_hex : string)
          (new_id : N) (reply : GatewayReply)
| Webhook (request : WebhookRequest) (now : Datetime.datetime)
| Transfer (wallet_number : string) (amount : Z) (current_user : User.t)
           (token_hex : string) (new_id : N) (now : Datetime.datetime).

(** The store after a request: the body is validated by its schema, then
  the handler runs. *)
Definition step (op : Op) (st : Store) : Store :=
match op with
| Deposit a u tok new_id reply =>
    match WalletDepositRequest_validate a with
    | Return deposit => snd (initiate_deposit deposit u tok new_id reply st)
    | _ => st
    end
| Webhook request now => snd (paystack_webhook request now st)
| Transfer number a u tok new_id now =>
    match WalletTransferRequest_validate number a with
    | Return transfer => snd (transfer_funds transfer u tok new_id now st)
    | _ => st
    end
end.

Inductive reachable (st0 : Store) : Store -> Prop :=
| reachable_init : reachable st0 st0
| reachable_step st op : reachable st0 st -> reachable st0 (step op st).

(** Balances and recorded amounts are non-negative. *)
Definition ledger_ok (st : Store) : Prop :=
Forall (fun w => 0 <= Wallet.balance w) (wallets st) /\
Forall (fun x => 0 <= Transaction.amount x) (transactions st).

End Vocabulary.

(** * Vocabulary of the service-wide properties *)

Section ServiceVocabulary.
Import Schemas WalletRouter ApiKeys KeyRollover GoogleAuth.
Context `{Env}.

(** A request to one of the three key endpoints that write. *)
Inductive KeyOp : Type :=
| CreateKey (key_data : APIKeyCreate) (current_user : User.t)
            (random_part : string) (new_id : N) (now : Datetime.datetime)
| RolloverKey (rollover_data : RolloverRequest) (current_user : User.t)
              (random_part : string) (new_id : N) (now : Datetime.datetime)
| RevokeKey (key_id : string) (current_user : User.t).

Definition key_step (op : KeyOp) (st : Store) : Store :=
  match op with
  | CreateKey key_data u random_part new_id now =>
      snd (create_api_key key_data u random_part new_id now st)
  | RolloverKey rollover_data u random_part new_id now =>
      snd (rollover_api_key rollover_data u random_part new_id now st)
  | RevokeKey key_id u => snd (revoke_api_key key_id u st)
  end.

(** A request to one of the three endpoints of the payments router. *)
Inductive PaymentOp : Type :=
| InitiatePayment (amount_in_kobo : Z) (current_user : User.t) (token_hex : string)
                  (new_id : N) (reply : GatewayReply)
| PaymentWebhook (request : WebhookRequest) (now : Datetime.datetime)
| TransactionStatus (reference : string) (refresh : bool)
                    (reply : Payments.VerifyReply).

Definition payment_step (op : PaymentOp) (st : Store) : Store :=
  match op with
  | InitiatePayment a u tok new_id reply =>
      match Payments.PaymentInitiateRequest_validate a with
      | Return payment => snd (Payments.initiate_payment payment u tok new_id reply st)
      | _ => st
      end
  | PaymentWebhook request now => snd (Payments.paystack_webhook request now st)
  | TransactionStatus reference refresh reply =>
      snd (Payments.get_transaction_status reference refresh reply st)
  end.

(** A request to any endpoint of the four routers that writes to the
    store: the ledger, the keys, the login callback, or the payments
    router. *)
Inductive Request : Type :=
| LedgerRequest (op : Op)
| KeyRequest (op : KeyOp)
| CallbackRequest (code state error : option string) (reply : GoogleReply)
                  (new_user_id new_wallet_id : N) (r : Z) (now : Datetime.datetime)
| PaymentsRequest (op : PaymentOp).

(** The state of the service: the store and the process-wide
    [oauth_states]. *)
Definition State : Type := Store * gmap string bool.

Definition serve (request : Request) (s : State) : State :=
  match request with
  | LedgerRequest op => (step op (fst s), snd s)
  | KeyRequest op => (key_step op (fst s), snd s)
  | CallbackRequest code state error reply new_user_id new_wallet_id r now =>
      let result :=
        google_callback code state error reply new_user_id new_wallet_id r now
                        (snd s) (fst s) in
      (snd result, snd (fst result))
  | PaymentsRequest op => (payment_step op (fst s), snd s)
  end.

Inductive served (s0 : State) : State -> Prop :=
| served_init : served s0 s0
| served_step s request : served s0 s -> served s0 (serve request s).

(** The states reached without a request to the payments router. *)
Inductive served_without_payments (s0 : State) : State -> Prop :=
| without_payments_init : served_without_payments s0 s0
| without_payments_step s request :
    served_without_payments s0 s ->
    (forall op, request <> PaymentsRequest op) ->
    served_without_payments s0 (serve request s).

(** The parts of a row that no endpoint rewrites. *)
Definition wallet_identity (w : Wallet.t) : N * N * string :=
  (Wallet.id w, Wallet.user_id w, Wallet.wallet_number w).

Definition transaction_identity (x : Transaction.t)
  : N * string * N * option N * Z * string * option N :=
  (Transaction.id x, Transaction.reference x, Transaction.user_id x,
   Transaction.wallet_id x, Transaction.amount x, Transaction.transaction_type x,
   Transaction.recipient_wallet_id x).

Definition key_identity (k : APIKey.t)
  : N * string * string * string * N * JSON * option Datetime.datetime :=
  (APIKey.id k, APIKey.name k, APIKey.key_prefix k, APIKey.key_hash k,
   APIKey.owner_id k, APIKey.permissions k, APIKey.expires_at k).

(** No two wallet rows share an id, an owner or a number. *)
Definition wallets_unique (st : Store) : Prop :=
  NoDup (map Wallet.id (wallets st)) /\
  NoDup (map Wallet.user_id (wallets st)) /\
  NoDup (map Wallet.wallet_number (wallets st)).

(** Every row of [l] is still in [l'], at its position, in relation [R]. *)
Definition persists {A : Type} (R : A -> A -> Prop) (l l' : list A) : Prop :=
  forall i x, l !! i = Some x -> exists x', l' !! i = Some x' /\ R x x'.

(** What stays of a wallet: everything but the balance. *)
Definition wallet_kept (w w' : Wallet.t) : Prop :=
  wallet_identity w' = wallet_identity w.

(** What stays of a transaction under every request: everything but
    status and payment time. *)
Definition transaction_row_kept (x x' : Transaction.t) : Prop :=
  transaction_identity x' = transaction_identity x.

(** What stays of a transaction under the requests outside the payments
    router: status and payment time too, once the status is "success". *)
Definition transaction_kept (x x' : Transaction.t) : Prop :=
  transaction_identity x' = transaction_identity x /\
  (Transaction.status x = "success" -> x' = x).

(** What stays of a key: everything but the active flag, which never comes
    back once it is off. *)
Definition key_kept (k k' : APIKey.t) : Prop :=
  key_identity k' = key_identity k /\
  (APIKey.is_active k = false -> APIKey.is_active k' = false).

End ServiceVocabulary.

(** * Sample data, for the concrete instances *)

Definition sample_body (event reference : string) (more : list (string * JSON)) : JSON :=
  JObject [("event", JString event);
           ("data", JObject (("reference", JString reference) :: more))].

(** A parser of one-letter bodies: success, failure, another event, a
    success whose payment time is a number, a list, and an object whose
    data is null. *)
Definition sample_json (body : string) : option JSON :=
  match body with
  | String "S" (String ":" r) => Some (sample_body "charge.success" r [])
  | String "F" (String ":" r) => Some (sample_body "charge.failed" r [])
  | String "U" (String ":" r) => Some (sample_body "charge.dispute" r [])
  | String "N" (String ":" r) =>
      Some (sample_body "charge.success" r [("paid_at", JNumber 1700000000)])
  | String "L" (String ":" _) => Some (JArray [])
  | String "D" (String ":" _) => Some (JObject [("data", JNull)])
  | _ => None
  end.

Definition sample_env : Env := {|
  sha256_hexdigest := fun s => "sha256:" ++ s;
  hmac_sha512_hexdigest := fun key msg => key ++ "/" ++ msg;
  json_loads := sample_json;
  db_bind := fun _ => None;
  fromisoformat := fun _ => None;
  UUID := fun s => Some (N.of_nat (String.length s));
  jwt_encode := fun _ _ => "token";
  PAYSTACK_WEBHOOK_SECRET := Some "whsec";
  PAYSTACK_SECRET_KEY := Some "sk_test";
  ACCESS_TOKEN_EXPIRE_MINUTES := 30
|}.

(** 2026-01-01T00:00:00 *)
Definition sample_now : Datetime.datetime := 739616 * Datetime.us_per_day.

Definition alice : User.t :=
  User.mk 1 "alice@x.com" (Some "Alice") None (Some "g-alice") true.
Definition bob : User.t :=
  User.mk 2 "bob@x.com" (Some "Bob") None (Some "g-bob") true.

Definition sample_store : Store :=
  mkStore [alice; bob]
          [Wallet.mk 10 1 "4000000000001" 1000; Wallet.mk 20 2 "4000000000002" 0]
          []
          [Transaction.mk 100 "txn_aa" 1 (Some 10%N) 500 "deposit" "pending" None None].

Definition charge_success (reference : string) : WalletRouter.WebhookRequest :=
  WalletRouter.mkWebhook ("S:" ++ reference) (Some ("whsec/S:" ++ reference)).
Definition charge_failed (reference : string) : WalletRouter.WebhookRequest :=
  WalletRouter.mkWebhook ("F:" ++ reference) (Some ("whsec/F:" ++ reference)).

(** A pending deposit whose wallet reference is NULL. *)
Definition orphan_store : Store :=
  mkStore [alice] []
          []
          [Transaction.mk 100 "txn_cc" 1 None 500 "deposit" "pending" None None].

Definition failed_store : Store :=
  mkStore [alice]
          [Wallet.mk 10 1 "4000000000001" 0]
          []
          [Transaction.mk 100 "txn_ff" 1 (Some 10%N) 500 "deposit" "failed" None None].

Definition sample_key (n : N) (hash : string) : APIKey.t :=
  APIKey.mk n "service" "sk_live_00000000" hash 1 (JArray [JString "read"]) None true.

Definition full_store : Store :=
  mkStore [alice] [Wallet.mk 10 1 "4000000000001" 0]
          [sample_key 1 "h1"; sample_key 2 "h2"; sample_key 3 "h3";
           sample_key 4 "h4"; sample_key 5 "h5"]
          [].

Definition carol_info : GoogleAuth.GoogleUserInfo :=
  GoogleAuth.mkInfo (Some "g-carol") (Some "carol@x.com") (Some "Carol") None.

(** Bob's wallet number is the one that the draw [r = 2] produces. *)
Definition login_store : Store :=
  mkStore [alice; bob]
          [Wallet.mk 10 1 "4000000000001" 1000; Wallet.mk 20 2 "4000000000002" 0]
          [] [].

Definition first_login (r : Z) :=
  @GoogleAuth.google_callback sample_env (Some "code") (Some "s1") None
    (GoogleAuth.UserInfo carol_info) 3%N 30%N r sample_now
    (<["s1" := true]> (<["s2" := true]> ∅)) login_store.

(** ** More sample data *)

(** The sample environment without a webhook secret. *)
Definition unconfigured_env : Env := {|
  sha256_hexdigest := fun s => "sha256:" ++ s;
  hmac_sha512_hexdigest := fun key msg => key ++ "/" ++ msg;
  json_loads := sample_json;
  db_bind := fun _ => None;
  fromisoformat := fun _ => None;
  UUID := fun s => Some (N.of_nat (String.length s));
  jwt_encode := fun _ _ => "token";
  PAYSTACK_WEBHOOK_SECRET := None;
  PAYSTACK_SECRET_KEY := Some "sk_test";
  ACCESS_TOKEN_EXPIRE_MINUTES := 30
|}.

(** A token decoder that knows one token, Alice's. *)
Definition sample_jose : Verifier.Jose := {|
  Verifier.jwt_decode := fun token _ =>
    if String.eqb token "alice-token" then Some 1%N else None
|}.

(** Rows are created in the order of their ids. *)
Definition sample_created_at (x : Transaction.t) : Datetime.datetime :=
  Z.of_N (Transaction.id x).

(** Alice with a key that expired a microsecond ago and a key without
    expiry. *)
Definition expired_store : Store :=
  mkStore [alice] [Wallet.mk 10 1 "4000000000001" 0]
          [APIKey.mk 1 "batch" "sk_live_00000000" "sha256:sk_live_one" 1
                     (JArray [JString "read"]) None true;
           APIKey.mk 3 "ci" "sk_live_11111111" "sha256:sk_live_old" 1
                     (JArray [JString "read"; JString "transfer"])
                     (Some (sample_now - 1)) true]
          [].

Definition sample_state : State := (sample_store, <["s1" := true]> ∅).

(** A transfer, the confirmation of the pending deposit, the creation of a
    key and the first login of Carol. *)
Definition sample_requests : list Request :=
  [LedgerRequest (Transfer "4000000000002" 400 alice "bb" 101%N sample_now);
   LedgerRequest (Webhook (charge_success "txn_aa") sample_now);
   KeyRequest (CreateKey (ApiKeys.mkAPIKeyCreate "ci" ["read"] "2H") alice "ab" 6%N
                         sample_now);
   CallbackRequest (Some "code") (Some "s1") None (GoogleAuth.UserInfo carol_info)
                   3%N 30%N 3 sample_now].

Definition sample_final : State :=
  fold_left (fun s request => @serve sample_env request s) sample_requests sample_state.

(** The sample store once the pending deposit is confirmed, and its row. *)
Definition confirmed_store : Store :=
  snd (@WalletRouter.paystack_webhook sample_env (charge_success "txn_aa")
         sample_now sample_store).

Definition confirmed_row : Transaction.t :=
  Transaction.mk 100 "txn_aa" 1 (Some 10%N) 500 "deposit" "success" None
                 (Some sample_now).

(** A failure event and a second confirmation for the confirmed deposit,
    then a transfer, all outside the payments router. *)
Definition later_requests : list Request :=
  [LedgerRequest (Webhook (charge_failed "txn_aa") (sample_now + 1));
   LedgerRequest (Webhook (charge_success "txn_aa") (sample_now + 2));
   LedgerRequest (Transfer "4000000000002" 400 alice "bb" 101%N sample_now)].

Definition confirmed_final : State :=
  fold_left (fun s request => @serve sample_env request s) later_requests
            (confirmed_store, ∅).

(** The failure event delivered to the webhook of the payments router, and
    the confirmation delivered to the wallet webhook after it. *)
Definition reopened : State :=
  @serve sample_env
    (PaymentsRequest (PaymentWebhook (charge_failed "txn_aa") (sample_now + 1)))
    (confirmed_store, ∅).

Definition credited_again : State :=
  @serve sample_env (LedgerRequest (Webhook (charge_success "txn_aa") (sample_now + 2)))
    reopened.

(** The full set of keys after a revocation and a creation. *)
Definition revoked_then : State :=
  @serve sample_env (KeyRequest (CreateKey (ApiKeys.mkAPIKeyCreate "ci" ["read"] "2H")
                                           alice "ab" 6%N sample_now))
    (@serve sample_env (KeyRequest (RevokeKey "abc" alice)) (full_store, ∅)).

(** Alice and Bob each ask for the history; Bob holds the recipient wallet. *)
Definition after_transfer : Store :=
  snd (WalletRouter.transfer_funds (Schemas.mkTransfer "4000000000002" 400)
         alice "bb" 101%N sample_now sample_store).

(** * Properties *)

(** ** Rows found by [first] *)
Section First.
Context {A : Type} (p : A -> bool).

Lemma first_Some (l : list A) i x :
  first p l = Some (i, x) ->
  l !! i = Some x /\ p x = true /\
  forall j y, (j < i)%nat -> l !! j = Some y -> p y = false.
Proof.
  revert i x. induction l as [|a l IH]; intros i x; simpl; [discriminate|].
  destruct (p a) eqn:Ha.
  - intros [= <- <-]. repeat split; auto. intros j y Hj. lia.
  - destruct (first p l) as [[k y]|] eqn:Hf; [|discriminate].
    intros [= <- <-]. destruct (IH k y eq_refl) as (H1 & H2 & H3).
    repeat split; auto.
    intros [|j] z Hj Hz; simpl in Hz.
    + congruence.
    + apply (H3 j); [lia|done].
Qed.

Lemma first_None (l : list A) :
  first p l = None <-> forall x, In x l -> p x = false.
Proof.
  induction l as [|a l IH]; simpl.
  - split; [intros _ x []|done].
  - destruct (p a) eqn:Ha.
    + split; [discriminate|]. intros Hall.
      rewrite (Hall a) in Ha by auto. discriminate.
    + destruct (first p l) as [[k y]|] eqn:Hf.
      * split; [discriminate|]. intros Hall.
        assert (Some (k, y) = None) as Habs; [|discriminate].
        apply IH. intros x Hx. apply Hall. auto.
      * split; [|done]. intros _ x [<-|Hx]; [done|]. by apply IH.
Qed.

Lemma first_lt (l : list A) i x :
  first p l = Some (i, x) -> (i < length l)%nat.
Proof.
  intros Hf. apply first_Some in Hf as (Hl & _).
  by apply lookup_lt_Some in Hl.
Qed.

(** An update that keeps the filter's verdict at its position keeps the
    position of the first match. *)
Lemma first_insert (l : list A) k z y :
  l !! k = Some z -> p y = p z ->
  first p (<[k := y]> l) =
  match first p l with
  | Some (i, x) => Some (i, if (i =? k)%nat then y else x)
  | None => None
  end.
Proof.
  revert k. induction l as [|a l IH]; intros k Hk Hp; [done|].
  destruct k as [|k]; simpl in *.
  - injection Hk as ->. rewrite Hp.
    destruct (p z); [done|]. by destruct (first p l) as [[i x]|].
  - destruct (p a); [done|].
    rewrite (IH k Hk Hp). by destruct (first p l) as [[i x]|].
Qed.

Lemma first_app_None (l : list A) x :
  first p l = None -> first p (l ++ [x]) = if p x then Some (length l, x) else None.
Proof.
  induction l as [|a l IH]; simpl.
  - intros _. by destruct (p x).
  - destruct (p a); [discriminate|].
    destruct (first p l) as [[i y]|]; [discriminate|].
    intros _. rewrite IH by done. by destruct (p x).
Qed.

Lemma first_app_Some (l : list A) x i y :
  first p l = Some (i, y) -> first p (l ++ [x]) = Some (i, y).
Proof.
  revert i y. induction l as [|a l IH]; intros i y; simpl; [discriminate|].
  destruct (p a); [done|].
  destruct (first p l) as [[k z]|]; [|discriminate].
  intros [= <- <-]. by rewrite (IH k z eq_refl).
Qed.

End First.

(** ** Balances *)

Lemma total_balance_insert (l : list Wallet.t) i w w' :
  l !! i = Some w ->
  total_balance (<[i := w']> l) = total_balance l - Wallet.balance w + Wallet.balance w'.
Proof.
  revert i. induction l as [|a l IH]; intros [|i] Hi; simpl in *; try discriminate.
  - injection Hi as ->. lia.
  - rewrite (IH i Hi). lia.
Qed.

Lemma existsb_false_Forall {A} (p : A -> bool) (l : list A) :
  existsb p l = false <-> forall x, In x l -> p x = false.
Proof.
  induction l as [|a l IH]; simpl.
  - split; [intros _ x []|done].
  - rewrite orb_false_iff, IH. split.
    + intros [Ha Hl] x [<-|Hx]; auto.
    + intros Hall. split; auto.
Qed.

(** ** Permission gate *)
Section Gate.
Import AuthDeps.

Lemma json_is_str_In (perm : string) (l : list JSON) :
  existsb (json_is_str perm) l = true <-> In (JString perm) l.
Proof.
  rewrite existsb_exists. split.
  - intros (x & Hx & Hs). destruct x; simpl in Hs; try discriminate.
    apply String.eqb_eq in Hs. by subst.
  - intros Hin. exists (JString perm). split; [done|]. simpl.
    apply String.eqb_refl.
Qed.

Lemma missing_of_In required k perm :
  In perm (missing_of required k) <->
  In perm required /\ ~ In (JString perm) (api_key_permissions k).
Proof.
  unfold missing_of. rewrite filter_In, negb_true_iff, <- json_is_str_In.
  split; intros [H1 H2]; split; auto.
  - by rewrite H2.
  - by destruct (existsb _ _).
Qed.

Lemma missing_of_nil required k :
  missing_of required k = [] <->
  forall perm, In perm required -> In (JString perm) (api_key_permissions k).
Proof.
  split.
  - intros Hnil perm Hin.
    destruct (existsb (json_is_str perm) (api_key_permissions k)) eqn:He.
    + by apply json_is_str_In.
    + assert (In perm (missing_of required k)) as Hm.
      { apply missing_of_In. split; [done|].
        rewrite <- json_is_str_In, He. discriminate. }
      rewrite Hnil in Hm. destruct Hm.
  - intros Hall. destruct (missing_of required k) as [|perm l] eqn:Hm; [done|].
    assert (In perm (missing_of required k)) as Hin by (rewrite Hm; by left).
    apply missing_of_In in Hin as [Hin Hnot]. destruct Hnot. auto.
Qed.

Lemma api_key_permissions_grants k perm :
  In (JString perm) (api_key_permissions k) <-> grants k perm.
Proof.
  unfold api_key_permissions, grants. split.
  - destruct (APIKey.permissions k) as [| | | | |l|]; try done.
    intros Hin. by exists l.
  - by intros (l & -> & Hin).
Qed.

(** C7. The permission gate lets a JWT principal (no API key) through
    whatever is required.  It lets an API-key principal through exactly when
    every required permission is a string of the list held in the key's
    [permissions] column, and otherwise answers 403 with the required
    permissions that this list lacks, in the order of the requirement.  A
    column that holds no list grants nothing: such a key passes only a gate
    that requires nothing. *)
Theorem permission_gate (required : list string) (user : User.t) (k : APIKey.t) :
  permission_checker required (user, None) = Return user /\
  (permission_checker required (user, Some k) = Return user <->
   forall perm, In perm required -> grants k perm) /\
  (permission_checker required (user, Some k) = Return user \/
   permission_checker required (user, Some k)
     = HTTPException (MissingPermissions (missing_of required k)) /\
   missing_of required k <> [] /\
   status_code (MissingPermissions (missing_of required k)) = 403) /\
  (forall perm, In perm (missing_of required k) <->
     In perm required /\ ~ grants k perm) /\
  (exists lacks : string -> bool,
     (forall perm, lacks perm = true <-> ~ grants k perm) /\
     missing_of required k = List.filter lacks required) /\
  (forall l, APIKey.permissions k = JArray l ->
     (permission_checker required (user, Some k) = Return user <->
      forall perm, In perm required -> In (JString perm) l) /\
     (forall perm, In perm (missing_of required k) <->
        In perm required /\ ~ In (JString perm) l)) /\
  ((forall l, APIKey.permissions k <> JArray l) ->
     missing_of required k = required /\
     (permission_checker required (user, Some k) = Return user <-> required = [])) /\
  (permission_checker required (user, Some k) = Return user <->
   forall perm, In perm required -> In (JString perm) (api_key_permissions k)) /\
  (forall perm, In perm (missing_of required k) <->
     In perm required /\ ~ In (JString perm) (api_key_permissions k)).
Proof.
  assert (permission_checker required (user, Some k) = Return user <->
          missing_of required k = []) as Hret.
  { unfold permission_checker. fold (missing_of required k).
    destruct (missing_of required k); split; done. }
  assert (forall perm, In perm (missing_of required k) <->
                       In perm required /\ ~ grants k perm) as Hmiss.
  { intros perm. by rewrite missing_of_In, api_key_permissions_grants. }
  assert (permission_checker required (user, Some k) = Return user <->
          forall perm, In perm required -> grants k perm) as Hgate.
  { rewrite Hret, missing_of_nil. split; intros Hall perm Hin.
    - by apply api_key_permissions_grants, Hall.
    - by apply api_key_permissions_grants, Hall. }
  split; [done|]. split; [exact Hgate|]. split.
  { unfold permission_checker. fold (missing_of required k).
    destruct (missing_of required k) eqn:Hm; [by left|right]. done. }
  split; [exact Hmiss|]. split.
  { exists (fun perm => negb (existsb (json_is_str perm) (api_key_permissions k))).
    split; [|reflexivity]. intros perm.
    rewrite negb_true_iff, <- api_key_permissions_grants, <- json_is_str_In.
    by destruct (existsb _ _). }
  split.
  { intros l Hl.
    assert (forall perm, grants k perm <-> In (JString perm) l) as Hg.
    { intros perm. unfold grants. rewrite Hl. split.
      - by intros (l' & [= <-] & Hin).
      - intros Hin. by exists l. }
    split.
    - rewrite Hgate. split; intros Hall perm Hin; by apply Hg, Hall.
    - intros perm. by rewrite Hmiss, Hg. }
  split.
  { intros Hno.
    assert (api_key_permissions k = []) as Hnil.
    { unfold api_key_permissions.
      destruct (APIKey.permissions k) as [| | | | |l|] eqn:Hp; try done.
      by destruct (Hno l). }
    assert (missing_of required k = required) as Hall.
    { unfold missing_of. rewrite Hnil. simpl. clear.
      induction required as [|perm r IH]; [done|]. simpl. by rewrite IH. }
    split; [exact Hall|]. by rewrite Hret, Hall. }
  split.
  { by rewrite Hret, missing_of_nil. }
  apply missing_of_In.
Qed.

Example read_key_cannot_transfer :
  permission_checker ["transfer"]
    (alice, Some (APIKey.mk 7 "k" "sk_live_" "h" 1 (JArray [JString "read"]) None true))
  = HTTPException (MissingPermissions ["transfer"]).
Proof. reflexivity. Qed.

Example read_key_can_read :
  permission_checker ["read"]
    (alice, Some (APIKey.mk 7 "k" "sk_live_" "h" 1 (JArray [JString "read"]) None true))
  = Return alice.
Proof. reflexivity. Qed.

Example string_column_grants_nothing :
  permission_checker ["read"]
    (alice, Some (APIKey.mk 7 "k" "sk_live_" "h" 1 (JString "read") None true))
  = HTTPException (MissingPermissions ["read"]).
Proof. reflexivity. Qed.

End Gate.

(** ** Transfers *)
Section Transfer.
Import Schemas WalletRouter.

Lemma insert_transaction_Return st x st' :
  insert_transaction st x = Return st' ->
  st' = with_transactions st (transactions st ++ [x]).
Proof.
  unfold insert_transaction. destruct (existsb _ _); [discriminate|].
  by intros [= <-].
Qed.

Lemma insert_transaction_wallets st x :
  forall st', insert_transaction st x = Return st' -> wallets st' = wallets st.
Proof. intros st' ->%insert_transaction_Return. done. Qed.

(** C3. A transfer that succeeds moves exactly its amount: the sender's
    row loses it, the recipient's row (a different row) gains it, every
    other wallet is untouched, so the sum of the two balances and the
    ledger total are unchanged. *)
Theorem transfer_conservation (transfer : WalletTransferRequest) (user : User.t)
    (token_hex : string) (new_id : N) (now : Datetime.datetime)
    (st st' : Store) (resp : TransferData) :
  transfer_funds transfer user token_hex new_id now st = (Return resp, st') ->
  exists i j sender recipient,
    i <> j /\
    wallets st !! i = Some sender /\ wallets st !! j = Some recipient /\
    Wallet.user_id sender = User.id user /\
    Wallet.wallet_number recipient = tr_wallet_number transfer /\
    Wallet.id sender <> Wallet.id recipient /\
    wallets st' !! i
      = Some (Wallet.set_balance sender (Wallet.balance sender - tr_amount transfer)) /\
    wallets st' !! j
      = Some (Wallet.set_balance recipient (Wallet.balance recipient + tr_amount transfer)) /\
    (forall k, k <> i -> k <> j -> wallets st' !! k = wallets st !! k) /\
    (Wallet.balance sender - tr_amount transfer)
      + (Wallet.balance recipient + tr_amount transfer)
      = Wallet.balance sender + Wallet.balance recipient /\
    total_balance (wallets st') = total_balance (wallets st).
Proof.
  unfold transfer_funds, wallet_of_user, wallet_by_number.
  destruct (first _ (wallets st)) as [[i sender]|] eqn:Hs; [|discriminate].
  destruct (Wallet.balance sender <? tr_amount transfer); [discriminate|].
  destruct (first (fun w => String.eqb (Wallet.wallet_number w) _) (wallets st))
    as [[j recipient]|] eqn:Hr; [|discriminate].
  destruct (Wallet.id sender =? Wallet.id recipient)%N eqn:Hid; [discriminate|].
  apply N.eqb_neq in Hid.
  destruct (insert_transaction _ _) as [st2| |] eqn:Hins; try discriminate.
  intros [= _ <-]. apply insert_transaction_wallets in Hins. simpl in Hins.
  apply first_Some in Hs as (Hsi & Hsu & _). apply first_Some in Hr as (Hrj & Hrn & _).
  apply N.eqb_eq in Hsu. apply String.eqb_eq in Hrn.
  assert (i <> j) as Hij by (intros ->; congruence).
  exists i, j, sender, recipient. rewrite Hins.
  repeat split; auto.
  - rewrite list_lookup_insert_ne by done.
    apply list_lookup_insert_eq. by apply lookup_lt_Some in Hsi.
  - apply list_lookup_insert_eq. rewrite length_insert.
    by apply lookup_lt_Some in Hrj.
  - intros k Hki Hkj. by rewrite !list_lookup_insert_ne.
  - lia.
  - rewrite (total_balance_insert _ j recipient).
    + rewrite (total_balance_insert _ i sender) by done. simpl. lia.
    + by rewrite list_lookup_insert_ne.
Qed.

(** C5. A transfer of more than the sender's balance is refused with the
    "Insufficient balance" answer (status 400) and leaves the store as it
    was: no balance moves and no transaction is recorded. *)
Theorem transfer_insufficient_funds (transfer : WalletTransferRequest) (user : User.t)
    (token_hex : string) (new_id : N) (now : Datetime.datetime) (st : Store)
    (i : nat) (sender : Wallet.t) :
  wallet_of_user st (User.id user) = Some (i, sender) ->
  Wallet.balance sender < tr_amount transfer ->
  transfer_funds transfer user token_hex new_id now st
    = (HTTPException (InsufficientBalance (Wallet.balance sender)), st) /\
  status_code (InsufficientBalance (Wallet.balance sender)) = 400.
Proof.
  intros Hs Hlt. unfold transfer_funds. rewrite Hs.
  apply Z.ltb_lt in Hlt. by rewrite Hlt.
Qed.

End Transfer.

Lemma transfer_conservation_witness :
  let st' := snd (WalletRouter.transfer_funds (Schemas.mkTransfer "4000000000002" 400)
                    alice "bb" 101%N sample_now sample_store) in
  map Wallet.balance (wallets sample_store) = [1000; 0] /\
  map Wallet.balance (wallets st') = [600; 400] /\
  total_balance (wallets st') = total_balance (wallets sample_store).
Proof.
  split; [reflexivity|]. split; [reflexivity|].
  edestruct (transfer_conservation (Schemas.mkTransfer "4000000000002" 400)
               alice "bb" 101%N sample_now sample_store)
    as (i & j & s & r & Hrest).
  - reflexivity.
  - apply Hrest.
Defined.

Lemma transfer_insufficient_funds_witness :
  WalletRouter.transfer_funds (Schemas.mkTransfer "4000000000002" 1500)
    alice "bb" 101%N sample_now sample_store
  = (HTTPException (InsufficientBalance 1000), sample_store).
Proof.
  apply (transfer_insufficient_funds (Schemas.mkTransfer "4000000000002" 1500)
           alice "bb" 101%N sample_now sample_store 0%nat
           (Wallet.mk 10 1 "4000000000001" 1000)).
  - reflexivity.
  - simpl. lia.
Defined.

(** ** Reconciliation of gateway events *)
Section Webhook.
Import WalletRouter.
Context `{Env}.

Lemma verify_paystack_signature_cases payload signature :
  (exists b, verify_paystack_signature payload signature = Return b) \/
  verify_paystack_signature payload signature = Raise TypeError.
Proof.
  unfold verify_paystack_signature, compare_digest.
  destruct PAYSTACK_WEBHOOK_SECRET as [secret|]; [|left; by eexists].
  destruct (String.eqb secret ""); [left; by eexists|].
  destruct (_ && _); [left; by eexists|by right].
Qed.

(** The handler on a request that passes the checks in front of the
    ledger. *)
Lemma webhook_accepted request d now st :
  accepted request = Some d ->
  paystack_webhook request now st =
  match transaction_by_reference st (dl_reference d) with
  | None => (Return true, st)
  | Some (i, transaction) =>
      if String.eqb (Transaction.status transaction) "success"
      then (Return true, st)
      else if py_eq_str (dl_event d) "charge.success" then
        match wallet_by_id st (Transaction.wallet_id transaction) with
        | Some (j, wallet) =>
            match paid_at_value (dl_paid_at d) with
            | Return paid_at_str =>
                (Return true,
                 mkStore (users st)
                   (<[j := Wallet.set_balance wallet
                             (Wallet.balance wallet + Transaction.amount transaction)]>
                      (wallets st))
                   (api_keys st)
                   (<[i := Transaction.set_paid_at
                             (Transaction.set_status transaction "success")
                             (Some (confirmed_paid_at paid_at_str now))]>
                      (transactions st)))
            | HTTPException e => (HTTPException e, st)
            | Raise x => (Raise x, st)
            end
        | None => (Return true, st)
        end
      else if py_eq_str (dl_event d) "charge.failed" then
        (Return true,
         with_transactions st
           (<[i := Transaction.set_status transaction "failed"]> (transactions st)))
      else (Return true, st)
  end.
Proof.
  unfold accepted, paystack_webhook. intros Hd.
  destruct (x_paystack_signature request) as [signature|]; [|discriminate].
  cbn [default from_option id]. destruct (String.eqb signature ""); [discriminate|].
  destruct (verify_paystack_signature _ _) as [[|]| |]; try discriminate.
  destruct (json_loads (body request)) as [payload|]; [|discriminate].
  destruct payload as [| | | | | |payload]; try discriminate.
  cbn [py_get mbind outcome_bind].
  destruct (dict_get payload "data" (JObject [])) as [| | | | | |data];
    try discriminate.
  cbn [py_get mbind outcome_bind].
  destruct (truthy (dict_get data "reference" JNull)); [|discriminate].
  cbn [negb].
  destruct (bind_reference _) as [r|]; [|discriminate].
  injection Hd as Hd. subst d. reflexivity.
Qed.

(** A request stopped by the checks in front of the ledger changes
    nothing; it is answered by one of the four refusals of the handler, or
    an exception leaves the handler. *)
Lemma webhook_not_accepted request now st :
  accepted request = None ->
  snd (paystack_webhook request now st) = st /\
  ((exists e, fst (paystack_webhook request now st) = HTTPException e /\
              In e [MissingSignature; InvalidSignature; InvalidJSON; MissingReference]) \/
   (exists x, fst (paystack_webhook request now st) = Raise x /\
              In x [TypeError; AttributeError; DBAPIError])).
Proof.
  unfold accepted, paystack_webhook.
  destruct (x_paystack_signature request) as [signature|];
    cbn [default from_option id].
  2:{ intros _. split; [done|]. left. eexists. split; [done|]. simpl. tauto. }
  destruct (String.eqb signature "").
  { intros _. split; [done|]. left. eexists. split; [done|]. simpl. tauto. }
  destruct (verify_paystack_signature_cases (body request) signature)
    as [[b Hv]|Hv]; rewrite Hv.
  2:{ intros _. split; [done|]. right. eexists. split; [done|]. simpl. tauto. }
  destruct b.
  2:{ intros _. split; [done|]. left. eexists. split; [done|]. simpl. tauto. }
  destruct (json_loads (body request)) as [payload|].
  2:{ intros _. split; [done|]. left. eexists. split; [done|]. simpl. tauto. }
  assert (forall a : outcome bool * Store,
             a = (Raise AttributeError, st) ->
             snd a = st /\
             ((exists e, fst a = HTTPException e /\
                 In e [MissingSignature; InvalidSignature; InvalidJSON;
                       MissingReference]) \/
              (exists x, fst a = Raise x /\
                 In x [TypeError; AttributeError; DBAPIError]))) as Hattr.
  { intros a ->. split; [done|]. right. eexists. split; [done|]. simpl. tauto. }
  destruct payload as [| | | | | |payload]; try (intros _; by apply Hattr).
  cbn [py_get mbind outcome_bind].
  destruct (dict_get payload "data" (JObject [])) as [| | | | | |data];
    try (intros _; by apply Hattr).
  cbn [py_get mbind outcome_bind].
  destruct (truthy (dict_get data "reference" JNull)); cbn [negb].
  2:{ intros _. split; [done|]. left. eexists. split; [done|]. simpl. tauto. }
  destruct (bind_reference _) as [r|]; [discriminate|].
  intros _. split; [done|]. right. eexists. split; [done|]. simpl. tauto.
Qed.

Lemma delivered_accepted request payload :
  delivered request = Some payload ->
  exists d,
    accepted request = Some d /\
    data_reference payload = Some (dl_reference d) /\
    paid_at_value (dl_paid_at d) = Return (data_paid_at payload) /\
    forall name, py_eq_str (dl_event d) name = opt_is String.eqb (event payload) name.
Proof.
  unfold delivered, typed. destruct (accepted request) as [d|]; [|discriminate].
  destruct (paid_at_value (dl_paid_at d)) as [paid_at_str| |] eqn:Hp;
    try discriminate.
  intros [= <-]. exists d. split; [done|]. split; [done|]. split; [done|].
  intros name. cbn [event]. by destruct (dl_event d).
Qed.

Lemma webhook_delivered request payload reference now st :
  delivered request = Some payload ->
  data_reference payload = Some reference ->
  paystack_webhook request now st =
  match transaction_by_reference st reference with
  | None => (Return true, st)
  | Some (i, transaction) =>
      if String.eqb (Transaction.status transaction) "success"
      then (Return true, st)
      else if opt_is String.eqb (event payload) "charge.success" then
        match wallet_by_id st (Transaction.wallet_id transaction) with
        | Some (j, wallet) =>
            (Return true,
             mkStore (users st)
               (<[j := Wallet.set_balance wallet
                         (Wallet.balance wallet + Transaction.amount transaction)]>
                  (wallets st))
               (api_keys st)
               (<[i := Transaction.set_paid_at
                         (Transaction.set_status transaction "success")
                         (Some (confirmed_paid_at (data_paid_at payload) now))]>
                  (transactions st)))
        | None => (Return true, st)
        end
      else if opt_is String.eqb (event payload) "charge.failed" then
        (Return true,
         with_transactions st
           (<[i := Transaction.set_status transaction "failed"]> (transactions st)))
      else (Return true, st)
  end.
Proof.
  intros (d & Ha & Hd & Hp & He)%delivered_accepted Hr.
  rewrite Hd in Hr. injection Hr as Hr. subst reference.
  rewrite (webhook_accepted _ _ now st Ha), Hp, !He. reflexivity.
Qed.

(** A transaction already in status "success" is left alone, whatever the
    event. *)
Lemma webhook_success_noop request payload reference now st i transaction :
  delivered request = Some payload ->
  data_reference payload = Some reference ->
  transaction_by_reference st reference = Some (i, transaction) ->
  Transaction.status transaction = "success" ->
  paystack_webhook request now st = (Return true, st).
Proof.
  intros Hd Hr Hx Hs. rewrite (webhook_delivered _ _ _ _ _ Hd Hr), Hx, Hs.
  reflexivity.
Qed.

(** A "charge.success" event for a transaction not yet in status "success"
    whose wallet row exists credits that row and marks the transaction. *)
Lemma webhook_credit request payload reference now st i transaction j wallet :
  delivered request = Some payload ->
  data_reference payload = Some reference ->
  event payload = Some "charge.success" ->
  transaction_by_reference st reference = Some (i, transaction) ->
  Transaction.status transaction <> "success" ->
  wallet_by_id st (Transaction.wallet_id transaction) = Some (j, wallet) ->
  paystack_webhook request now st =
  (Return true,
   mkStore (users st)
     (<[j := Wallet.set_balance wallet
               (Wallet.balance wallet + Transaction.amount transaction)]> (wallets st))
     (api_keys st)
     (<[i := Transaction.set_paid_at
               (Transaction.set_status transaction "success")
               (Some (confirmed_paid_at (data_paid_at payload) now))]>
        (transactions st))).
Proof.
  intros Hd Hr He Hx Hs Hw.
  rewrite (webhook_delivered _ _ _ _ _ Hd Hr), Hx, He, Hw.
  apply String.eqb_neq in Hs. rewrite Hs. reflexivity.
Qed.

Lemma wallet_by_id_lookup st wid j wallet :
  wallet_by_id st wid = Some (j, wallet) -> wallets st !! j = Some wallet.
Proof.
  unfold wallet_by_id. destruct wid; [|discriminate].
  by intros (? & _)%first_Some.
Qed.


(** C10. A "charge.success" event for a pending transaction whose
    [wallet_id] matches no wallet row is accepted (status true) and changes
    nothing: the transaction stays pending and no balance is credited. *)
Theorem webhook_missing_wallet_accepted (request : WebhookRequest) (payload : Payload)
    (reference : string) (now : Datetime.datetime) (st : Store)
    (i : nat) (transaction : Transaction.t) :
  delivered request = Some payload ->
  data_reference payload = Some reference ->
  event payload = Some "charge.success" ->
  transaction_by_reference st reference = Some (i, transaction) ->
  Transaction.status transaction = "pending" ->
  wallet_by_id st (Transaction.wallet_id transaction) = None ->
  paystack_webhook request now st = (Return true, st) /\
  (exists transaction', transaction_by_reference
                          (snd (paystack_webhook request now st)) reference
                        = Some (i, transaction') /\
                        Transaction.status transaction' = "pending") /\
  wallets (snd (paystack_webhook request now st)) = wallets st.
Proof.
  intros Hd Hr He Hx Hs Hw.
  assert (paystack_webhook request now st = (Return true, st)) as Hrun.
  { rewrite (webhook_delivered _ _ _ _ _ Hd Hr), Hx, He, Hw, Hs. reflexivity. }
  rewrite Hrun. simpl. split; [done|]. split; [|done]. by exists transaction.
Qed.

Lemma delivered_reference request payload :
  delivered request = Some payload ->
  exists reference, data_reference payload = Some reference.
Proof. intros (d & _ & Hd & _)%delivered_accepted. by eexists. Qed.

(** Delivering the same request twice leaves the store that one delivery
    leaves, whatever the event and whatever the state of the transaction. *)
Lemma paystack_webhook_idempotent request now1 now2 st :
  snd (paystack_webhook request now2 (snd (paystack_webhook request now1 st)))
  = snd (paystack_webhook request now1 st).
Proof.
  destruct (accepted request) as [d|] eqn:Hd.
  2:{ destruct (webhook_not_accepted request now1 st Hd) as [-> _].
      by destruct (webhook_not_accepted request now2 st Hd) as [-> _]. }
  rewrite (webhook_accepted _ _ now1 st Hd).
  destruct (transaction_by_reference st (dl_reference d))
    as [[i transaction]|] eqn:Hx.
  2:{ cbn [snd]. by rewrite (webhook_accepted _ _ now2 st Hd), Hx. }
  pose proof (first_Some _ _ _ _ Hx) as (Hi & _ & _).
  destruct (String.eqb (Transaction.status transaction) "success") eqn:Hs.
  { cbn [snd]. by rewrite (webhook_accepted _ _ now2 st Hd), Hx, Hs. }
  destruct (py_eq_str (dl_event d) "charge.success") eqn:He.
  - destruct (wallet_by_id st (Transaction.wallet_id transaction))
      as [[j wallet]|] eqn:Hw.
    2:{ cbn [snd]. by rewrite (webhook_accepted _ _ now2 st Hd), Hx, Hs, He, Hw. }
    destruct (paid_at_value (dl_paid_at d)) as [paid_at_str| |] eqn:Hp; cbn [snd].
    + rewrite (webhook_accepted _ _ now2 _ Hd).
      unfold transaction_by_reference in *. cbn [transactions].
      rewrite (first_insert _ _ i transaction _ Hi) by reflexivity.
      by rewrite Hx, Nat.eqb_refl.
    + by rewrite (webhook_accepted _ _ now2 st Hd), Hx, Hs, He, Hw, Hp.
    + by rewrite (webhook_accepted _ _ now2 st Hd), Hx, Hs, He, Hw, Hp.
  - destruct (py_eq_str (dl_event d) "charge.failed") eqn:Hf; cbn [snd].
    + rewrite (webhook_accepted _ _ now2 _ Hd).
      unfold transaction_by_reference in *. cbn [transactions with_transactions].
      rewrite (first_insert _ _ i transaction _ Hi) by reflexivity.
      rewrite Hx, Nat.eqb_refl, He, Hf. cbn [Transaction.status Transaction.set_status].
      cbn [String.eqb Ascii.eqb Bool.eqb]. unfold with_transactions. cbn.
      by rewrite list_insert_insert_eq.
    + by rewrite (webhook_accepted _ _ now2 st Hd), Hx, Hs, He, Hf.
Qed.

(** The webhook of the payments router on a request that passes the same
    checks. *)
Lemma payments_webhook_accepted request d now st :
  accepted request = Some d ->
  Payments.paystack_webhook request now st =
  match transaction_by_reference st (dl_reference d) with
  | None => (Return true, st)
  | Some (i, transaction) =>
      if py_eq_str (dl_event d) "charge.success" then
        match paid_at_value (dl_paid_at d) with
        | Return paid_at_str =>
            (Return true,
             with_transactions st
               (<[i := Transaction.set_paid_at
                         (Transaction.set_status transaction "success")
                         (Some (confirmed_paid_at paid_at_str now))]>
                  (transactions st)))
        | HTTPException e => (HTTPException e, st)
        | Raise x => (Raise x, st)
        end
      else if py_eq_str (dl_event d) "charge.failed" then
        (Return true,
         with_transactions st
           (<[i := Transaction.set_status transaction "failed"]> (transactions st)))
      else (Return true, st)
  end.
Proof.
  unfold accepted, Payments.paystack_webhook. intros Hd.
  change (Payments.verify_paystack_signature (body request))
    with (verify_paystack_signature (body request)).
  destruct (x_paystack_signature request) as [signature|]; [|discriminate].
  cbn [default from_option id]. destruct (String.eqb signature ""); [discriminate|].
  destruct (verify_paystack_signature _ _) as [[|]| |]; try discriminate.
  destruct (json_loads (body request)) as [payload|]; [|discriminate].
  destruct payload as [| | | | | |payload]; try discriminate.
  cbn [py_get mbind outcome_bind].
  destruct (dict_get payload "data" (JObject [])) as [| | | | | |data];
    try discriminate.
  cbn [py_get mbind outcome_bind].
  destruct (truthy (dict_get data "reference" JNull)); [|discriminate].
  cbn [negb].
  destruct (bind_reference _) as [r|]; [|discriminate].
  injection Hd as Hd. subst d. reflexivity.
Qed.

(** What the webhook can do to the store. *)
Lemma paystack_webhook_shape request now st :
  snd (paystack_webhook request now st) = st \/
  (exists i x j w paid,
      transactions st !! i = Some x /\ Transaction.status x <> "success" /\
      wallets st !! j = Some w /\
      snd (paystack_webhook request now st)
      = mkStore (users st)
          (<[j := Wallet.set_balance w (Wallet.balance w + Transaction.amount x)]>
             (wallets st))
          (api_keys st)
          (<[i := Transaction.set_paid_at (Transaction.set_status x "success") paid]>
             (transactions st))) \/
  (exists i x,
      transactions st !! i = Some x /\ Transaction.status x <> "success" /\
      snd (paystack_webhook request now st)
      = with_transactions st
          (<[i := Transaction.set_status x "failed"]> (transactions st))).
Proof.
  destruct (accepted request) as [d|] eqn:Hd.
  2:{ left. by apply webhook_not_accepted. }
  rewrite (webhook_accepted _ _ now st Hd).
  destruct (transaction_by_reference _ _) as [[i x]|] eqn:Hx; [|by left].
  apply first_Some in Hx as (Hi & _).
  destruct (String.eqb (Transaction.status x) "success") eqn:Hs; [by left|].
  apply String.eqb_neq in Hs.
  destruct (py_eq_str _ "charge.success").
  - destruct (wallet_by_id _ _) as [[j w]|] eqn:Hw; [|by left].
    apply wallet_by_id_lookup in Hw.
    destruct (paid_at_value _) as [paid_at_str| |]; [|by left..].
    right. left. by eexists i, x, j, w, _.
  - destruct (py_eq_str _ "charge.failed"); [|by left].
    right. right. by exists i, x.
Qed.

End Webhook.


Lemma webhook_missing_wallet_accepted_witness :
  @WalletRouter.paystack_webhook sample_env (charge_success "txn_cc") sample_now orphan_store
  = (Return true, orphan_store).
Proof.
  apply (@webhook_missing_wallet_accepted sample_env (charge_success "txn_cc")
           (mkPayload (Some "charge.success") (Some "txn_cc") None)
           "txn_cc" sample_now orphan_store 0%nat
           (Transaction.mk 100 "txn_cc" 1 None 500 "deposit" "pending" None None));
    reflexivity.
Defined.

Section Terminal.
Import WalletRouter.
Context `{Env}.

Lemma set_status_same transaction s :
  Transaction.status transaction = s -> Transaction.set_status transaction s = transaction.
Proof. destruct transaction; simpl. by intros ->. Qed.

(** C2, as the code has it.  For a delivery that carries the reference of
    a transaction: in status "success" no event changes the store; in
    status "failed" every event other than "charge.success" leaves the
    store as it is; a "charge.success" event for a "failed" transaction
    whose wallet row exists is processed like one for a pending
    transaction: the wallet is credited and the transaction becomes
    "success". *)
Theorem terminal_reconciliation (request : WebhookRequest) (payload : Payload)
    (reference : string) (now : Datetime.datetime) (st : Store)
    (i : nat) (transaction : Transaction.t) :
  delivered request = Some payload ->
  data_reference payload = Some reference ->
  transaction_by_reference st reference = Some (i, transaction) ->
  (Transaction.status transaction = "success" ->
   paystack_webhook request now st = (Return true, st)) /\
  (Transaction.status transaction = "failed" ->
   event payload <> Some "charge.success" ->
   paystack_webhook request now st = (Return true, st)) /\
  (Transaction.status transaction = "failed" ->
   event payload = Some "charge.success" ->
   forall j wallet,
     wallet_by_id st (Transaction.wallet_id transaction) = Some (j, wallet) ->
     paystack_webhook request now st =
     (Return true,
      mkStore (users st)
        (<[j := Wallet.set_balance wallet
                  (Wallet.balance wallet + Transaction.amount transaction)]> (wallets st))
        (api_keys st)
        (<[i := Transaction.set_paid_at
                  (Transaction.set_status transaction "success")
                  (Some (confirmed_paid_at (data_paid_at payload) now))]>
           (transactions st)))).
Proof.
  intros Hd Hr Hx. split; [|split].
  - intros Hs. by apply (webhook_success_noop request payload reference now st i transaction).
  - intros Hs He. rewrite (webhook_delivered _ _ _ _ _ Hd Hr), Hx, Hs. simpl.
    assert (opt_is String.eqb (event payload) "charge.success" = false) as ->.
    { destruct (event payload) as [e|]; [|done]. simpl.
      apply String.eqb_neq. congruence. }
    destruct (opt_is String.eqb (event payload) "charge.failed"); [|done].
    rewrite (set_status_same _ _ Hs).
    apply first_Some in Hx as (Hi & _). rewrite (list_insert_id _ _ _ Hi).
    by destruct st.
  - intros Hs He j wallet Hw.
    apply (webhook_credit request payload reference now st i transaction j wallet);
      auto. rewrite Hs. discriminate.
Qed.

End Terminal.

(** A "charge.success" event for a transaction in status "failed" credits
    the wallet and moves the transaction to "success". *)
Lemma failed_transaction_is_credited :
  map Transaction.status (transactions failed_store) = ["failed"] /\
  map Wallet.balance (wallets failed_store) = [0] /\
  let '(answer, st') :=
    @WalletRouter.paystack_webhook sample_env (charge_success "txn_ff")
      sample_now failed_store in
  answer = Return true /\
  map Transaction.status (transactions st') = ["success"] /\
  map Wallet.balance (wallets st') = [500].
Proof. repeat split. Qed.

Lemma terminal_reconciliation_witness :
  @WalletRouter.paystack_webhook sample_env (charge_failed "txn_ff") sample_now failed_store
  = (Return true, failed_store).
Proof.
  refine (proj1 (proj2 (@terminal_reconciliation sample_env (charge_failed "txn_ff")
           (mkPayload (Some "charge.failed") (Some "txn_ff") None)
           "txn_ff" sample_now failed_store 0%nat
           (Transaction.mk 100 "txn_ff" 1 (Some 10%N) 500 "deposit" "failed" None None)
           eq_refl eq_refl eq_refl)) eq_refl _).
  discriminate.
Defined.

(** ** Reachable states of the ledger *)
Section Reachable.
Import Schemas WalletRouter.
Context `{Env}.

Lemma insert_transaction_ok st x st' :
  ledger_ok st -> 0 <= Transaction.amount x ->
  insert_transaction st x = Return st' -> ledger_ok st'.
Proof.
  intros [Hw Hx] Ha ->%insert_transaction_Return. split; [done|]. simpl.
  apply Forall_app. split; [done|]. by constructor.
Qed.

Lemma initiate_deposit_ok deposit u tok new_id reply st :
  100 <= dep_amount deposit -> ledger_ok st ->
  ledger_ok (snd (initiate_deposit deposit u tok new_id reply st)).
Proof.
  intros Ha Hok. unfold initiate_deposit.
  destruct (wallet_of_user _ _) as [[i wallet]|]; [|done].
  destruct (falsy _); [done|].
  destruct reply as [|code ok url]; [done|].
  destruct (negb _ || negb _); [done|].
  destruct (insert_transaction _ _) as [st'| |] eqn:Hins; try done.
  simpl. eapply insert_transaction_ok; [exact Hok| |exact Hins]. simpl. lia.
Qed.

Lemma paystack_webhook_ok request now st :
  ledger_ok st -> ledger_ok (snd (paystack_webhook request now st)).
Proof.
  intros [Hw Hx].
  destruct (paystack_webhook_shape request now st)
    as [->|[(i & x & j & w & paid & Hi & _ & Hj & ->)|(i & x & Hi & _ & ->)]].
  - done.
  - assert (0 <= Transaction.amount x) by by apply (Forall_lookup_1 _ _ _ _ Hx Hi).
    assert (0 <= Wallet.balance w) by by apply (Forall_lookup_1 _ _ _ _ Hw Hj).
    split; simpl.
    + apply Forall_insert; [done|]. simpl. lia.
    + by apply Forall_insert.
  - assert (0 <= Transaction.amount x) by by apply (Forall_lookup_1 _ _ _ _ Hx Hi).
    split; simpl; [done|]. by apply Forall_insert.
Qed.

Lemma transfer_funds_ok transfer u tok new_id now st :
  0 <= tr_amount transfer -> ledger_ok st ->
  ledger_ok (snd (transfer_funds transfer u tok new_id now st)).
Proof.
  intros Ha Hok. pose proof Hok as [Hw Hx]. unfold transfer_funds, wallet_of_user, wallet_by_number.
  destruct (first _ (wallets st)) as [[i sender]|] eqn:Hs; [|done].
  destruct (Wallet.balance sender <? tr_amount transfer) eqn:Hlt; [done|].
  apply Z.ltb_ge in Hlt.
  destruct (first (fun w => String.eqb (Wallet.wallet_number w) _) (wallets st))
    as [[j recipient]|] eqn:Hr; [|done].
  destruct (Wallet.id sender =? Wallet.id recipient)%N; [done|].
  destruct (insert_transaction _ _) as [st'| |] eqn:Hins; try done.
  simpl. eapply insert_transaction_ok; [| |exact Hins]; [|done].
  apply first_Some in Hr as (Hj & _).
  assert (0 <= Wallet.balance recipient) by by apply (Forall_lookup_1 _ _ _ _ Hw Hj).
  split; [|done]. simpl.
  apply Forall_insert; [apply Forall_insert; [done|]|]; simpl; lia.
Qed.

Lemma step_ok op st : ledger_ok st -> ledger_ok (step op st).
Proof.
  intros Hok. destruct op as [a u tok new_id reply|request now|number a u tok new_id now];
    simpl.
  - unfold WalletDepositRequest_validate. destruct (100 <=? a) eqn:Ha; [|done].
    apply initiate_deposit_ok; [|done]. simpl. lia.
  - by apply paystack_webhook_ok.
  - unfold WalletTransferRequest_validate.
    destruct ((_ =? 13)%nat && (100 <=? a)) eqn:Hv; [|done].
    apply andb_true_iff in Hv as [_ Ha]. apply transfer_funds_ok; [|done]. simpl. lia.
Qed.

(** C4. From a store whose balances and recorded amounts are non-negative,
    every store reached by deposit initiations, webhook deliveries and
    transfers, in any number and order, has only non-negative balances. *)
Theorem balances_never_negative (st0 st : Store) :
  (forall w, In w (wallets st0) -> 0 <= Wallet.balance w) ->
  (forall x, In x (transactions st0) -> 0 <= Transaction.amount x) ->
  reachable st0 st ->
  forall w, In w (wallets st) -> 0 <= Wallet.balance w.
Proof.
  intros Hw0 Hx0 Hreach.
  assert (ledger_ok st) as [Hw _].
  { induction Hreach as [|st op _ IH].
    - split; by apply List.Forall_forall.
    - by apply step_ok. }
  by apply List.Forall_forall.
Qed.

End Reachable.

Lemma balances_never_negative_witness :
  let st :=
    @step sample_env (Transfer "4000000000002" 1200 alice "t2" 103%N sample_now)
      (@step sample_env (Webhook (charge_success "txn_aa") sample_now)
         (@step sample_env (Transfer "4000000000002" 1500 alice "t1" 102%N sample_now)
            sample_store)) in
  map Wallet.balance (wallets st) = [300; 1200] /\
  forall w, In w (wallets st) -> 0 <= Wallet.balance w.
Proof.
  intros st. split; [reflexivity|].
  apply (@balances_never_negative sample_env sample_store st).
  - simpl. intros w [<-|[<-|[]]]; simpl; lia.
  - simpl. intros x [<-|[]]; simpl; lia.
  - subst st. repeat apply reachable_step. apply reachable_init.
Defined.

(** ** API-key quota *)
Section Quota.
Import ApiKeys.
Context `{Env}.

Lemma filter_insert_drop {A} (p : A -> bool) (l : list A) i x y :
  l !! i = Some x -> p x = true -> p y = false ->
  S (length (List.filter p (<[i := y]> l))) = length (List.filter p l).
Proof.
  revert i. induction l as [|a l IH]; intros [|i] Hi Hx Hy; simpl in *; try discriminate.
  - injection Hi as ->. by rewrite Hx, Hy.
  - destruct (p a); simpl; rewrite <- (IH i Hi Hx Hy); done.
Qed.

Lemma filter_app_one {A} (p : A -> bool) (l : list A) x :
  p x = true -> length (List.filter p (l ++ [x])) = S (length (List.filter p l)).
Proof.
  intros Hx. rewrite List.filter_app, length_app. simpl. rewrite Hx. simpl. lia.
Qed.

Lemma insert_api_key_fresh st k :
  (forall x, In x (api_keys st) ->
     APIKey.id x <> APIKey.id k /\ APIKey.key_hash x <> APIKey.key_hash k) ->
  insert_api_key st k = Return (with_api_keys st (api_keys st ++ [k])).
Proof.
  intros Hfresh. unfold insert_api_key.
  assert (existsb (fun x => (APIKey.id x =? APIKey.id k)%N
                            || String.eqb (APIKey.key_hash x) (APIKey.key_hash k))
                  (api_keys st) = false) as ->; [|done].
  apply existsb_false_Forall. intros x Hx. destruct (Hfresh x Hx) as [Hid Hh].
  apply orb_false_iff. split; [by apply N.eqb_neq|by apply String.eqb_neq].
Qed.

(** At the quota the creation is refused and the store is unchanged. *)
Lemma create_at_quota key_data user random_part new_id now st :
  User.is_active user = true ->
  (5 <= active_count st (User.id user))%nat ->
  create_api_key key_data user random_part new_id now st
    = (HTTPException MaxActiveKeys, st).
Proof.
  intros Hact Hcount. unfold create_api_key. rewrite Hact. cbn [negb].
  apply Nat.leb_le in Hcount. by rewrite Hcount.
Qed.

(** C8. An active owner with 5 active keys is refused a further key with
    the "Maximum of 5 active API keys" answer (status 400) and the store is
    unchanged; revoking one of the active keys brings the count to 4, and a
    creation with a well-formed expiry (and unused id and hash) then
    succeeds and adds one active key. *)
Theorem quota_enforcement (key_data key_data' : APIKeyCreate) (user : User.t)
    (random_part random_part' : string) (new_id new_id' : N)
    (now now' : Datetime.datetime) (st : Store)
    (key_id : string) (key_uuid : N) (i : nat) (key : APIKey.t)
    (expires_at : Datetime.datetime) :
  User.is_active user = true ->
  active_count st (User.id user) = 5%nat ->
  UUID key_id = Some key_uuid ->
  first (fun k => (APIKey.id k =? key_uuid)%N && (APIKey.owner_id k =? User.id user)%N)
        (api_keys st) = Some (i, key) ->
  APIKey.is_active key = true ->
  Utils.parse_expiry now' (kc_expiry key_data') = Return expires_at ->
  (forall k, In k (api_keys st) ->
     APIKey.id k <> new_id' /\
     APIKey.key_hash k <> hash_api_key (generate_api_key random_part')) ->
  create_api_key key_data user random_part new_id now st
    = (HTTPException MaxActiveKeys, st) /\
  status_code MaxActiveKeys = 400 /\
  exists st1,
    revoke_api_key key_id user st = (Return (key_id, APIKey.name key), st1) /\
    active_count st1 (User.id user) = 4%nat /\
    exists st2,
      create_api_key key_data' user random_part' new_id' now' st1
        = (Return (mkAPIKeyResponse (generate_api_key random_part') (Some expires_at)),
           st2) /\
      active_count st2 (User.id user) = 5%nat /\
      length (api_keys st2) = S (length (api_keys st)).
Proof.
  intros Hact Hcount Huuid Hfind Hkey Hexp Hfresh.
  split. { apply create_at_quota; [done|lia]. }
  split; [done|].
  pose proof (first_Some _ _ _ _ Hfind) as (Hi & Hp & _).
  apply andb_true_iff in Hp as [_ Hown].
  eexists. split.
  { unfold revoke_api_key. rewrite Huuid, Hfind, Hkey. reflexivity. }
  assert (active_count
            (with_api_keys st (<[i := APIKey.set_is_active key false]> (api_keys st)))
            (User.id user) = 4%nat) as Hcount1.
  { unfold active_count in *. simpl.
    pose proof (filter_insert_drop
                  (fun k => (APIKey.owner_id k =? User.id user)%N && APIKey.is_active k)
                  (api_keys st) i key (APIKey.set_is_active key false) Hi) as Hdrop.
    rewrite Hcount in Hdrop. simpl in Hdrop.
    rewrite Hown, Hkey in Hdrop. specialize (Hdrop eq_refl).
    rewrite andb_false_r in Hdrop. specialize (Hdrop eq_refl). lia. }
  split; [exact Hcount1|].
  eexists. split.
  - unfold create_api_key. rewrite Hact. cbn [negb]. rewrite Hcount1.
    change (5 <=? 4)%nat with false. cbv iota. rewrite Hexp. rewrite insert_api_key_fresh; [reflexivity|].
    simpl. intros x Hx. apply list_elem_of_In, list_elem_of_lookup in Hx as [n Hn].
    destruct (decide (n = i)) as [->|Hne].
    + rewrite list_lookup_insert_eq in Hn by (by apply lookup_lt_Some in Hi).
      injection Hn as <-. simpl. apply Hfresh.
      apply list_elem_of_In, list_elem_of_lookup. eauto.
    + rewrite list_lookup_insert_ne in Hn by done. apply Hfresh.
      apply list_elem_of_In, list_elem_of_lookup. eauto.
  - simpl. split.
    + unfold active_count in *. simpl in *. rewrite filter_app_one; [lia|].
      simpl. by rewrite N.eqb_refl.
    + rewrite length_app, length_insert. simpl. lia.
Qed.

End Quota.

Lemma quota_enforcement_witness :
  let create st :=
    @ApiKeys.create_api_key sample_env (ApiKeys.mkAPIKeyCreate "ci" ["read"] "2H")
      alice "ab" 6%N sample_now st in
  fst (create full_store) = HTTPException MaxActiveKeys /\
  snd (create full_store) = full_store /\
  exists st1 st2,
    @ApiKeys.revoke_api_key sample_env "abc" alice full_store
      = (Return ("abc", "service"), st1) /\
    ApiKeys.active_count st1 1 = 4%nat /\
    create st1
      = (Return (ApiKeys.mkAPIKeyResponse "sk_live_ab"
                   (Some (sample_now + 2 * Datetime.us_per_hour))), st2) /\
    ApiKeys.active_count st2 1 = 5%nat.
Proof.
  intros create.
  destruct (@quota_enforcement sample_env
              (ApiKeys.mkAPIKeyCreate "ci" ["read"] "2H")
              (ApiKeys.mkAPIKeyCreate "ci" ["read"] "2H")
              alice "ab" "ab" 6%N 6%N sample_now sample_now full_store
              "abc" 3%N 2%nat (sample_key 3 "h3")
              (sample_now + 2 * Datetime.us_per_hour)
              eq_refl eq_refl eq_refl eq_refl eq_refl eq_refl)
    as (Hrefused & _ & st1 & Hrevoke & Hfour & st2 & Hcreate & Hfive & _).
  - simpl. intros k Hk.
    repeat (destruct Hk as [<-|Hk]; [split; discriminate|]). destruct Hk.
  - subst create. cbv beta. rewrite Hrefused. split; [done|]. split; [done|].
    exists st1, st2. auto.
Defined.

(** ** Expiry shorthand *)
Section Expiry.
Import Datetime Utils.

Lemma unit_cases (u : ascii) :
  match unit_duration u with
  | Some d =>
      (upper u = "H"%char /\ d = us_per_hour) \/
      (upper u = "D"%char /\ d = us_per_day) \/
      (upper u = "M"%char /\ d = 30 * us_per_day) \/
      (upper u = "Y"%char /\ d = 365 * us_per_day)
  | None =>
      Ascii.eqb (upper u) "H" = false /\ Ascii.eqb (upper u) "D" = false /\
      Ascii.eqb (upper u) "M" = false /\ Ascii.eqb (upper u) "Y" = false
  end.
Proof.
  destruct u as [[] [] [] [] [] [] [] []]; vm_compute; auto 10.
Qed.

Lemma digit_facts (c : ascii) :
  is_digit c = true ->
  digit_of c = Some (code c - 48) /\ is_underscore c = false /\
  is_space c = false /\ (code c =? 43) = false /\ (code c =? 45) = false.
Proof.
  unfold is_digit, digit_of, is_underscore, is_space. intros Hd. rewrite Hd.
  apply andb_true_iff in Hd as [H1 H2]. apply Z.leb_le in H1, H2.
  repeat split.
  - apply Z.eqb_neq. lia.
  - repeat (apply orb_false_iff; split); try (apply Z.eqb_neq; lia).
    apply andb_false_iff. right. apply Z.leb_gt. lia.
  - apply Z.eqb_neq. lia.
  - apply Z.eqb_neq. lia.
Qed.

Lemma scan_digits_plain (ds : list ascii) (acc : Z) (k : nat) :
  Forall (fun c => is_digit c = true) ds ->
  scan_digits ds false acc k
  = Some (fold_left (fun a c => 10 * a + (code c - 48)) ds acc, (k + length ds)%nat, []).
Proof.
  intros Hds. revert acc k. induction Hds as [|c ds Hc _ IH]; intros acc k; simpl.
  - by rewrite Nat.add_0_r.
  - destruct (digit_facts c Hc) as (-> & -> & _). rewrite IH.
    by rewrite Nat.add_succ_r.
Qed.

(** [int()] reads a plain string of at most 4300 digits as its decimal
    value. *)
Lemma py_int_digits (ds : list ascii) :
  ds <> [] -> Forall (fun c => is_digit c = true) ds ->
  (length ds <= int_max_str_digits)%nat ->
  py_int ds = Some (decimal_value ds).
Proof.
  intros Hne Hds Hlen. destruct ds as [|c ds]; [done|].
  pose proof (Forall_inv Hds) as Hc.
  destruct (digit_facts c Hc) as (_ & Hu & Hsp & Hplus & Hminus).
  unfold py_int. cbn [skip_spaces]. rewrite Hsp, Hplus, Hminus, Hu.
  rewrite (scan_digits_plain _ _ _ Hds). cbn [Nat.add length skip_spaces].
  destruct (int_max_str_digits <? S (length ds))%nat eqn:Hlim.
  - apply Nat.ltb_lt in Hlim. simpl in Hlen. lia.
  - unfold decimal_value. f_equal. lia.
Qed.

(** The two steps [timedelta(...)] and [now + td] for a duration that
    keeps the result within [datetime.max]. *)
Lemma add_timedelta_in_range now dd hh :
  0 <= now -> 0 <= dd * us_per_day + hh * us_per_hour ->
  now + (dd * us_per_day + hh * us_per_hour) <= datetime_max ->
  (td ← mk_timedelta dd hh; add now td)
  = Return (now + (dd * us_per_day + hh * us_per_hour)).
Proof.
  intros Hnow Hpos Hmax. unfold mk_timedelta.
  set (us := dd * us_per_day + hh * us_per_hour) in *.
  assert (0 <= us / us_per_day <= timedelta_max_days) as Hdays.
  { unfold datetime_max, max_ordinal, timedelta_max_days, us_per_day, us_per_second in *.
    split.
    - apply Z.div_pos; lia.
    - apply Z.lt_succ_r. apply Z.div_lt_upper_bound; lia. }
  rewrite Z.abs_eq by lia.
  destruct (Z.leb_spec (us / us_per_day) timedelta_max_days); [|lia].
  simpl. unfold add.
  destruct (Z.leb_spec 0 (now + us)); [|lia].
  destruct (Z.leb_spec (now + us) datetime_max); [|lia]. reflexivity.
Qed.

Lemma add_timedelta_Return now dd hh t :
  (td ← mk_timedelta dd hh; add now td) = Return t ->
  t = now + (dd * us_per_day + hh * us_per_hour).
Proof.
  unfold mk_timedelta. destruct (_ <=? timedelta_max_days); [|discriminate].
  simpl. unfold add. destruct (_ && _); [|discriminate]. by intros [= <-].
Qed.

End Expiry.

Section ExpiryParsing.
Import Datetime Utils.

Lemma parse_expiry_accept now s n d :
  let l := list_ascii_of_string s in
  (2 <= length l)%nat ->
  py_int (removelast l) = Some n -> 0 < n ->
  unit_duration (List.last l "000"%char) = Some d ->
  0 <= now -> now + n * d <= datetime_max ->
  parse_expiry now s = Return (now + n * d).
Proof.
  intros l Hlen Hint Hn Hu Hnow Hmax. unfold parse_expiry. fold l.
  destruct (Nat.ltb_spec (length l) 2); [lia|].
  rewrite Hint. destruct (Z.leb_spec n 0); [lia|].
  pose proof (unit_cases (List.last l "000"%char)) as Hc. rewrite Hu in Hc.
  assert (0 < us_per_day /\ 0 < us_per_hour) as [Hday Hhour] by (split; reflexivity).
  destruct Hc as [[-> ->]|[[-> ->]|[[-> ->]|[-> ->]]]]; cbn [Ascii.eqb Bool.eqb].
  - replace (now + n * us_per_hour)
      with (now + (0 * us_per_day + n * us_per_hour)) in * by lia.
    apply add_timedelta_in_range; nia.
  - replace (now + n * us_per_day)
      with (now + (n * us_per_day + 0 * us_per_hour)) in * by lia.
    apply add_timedelta_in_range; nia.
  - replace (now + n * (30 * us_per_day))
      with (now + (n * 30 * us_per_day + 0 * us_per_hour)) in * by lia.
    apply add_timedelta_in_range; nia.
  - replace (now + n * (365 * us_per_day))
      with (now + (n * 365 * us_per_day + 0 * us_per_hour)) in * by lia.
    apply add_timedelta_in_range; nia.
Qed.

Lemma parse_expiry_Return now s t :
  let l := list_ascii_of_string s in
  parse_expiry now s = Return t ->
  exists n d,
    (2 <= length l)%nat /\ py_int (removelast l) = Some n /\ 0 < n /\
    unit_duration (List.last l "000"%char) = Some d /\ t = now + n * d.
Proof.
  intros l. unfold parse_expiry. fold l.
  destruct (Nat.ltb_spec (length l) 2); [discriminate|].
  destruct (py_int (removelast l)) as [n|]; [|discriminate].
  destruct (Z.leb_spec n 0); [discriminate|].
  pose proof (unit_cases (List.last l "000"%char)) as Hc.
  destruct (unit_duration (List.last l "000"%char)) as [d|].
  - intros Hret. exists n, d. repeat split; try done.
    destruct Hc as [[Hup ->]|[[Hup ->]|[[Hup ->]|[Hup ->]]]];
      rewrite Hup in Hret; cbn [Ascii.eqb Bool.eqb] in Hret;
      apply add_timedelta_Return in Hret; lia.
  - destruct Hc as (-> & -> & -> & ->). discriminate.
Qed.

Lemma parse_expiry_reject now s :
  let l := list_ascii_of_string s in
  (length l < 2)%nat \/ py_int (removelast l) = None \/
  (exists n, py_int (removelast l) = Some n /\ n <= 0) \/
  unit_duration (List.last l "000"%char) = None ->
  exists e, parse_expiry now s = HTTPException e /\ status_code e = 400.
Proof.
  intros l Hcases. unfold parse_expiry. fold l.
  destruct (Nat.ltb_spec (length l) 2); [by eexists|].
  destruct (py_int (removelast l)) as [n|] eqn:Hint; [|by eexists].
  destruct (Z.leb_spec n 0); [by eexists|].
  destruct Hcases as [Hlen|[Hnone|[(m & [= <-] & Hm)|Hunit]]]; try lia; try discriminate.
  pose proof (unit_cases (List.last l "000"%char)) as Hc. rewrite Hunit in Hc.
  destruct Hc as (-> & -> & -> & ->). by eexists.
Qed.

(** C9, as the code has it.  Let the string be cut into its last
    character (the unit) and what precedes it (the magnitude).
    - A magnitude written as one or more decimal digits (at most 4300) is
      read as that number.
    - When [int()] reads the magnitude as [n > 0] and the unit is H, D, M
      or Y in either case, parsing at time [now] yields [now] plus [n]
      hours, days, 30-day months or 365-day years, provided that instant
      does not exceed [datetime.max].
    - A string of fewer than two characters, a magnitude that [int()]
      rejects or reads as [n <= 0], or any other unit, is answered with
      status 400.
    - Whatever is returned is [now + n * unit] for such an [n] and unit.
    - Key creation leaves the store unchanged whenever the expiry is not
      accepted. *)
Theorem parse_expiry_shorthand (now : datetime) (expiry_str : string) :
  let l := list_ascii_of_string expiry_str in
  let num_str := removelast l in
  let unit := List.last l "000"%char in
  (forall ds u,
      l = (ds ++ [u])%list -> ds <> [] ->
      Forall (fun c => is_digit c = true) ds ->
      (length ds <= int_max_str_digits)%nat ->
      py_int num_str = Some (decimal_value ds) /\ unit = u) /\
  (forall n d,
      (2 <= length l)%nat -> py_int num_str = Some n -> 0 < n ->
      unit_duration unit = Some d ->
      0 <= now -> now + n * d <= datetime_max ->
      parse_expiry now expiry_str = Return (now + n * d)) /\
  ((length l < 2)%nat \/ py_int num_str = None \/
   (exists n, py_int num_str = Some n /\ n <= 0) \/
   unit_duration unit = None ->
   exists e, parse_expiry now expiry_str = HTTPException e /\ status_code e = 400) /\
  (forall t,
      parse_expiry now expiry_str = Return t ->
      exists n d,
        (2 <= length l)%nat /\ py_int num_str = Some n /\ 0 < n /\
        unit_duration unit = Some d /\ t = now + n * d) /\
  (forall (E : Env) key_data user random_part new_id st,
      ApiKeys.kc_expiry key_data = expiry_str ->
      (forall t, parse_expiry now expiry_str <> Return t) ->
      snd (ApiKeys.create_api_key key_data user random_part new_id now st) = st).
Proof.
  intros l num_str unit. split; [|split; [|split; [|split]]].
  - intros ds u Hl Hne Hds Hlen. subst num_str unit. rewrite Hl.
    rewrite removelast_last, last_last. split; [|done].
    by apply py_int_digits.
  - intros n d. apply parse_expiry_accept.
  - apply parse_expiry_reject.
  - intros t. apply parse_expiry_Return.
  - intros E key_data user random_part new_id st Hexp Hno.
    unfold ApiKeys.create_api_key. rewrite Hexp.
    destruct (negb _); [done|]. destruct (5 <=? _)%nat; [done|].
    destruct (parse_expiry now expiry_str) as [t| |] eqn:Hp; try done.
    by destruct (Hno t).
Qed.

End ExpiryParsing.

(** The shorthand at 2026-01-01T00:00:00: "9999Y" is a positive integer and
    a unit, yet the instant lies beyond [datetime.max] and the parse raises
    OverflowError; a sign, a blank or an underscore in the magnitude are
    accepted. *)
Lemma parse_expiry_beyond_the_form :
  Utils.parse_expiry sample_now "9999Y" = Raise OverflowError /\
  Utils.parse_expiry sample_now "+2H" = Return (sample_now + 2 * Datetime.us_per_hour) /\
  Utils.parse_expiry sample_now " 2H" = Return (sample_now + 2 * Datetime.us_per_hour) /\
  Utils.parse_expiry sample_now "1_0D" = Return (sample_now + 10 * Datetime.us_per_day).
Proof. repeat split; vm_compute; reflexivity. Qed.

Example parse_expiry_rejects :
  Utils.parse_expiry sample_now "0D" = HTTPException InvalidExpiryFormat /\
  Utils.parse_expiry sample_now "-1H" = HTTPException InvalidExpiryFormat /\
  Utils.parse_expiry sample_now "1.5H" = HTTPException InvalidExpiryFormat /\
  Utils.parse_expiry sample_now "H" = HTTPException InvalidExpiryFormat /\
  Utils.parse_expiry sample_now "" = HTTPException InvalidExpiryFormat /\
  Utils.parse_expiry sample_now "5X" = HTTPException (InvalidExpiryUnit "X").
Proof. repeat split; vm_compute; reflexivity. Qed.

Lemma parse_expiry_shorthand_witness :
  Utils.parse_expiry sample_now "2H" = Return (sample_now + 2 * Datetime.us_per_hour) /\
  Utils.parse_expiry sample_now "3m" = Return (sample_now + 3 * (30 * Datetime.us_per_day)).
Proof.
  split.
  - apply (proj1 (proj2 (parse_expiry_shorthand sample_now "2H")) 2 Datetime.us_per_hour);
      first [reflexivity | vm_compute; congruence | vm_compute; lia].
  - apply (proj1 (proj2 (parse_expiry_shorthand sample_now "3m")) 3 (30 * Datetime.us_per_day));
      first [reflexivity | vm_compute; congruence | vm_compute; lia].
Defined.

(** ** Identity resolution *)
Section Identity.
Import GoogleAuth.
Context `{Env}.

Lemma digit_char_is_digit d : 0 <= d < 10 -> is_digit (Wallet.digit_char d) = true.
Proof.
  intros Hd. unfold is_digit, Wallet.digit_char, Utils.code.
  rewrite N_ascii_embedding by lia.
  apply andb_true_iff. split; apply Z.leb_le; lia.
Qed.

Lemma zero_padded_digits width : forall n acc,
  all_digits acc = true -> all_digits (Wallet.zero_padded width n acc) = true.
Proof.
  induction width as [|w IH]; intros n acc Hacc; simpl; [done|].
  apply IH. unfold all_digits. simpl. rewrite digit_char_is_digit.
  - exact Hacc.
  - apply Z.mod_pos_bound. lia.
Qed.

Lemma zero_padded_length width : forall n acc,
  String.length (Wallet.zero_padded width n acc) = (width + String.length acc)%nat.
Proof.
  induction width as [|w IH]; intros n acc; simpl; [done|].
  rewrite IH. simpl. lia.
Qed.

(** A wallet number is 13 decimal digits, the first one 4. *)
Lemma generate_wallet_number_shape r :
  String.length (Wallet.generate_wallet_number r) = 13%nat /\
  all_digits (Wallet.generate_wallet_number r) = true.
Proof.
  unfold Wallet.generate_wallet_number. split.
  - change (S (String.length (Wallet.zero_padded 12 r "")) = 13%nat).
    by rewrite zero_padded_length.
  - change (is_digit "4" && all_digits (Wallet.zero_padded 12 r "") = true).
    by rewrite zero_padded_digits.
Qed.

Lemma insert_user_fresh st u :
  first (matches (User.google_id u) (User.email u)) (users st) = None ->
  (forall x, In x (users st) -> User.id x <> User.id u) ->
  insert_user st u = Return (with_users st (users st ++ [u])).
Proof.
  intros Hnone Hid. unfold insert_user.
  assert (existsb _ (users st) = false) as ->; [|done].
  apply existsb_false_Forall. intros x Hx.
  pose proof (proj1 (first_None _ _) Hnone x Hx) as Hm. unfold matches in Hm.
  apply orb_false_iff in Hm as [Hg He].
  apply orb_false_iff. split; [apply orb_false_iff; split|].
  - apply N.eqb_neq. by apply Hid.
  - exact He.
  - destruct (User.google_id u); [exact Hg|done].
Qed.

Lemma insert_wallet_fresh st w :
  (forall x, In x (wallets st) ->
     Wallet.id x <> Wallet.id w /\ Wallet.user_id x <> Wallet.user_id w /\
     Wallet.wallet_number x <> Wallet.wallet_number w) ->
  insert_wallet st w = Return (with_wallets st (wallets st ++ [w])).
Proof.
  intros Hfresh. unfold insert_wallet.
  assert (existsb _ (wallets st) = false) as ->; [|done].
  apply existsb_false_Forall. intros x Hx. destruct (Hfresh x Hx) as (H1 & H2 & H3).
  repeat (apply orb_false_iff; split);
    [by apply N.eqb_neq|by apply N.eqb_neq|by apply String.eqb_neq].
Qed.

(** C6, as the code has it.  When the callback reaches the identity
    resolution and no user matches the Google id or the email, and the
    drawn ids are unused and the one drawn wallet number is not taken, the
    store after the callback is the old one with the new user and one
    wallet for that user added: balance 0, a number of 13 digits, and no
    other wallet of that user.  The answer is the user's profile with a
    fresh token whenever the token can be minted. *)
Theorem new_user_gets_wallet (code state error : option string)
    (user_info : GoogleUserInfo) (new_user_id new_wallet_id : N) (r : Z)
    (now : Datetime.datetime) (oauth_states : gmap string bool) (st : Store)
    (state_key email : string) :
  truthy error = false -> falsy code = false ->
  state = Some state_key -> state_key <> "" ->
  is_Some (oauth_states !! state_key) ->
  gi_email user_info = Some email -> email <> "" ->
  first (matches (gi_id user_info) email) (users st) = None ->
  (forall u, In u (users st) -> User.id u <> new_user_id) ->
  (forall w, In w (wallets st) ->
     Wallet.id w <> new_wallet_id /\ Wallet.user_id w <> new_user_id /\
     Wallet.wallet_number w <> Wallet.generate_wallet_number r) ->
  let user :=
    User.mk new_user_id email (gi_name user_info) (gi_picture user_info)
            (gi_id user_info) true in
  let wallet := Wallet.mk new_wallet_id new_user_id (Wallet.generate_wallet_number r) 0 in
  let result :=
    google_callback code state error (UserInfo user_info) new_user_id new_wallet_id r
                    now oauth_states st in
  snd result = mkStore (users st ++ [user]) (wallets st ++ [wallet])
                       (api_keys st) (transactions st) /\
  snd (fst result) = delete state_key oauth_states /\
  List.filter (fun w => (Wallet.user_id w =? new_user_id)%N) (wallets (snd result))
    = [wallet] /\
  Wallet.balance wallet = 0 /\
  String.length (Wallet.wallet_number wallet) = 13%nat /\
  all_digits (Wallet.wallet_number wallet) = true /\
  (forall access_token,
      Utils.create_access_token new_user_id now = Return access_token ->
      fst (fst result)
      = Return (mkGoogleUserResponse new_user_id email (gi_name user_info)
                                     access_token "bearer")).
Proof.
  intros Herr Hcode -> Hkey [b Hstate] Hemail Hne Hnone Hids Hwal user wallet result.
  assert (result =
          (match Utils.create_access_token new_user_id now with
           | Return access_token =>
               Return (mkGoogleUserResponse new_user_id email (gi_name user_info)
                                            access_token "bearer")
           | _ => HTTPException DatabaseError
           end,
           delete state_key oauth_states,
           mkStore (users st ++ [user]) (wallets st ++ [wallet])
                   (api_keys st) (transactions st))) as ->.
  { subst result user wallet. unfold google_callback. rewrite Herr, Hcode.
    assert (falsy (Some state_key) = false) as -> by (by apply String.eqb_neq).
    cbn [default id]. rewrite Hstate, Hemail.
    assert (falsy (Some email) = false) as -> by (by apply String.eqb_neq).
    cbn [default id]. unfold create_or_update_user. rewrite Hnone.
    rewrite insert_user_fresh by done.
    rewrite insert_wallet_fresh by done.
    cbn [User.id User.email User.name].
    by destruct (Utils.create_access_token new_user_id now). }
  cbn [fst snd wallets]. split; [done|]. split; [done|]. split.
  { rewrite List.filter_app. simpl. rewrite N.eqb_refl.
    assert (List.filter (fun w => (Wallet.user_id w =? new_user_id)%N) (wallets st) = [])
      as ->; [|done].
    induction (wallets st) as [|w l IH]; [done|]. simpl.
    destruct (Hwal w (or_introl eq_refl)) as (_ & Hu & _).
    apply N.eqb_neq in Hu. rewrite Hu. apply IH. intros x Hx. apply Hwal. by right. }
  split; [done|].
  destruct (generate_wallet_number_shape r) as [Hlen Hdig].
  split; [exact Hlen|]. split; [exact Hdig|].
  intros access_token ->. reflexivity.
Qed.

End Identity.

(** When the drawn wallet number is already taken the callback answers 500,
    the new user stays in the store without a wallet, and the next login of
    that user succeeds without creating one. *)
Lemma new_user_left_without_wallet :
  let '(answer1, states1, st1) := first_login 2 in
  let '(answer2, _, st2) :=
    @GoogleAuth.google_callback sample_env (Some "code") (Some "s2") None
      (GoogleAuth.UserInfo carol_info) 4%N 40%N 7 sample_now states1 st1 in
  Wallet.generate_wallet_number 2 = "4000000000002" /\
  answer1 = HTTPException DatabaseError /\
  map User.email (users st1) = ["alice@x.com"; "bob@x.com"; "carol@x.com"] /\
  List.filter (fun w => (Wallet.user_id w =? 3)%N) (wallets st1) = [] /\
  answer2 = Return (GoogleAuth.mkGoogleUserResponse 3 "carol@x.com" (Some "Carol")
                      "token" "bearer") /\
  List.filter (fun w => (Wallet.user_id w =? 3)%N) (wallets st2) = [].
Proof. vm_compute. repeat split. Qed.

Lemma new_user_gets_wallet_witness :
  snd (first_login 3)
  = mkStore [alice; bob; User.mk 3 "carol@x.com" (Some "Carol") None (Some "g-carol") true]
            [Wallet.mk 10 1 "4000000000001" 1000; Wallet.mk 20 2 "4000000000002" 0;
             Wallet.mk 30 3 "4000000000003" 0]
            [] [].
Proof.
  refine (proj1 (@new_user_gets_wallet sample_env (Some "code") (Some "s1") None
                   carol_info 3%N 30%N 3 sample_now
                   (<["s1" := true]> (<["s2" := true]> ∅)) login_store
                   "s1" "carol@x.com" eq_refl eq_refl eq_refl _ _ eq_refl _ eq_refl _ _)).
  - discriminate.
  - exists true. reflexivity.
  - discriminate.
  - simpl. intros u [<-|[<-|[]]]; discriminate.
  - simpl. intros w [<-|[<-|[]]]; repeat split; discriminate.
Defined.

(** * Further properties of the handlers *)

(** ** The webhook in front of the ledger *)
Section WebhookGate.
Import WalletRouter.
Context `{Env}.

Lemma paid_at_value_cases v :
  (paid_at_value v = Raise AttributeError /\
   truthy v = true /\ forall s, v <> JString s) \/
  (exists p, paid_at_value v = Return p /\
   (truthy v = false \/ exists s, v = JString s)).
Proof.
  unfold paid_at_value. destruct (truthy v) eqn:Ht.
  - destruct v as [| | | |s| |]; try (left; by repeat split).
    right. exists (Some s). split; [done|]. right. by exists s.
  - right. exists None. split; [done|]. by left.
Qed.

Lemma py_eq_str_neq v name :
  v <> JString name -> py_eq_str v name = false.
Proof.
  destruct v as [| | | |s| |]; try done. intros Hn. simpl.
  apply String.eqb_neq. congruence.
Qed.

(** A request that does not pass the checks in front of the ledger leaves
    the store as it was and is never answered acceptance.  It is answered
    400 when the signature header is missing or empty, when the signature
    does not verify, when the body is not JSON and when the reference is
    missing or false.  An exception leaves the handler, and the service
    answers 500, when the signature holds a character outside ASCII while a
    secret is set (TypeError), when the body or its [data] is JSON but not
    an object (AttributeError), and when the database refuses a reference
    that is not a string. *)
Theorem webhook_refused_before_ledger (request : WebhookRequest)
    (now : Datetime.datetime) (st : Store) :
  accepted request = None ->
  let answer := fst (paystack_webhook request now st) in
  snd (paystack_webhook request now st) = st /\
  ((exists e, answer = HTTPException e /\ status_code e = 400 /\
              In e [MissingSignature; InvalidSignature; InvalidJSON; MissingReference]) \/
   (exists x, answer = Raise x /\ In x [TypeError; AttributeError; DBAPIError])) /\
  (falsy (x_paystack_signature request) = true ->
   answer = HTTPException MissingSignature) /\
  (forall signature,
     x_paystack_signature request = Some signature -> signature <> "" ->
     (falsy PAYSTACK_WEBHOOK_SECRET = false -> is_ascii signature = false ->
      answer = Raise TypeError) /\
     (verify_paystack_signature (body request) signature = Return false ->
      answer = HTTPException InvalidSignature) /\
     (verify_paystack_signature (body request) signature = Return true ->
      (json_loads (body request) = None -> answer = HTTPException InvalidJSON) /\
      (forall payload,
         json_loads (body request) = Some payload ->
         (forall items, payload <> JObject items) ->
         answer = Raise AttributeError) /\
      (forall items,
         json_loads (body request) = Some (JObject items) ->
         ((forall data, dict_get items "data" (JObject []) <> JObject data) ->
          answer = Raise AttributeError) /\
         (forall data,
            dict_get items "data" (JObject []) = JObject data ->
            (truthy (dict_get data "reference" JNull) = false ->
             answer = HTTPException MissingReference) /\
            (truthy (dict_get data "reference" JNull) = true ->
             bind_reference (dict_get data "reference" JNull) = None ->
             answer = Raise DBAPIError))))).
Proof.
  intros Hn answer. subst answer.
  destruct (webhook_not_accepted request now st Hn) as [Hst Hans].
  split; [exact Hst|]. split.
  { destruct Hans as [(e & He & Hin)|Hx]; [left|by right].
    exists e. split; [done|]. split; [|done].
    simpl in Hin. destruct Hin as [<-|[<-|[<-|[<-|[]]]]]; reflexivity. }
  clear Hn Hst Hans. unfold paystack_webhook. split.
  { destruct (x_paystack_signature request) as [signature|]; simpl; [|done].
    by intros ->. }
  intros signature -> Hne%String.eqb_neq. cbn [default from_option id].
  rewrite Hne. split; [|split].
  - unfold verify_paystack_signature, compare_digest.
    destruct PAYSTACK_WEBHOOK_SECRET as [secret|]; [|done]. simpl.
    intros -> ->. by rewrite andb_false_r.
  - by intros ->.
  - intros ->. split; [by intros ->|]. split.
    + intros payload -> Hobj.
      destruct payload as [| | | | | |items]; try done. by destruct (Hobj items).
    + intros items ->. cbn [py_get mbind outcome_bind]. split.
      * intros Hobj.
        destruct (dict_get items "data" (JObject [])) as [| | | | | |data];
          try done. by destruct (Hobj data).
      * intros data ->. cbn [py_get mbind outcome_bind]. split.
        -- by intros ->.
        -- by intros -> ->.
Qed.

(** With the webhook secret unset or empty no signature verifies: every
    request to the webhook is answered 400 and changes nothing. *)
Theorem webhook_fails_closed (request : WebhookRequest)
    (now : Datetime.datetime) (st : Store) :
  falsy PAYSTACK_WEBHOOK_SECRET = true ->
  (forall payload signature,
     verify_paystack_signature payload signature = Return false) /\
  exists e, paystack_webhook request now st = (HTTPException e, st) /\ status_code e = 400.
Proof.
  intros Hsecret.
  assert (forall payload signature,
             verify_paystack_signature payload signature = Return false)
    as Hverify.
  { intros payload signature. unfold verify_paystack_signature.
    destruct PAYSTACK_WEBHOOK_SECRET as [secret|]; [|done].
    simpl in Hsecret. by rewrite Hsecret. }
  split; [exact Hverify|].
  unfold paystack_webhook. destruct (String.eqb _ ""); [by eexists|].
  rewrite Hverify. by eexists.
Qed.

(** A request that passes the checks in front of the ledger is answered
    acceptance, with one exception: when the event is "charge.success", the
    transaction is not yet successful, its wallet exists and [paid_at] is a
    true value other than a string, AttributeError leaves the handler and
    nothing is committed.  A reference that matches no transaction, and an
    event other than "charge.success" and "charge.failed", are answered
    acceptance and change nothing. *)
Theorem webhook_accepts_or_raises (request : WebhookRequest) (d : Delivery)
    (now : Datetime.datetime) (st : Store) :
  accepted request = Some d ->
  (fst (paystack_webhook request now st) = Return true \/
   paystack_webhook request now st = (Raise AttributeError, st)) /\
  (paystack_webhook request now st = (Raise AttributeError, st) <->
   (truthy (dl_paid_at d) = true /\ forall s, dl_paid_at d <> JString s) /\
   dl_event d = JString "charge.success" /\
   exists i transaction j wallet,
     transaction_by_reference st (dl_reference d) = Some (i, transaction) /\
     Transaction.status transaction <> "success" /\
     wallet_by_id st (Transaction.wallet_id transaction) = Some (j, wallet)) /\
  (transaction_by_reference st (dl_reference d) = None ->
   paystack_webhook request now st = (Return true, st)) /\
  (dl_event d <> JString "charge.success" -> dl_event d <> JString "charge.failed" ->
   paystack_webhook request now st = (Return true, st)).
Proof.
  intros Hd. rewrite (webhook_accepted _ _ now st Hd).
  assert (forall name, py_eq_str (dl_event d) name = true <->
                       dl_event d = JString name) as Heq.
  { intros name. destruct (dl_event d) as [| | | |s| |]; simpl; split;
      try discriminate.
    - by intros ->%String.eqb_eq.
    - intros [= ->]. apply String.eqb_refl. }
  split; [|split; [|split]].
  - destruct (transaction_by_reference _ _) as [[i x]|]; [|by left].
    destruct (String.eqb _ "success"); [by left|].
    destruct (py_eq_str _ "charge.success").
    + destruct (wallet_by_id _ _) as [[j w]|]; [|by left].
      destruct (paid_at_value_cases (dl_paid_at d)) as [(-> & _)|(p & -> & _)];
        [by right|by left].
    + destruct (py_eq_str _ "charge.failed"); by left.
  - split.
    + destruct (transaction_by_reference _ _) as [[i x]|]; [|discriminate].
      destruct (String.eqb _ "success") eqn:Hs; [discriminate|].
      apply String.eqb_neq in Hs.
      destruct (py_eq_str _ "charge.success") eqn:He.
      * apply Heq in He.
        destruct (wallet_by_id _ _) as [[j w]|] eqn:Hw; [|discriminate].
        destruct (paid_at_value_cases (dl_paid_at d))
          as [(-> & Ht & Hstr)|(p & -> & _)]; [|discriminate].
        intros _. split; [done|]. split; [done|]. by exists i, x, j, w.
      * destruct (py_eq_str _ "charge.failed"); discriminate.
    + intros ((Ht & Hstr) & He & i & x & j & w & -> & Hs & ->).
      apply String.eqb_neq in Hs. rewrite Hs. apply Heq in He. rewrite He.
      destruct (paid_at_value_cases (dl_paid_at d))
        as [(-> & _)|(p & _ & [Hf|[s Hv]])]; [done|congruence|].
      by destruct (Hstr s).
  - by intros ->.
  - intros Hs Hf. rewrite (py_eq_str_neq _ _ Hs), (py_eq_str_neq _ _ Hf).
    destruct (transaction_by_reference _ _) as [[i x]|]; [|done].
    by destruct (String.eqb _ "success").
Qed.

End WebhookGate.

Lemma webhook_refused_before_ledger_witness :
  @WalletRouter.paystack_webhook sample_env
    (WalletRouter.mkWebhook "L:" (Some "whsec/L:")) sample_now sample_store
  = (Raise AttributeError, sample_store).
Proof.
  destruct (@webhook_refused_before_ledger sample_env
              (WalletRouter.mkWebhook "L:" (Some "whsec/L:")) sample_now sample_store
              eq_refl) as (Hst & _ & _ & Hsig).
  destruct (Hsig "whsec/L:" eq_refl ltac:(discriminate)) as (_ & _ & Hjson).
  destruct (Hjson eq_refl) as (_ & Hlist & _).
  rewrite (surjective_pairing (WalletRouter.paystack_webhook _ _ _)), Hst.
  rewrite (Hlist (JArray []) eq_refl ltac:(discriminate)). reflexivity.
Defined.

(** A signature with a character outside ASCII (here U+00E9): TypeError
    with the secret set, the 400 of a wrong signature without it. *)
Example non_ascii_signature :
  @WalletRouter.paystack_webhook sample_env
    (WalletRouter.mkWebhook "S:txn_aa" (Some (String (ascii_of_nat 233) "")))
    sample_now sample_store
  = (Raise TypeError, sample_store) /\
  @WalletRouter.paystack_webhook unconfigured_env
    (WalletRouter.mkWebhook "S:txn_aa" (Some (String (ascii_of_nat 233) "")))
    sample_now sample_store
  = (HTTPException InvalidSignature, sample_store).
Proof. split; reflexivity. Qed.

(** A signed body whose [data] is null. *)
Example null_data :
  @WalletRouter.paystack_webhook sample_env
    (WalletRouter.mkWebhook "D:" (Some "whsec/D:")) sample_now sample_store
  = (Raise AttributeError, sample_store).
Proof. reflexivity. Qed.

Lemma webhook_fails_closed_witness :
  exists e,
    @WalletRouter.paystack_webhook unconfigured_env (charge_success "txn_aa")
      sample_now sample_store
    = (HTTPException e, sample_store) /\ status_code e = 400.
Proof.
  apply (@webhook_fails_closed unconfigured_env). reflexivity.
Defined.

Lemma webhook_accepts_or_raises_witness :
  @WalletRouter.paystack_webhook sample_env
    (WalletRouter.mkWebhook "N:txn_aa" (Some "whsec/N:txn_aa")) sample_now sample_store
  = (Raise AttributeError, sample_store) /\
  @WalletRouter.paystack_webhook sample_env (charge_success "txn_zz")
    sample_now sample_store
  = (Return true, sample_store).
Proof.
  split.
  - destruct (@webhook_accepts_or_raises sample_env
                (WalletRouter.mkWebhook "N:txn_aa" (Some "whsec/N:txn_aa"))
                (mkDelivery (JString "charge.success") "txn_aa" (JNumber 1700000000))
                sample_now sample_store eq_refl) as (_ & [_ Hraise] & _).
    apply Hraise.
    split; [split; [reflexivity|discriminate]|]. split; [reflexivity|].
    exists 0%nat,
      (Transaction.mk 100 "txn_aa" 1 (Some 10%N) 500 "deposit" "pending" None None),
      0%nat, (Wallet.mk 10 1 "4000000000001" 1000).
    split; [reflexivity|]. split; [discriminate|reflexivity].
  - destruct (@webhook_accepts_or_raises sample_env (charge_success "txn_zz")
                (mkDelivery (JString "charge.success") "txn_zz" JNull)
                sample_now sample_store eq_refl) as (_ & _ & Hunknown & _).
    apply Hunknown. reflexivity.
Defined.

(** ** What each handler can do to the store *)
Section Shapes.
Import Schemas WalletRouter ApiKeys KeyRollover GoogleAuth.
Context `{Env}.

Lemma initiate_deposit_shape deposit u tok new_id reply st :
  snd (initiate_deposit deposit u tok new_id reply st) = st \/
  exists i wallet,
    wallet_of_user st (User.id u) = Some (i, wallet) /\
    insert_transaction st
      (Transaction.mk new_id (generate_reference tok) (User.id u)
                      (Some (Wallet.id wallet)) (dep_amount deposit)
                      "deposit" "pending" None None)
    = Return (snd (initiate_deposit deposit u tok new_id reply st)).
Proof.
  unfold initiate_deposit.
  destruct (wallet_of_user _ _) as [[i wallet]|]; [|by left].
  destruct (falsy _); [by left|].
  destruct reply as [|code ok url]; [by left|].
  destruct (negb _ || negb _); [by left|].
  destruct (insert_transaction _ _) as [st'| |] eqn:Hins; [|by left..].
  right. by exists i, wallet.
Qed.

Lemma transfer_funds_shape transfer u tok new_id now st :
  snd (transfer_funds transfer u tok new_id now st) = st \/
  exists i j sender recipient,
    i <> j /\ wallets st !! i = Some sender /\ wallets st !! j = Some recipient /\
    tr_amount transfer <= Wallet.balance sender /\
    insert_transaction
      (with_wallets st
         (<[j := Wallet.set_balance recipient
                   (Wallet.balance recipient + tr_amount transfer)]>
            (<[i := Wallet.set_balance sender
                      (Wallet.balance sender - tr_amount transfer)]> (wallets st))))
      (Transaction.mk new_id (generate_reference tok) (User.id u)
                      (Some (Wallet.id sender)) (tr_amount transfer)
                      "transfer" "success" (Some (Wallet.id recipient)) (Some now))
    = Return (snd (transfer_funds transfer u tok new_id now st)).
Proof.
  unfold transfer_funds, wallet_of_user, wallet_by_number.
  destruct (first _ (wallets st)) as [[i sender]|] eqn:Hs; [|by left].
  destruct (Wallet.balance sender <? tr_amount transfer) eqn:Hlt; [by left|].
  apply Z.ltb_ge in Hlt.
  destruct (first (fun w => String.eqb (Wallet.wallet_number w) _) (wallets st))
    as [[j recipient]|] eqn:Hr; [|by left].
  destruct (Wallet.id sender =? Wallet.id recipient)%N eqn:Hid; [by left|].
  apply N.eqb_neq in Hid.
  destruct (insert_transaction _ _) as [st'| |] eqn:Hins; [|by left..].
  apply first_Some in Hs as (Hsi & _). apply first_Some in Hr as (Hrj & _).
  right. exists i, j, sender, recipient. repeat split; try done.
  intros ->. congruence.
Qed.

Lemma create_api_key_shape key_data u random_part new_id now st :
  snd (create_api_key key_data u random_part new_id now st) = st \/
  exists k,
    (active_count st (User.id u) < 5)%nat /\
    APIKey.owner_id k = User.id u /\ APIKey.is_active k = true /\
    snd (create_api_key key_data u random_part new_id now st)
    = with_api_keys st (api_keys st ++ [k]).
Proof.
  unfold create_api_key. destruct (negb _); [by left|].
  destruct (Nat.leb_spec 5 (active_count st (User.id u))); [by left|].
  destruct (Utils.parse_expiry _ _) as [t| |]; [|by left..].
  unfold insert_api_key. destruct (existsb _ _); [by left|].
  right. eexists (APIKey.mk _ _ _ _ _ _ _ _). simpl.
  split; [done|]. split; [|split]; reflexivity.
Qed.

Lemma rollover_api_key_shape rollover_data u random_part new_id now st :
  snd (rollover_api_key rollover_data u random_part new_id now st) = st \/
  exists k,
    (active_count st (User.id u) < 5)%nat /\
    APIKey.owner_id k = User.id u /\ APIKey.is_active k = true /\
    snd (rollover_api_key rollover_data u random_part new_id now st)
    = with_api_keys st (api_keys st ++ [k]).
Proof.
  unfold rollover_api_key. destruct (UUID _); [|by left].
  destruct (first _ _) as [[i old_key]|]; [|by left].
  destruct (match APIKey.expires_at old_key with Some _ => _ | None => _ end); [by left|].
  destruct (Nat.leb_spec 5 (active_count st (User.id u))); [by left|].
  destruct (Utils.parse_expiry _ _) as [t| |]; [|by left..].
  unfold insert_api_key. destruct (existsb _ _); [by left|].
  right. eexists (APIKey.mk _ _ _ _ _ _ _ _). simpl.
  split; [done|]. split; [|split]; reflexivity.
Qed.

Lemma revoke_api_key_shape key_id u st :
  snd (revoke_api_key key_id u st) = st \/
  exists i k,
    api_keys st !! i = Some k /\ APIKey.owner_id k = User.id u /\
    APIKey.is_active k = true /\
    snd (revoke_api_key key_id u st)
    = with_api_keys st (<[i := APIKey.set_is_active k false]> (api_keys st)).
Proof.
  unfold revoke_api_key. destruct (UUID _); [|by left].
  destruct (first _ _) as [[i k]|] eqn:Hf; [|by left].
  destruct (APIKey.is_active k) eqn:Hk; [|by left].
  apply first_Some in Hf as (Hi & Hp & _). apply andb_true_iff in Hp as [_ Ho].
  apply N.eqb_eq in Ho. right. by exists i, k.
Qed.

(** What the payments router can do to the store: nothing, or a new
    status and payment time for one row. *)
Lemma payments_webhook_shape request now st :
  snd (Payments.paystack_webhook request now st) = st \/
  exists i x status paid,
    transactions st !! i = Some x /\
    snd (Payments.paystack_webhook request now st)
    = with_transactions st
        (<[i := Transaction.set_paid_at (Transaction.set_status x status) paid]>
           (transactions st)).
Proof.
  unfold Payments.paystack_webhook.
  destruct (String.eqb _ ""); [by left|].
  destruct (Payments.verify_paystack_signature _ _) as [[|]| |]; try by left.
  destruct (json_loads _) as [payload|]; [|by left].
  destruct (py_get payload "event" JNull) as [event| |];
    cbn [mbind outcome_bind]; try by left.
  destruct (py_get payload "data" _) as [data| |];
    cbn [mbind outcome_bind]; try by left.
  destruct (py_get data "reference" JNull) as [reference| |];
    cbn [mbind outcome_bind]; try by left.
  destruct (negb _); [by left|].
  destruct (bind_reference _) as [r|]; [|by left].
  destruct (transaction_by_reference _ _) as [[i x]|] eqn:Hx; [|by left].
  apply first_Some in Hx as (Hi & _).
  destruct (py_eq_str event "charge.success").
  - destruct (py_get data "paid_at" JNull) as [p| |];
      cbn [mbind outcome_bind]; try by left.
    destruct (paid_at_value p) as [q| |]; try by left.
    right. by eexists i, x, _, _.
  - destruct (py_eq_str event "charge.failed"); [|by left].
    right. by exists i, x, "failed", (Transaction.paid_at x).
Qed.

Lemma get_transaction_status_shape reference refresh reply st :
  snd (Payments.get_transaction_status reference refresh reply st) = st \/
  exists i x status paid,
    transactions st !! i = Some x /\
    snd (Payments.get_transaction_status reference refresh reply st)
    = with_transactions st
        (<[i := Transaction.set_paid_at (Transaction.set_status x status) paid]>
           (transactions st)).
Proof.
  unfold Payments.get_transaction_status.
  destruct (transaction_by_reference _ _) as [[i x]|] eqn:Hx; [|by left].
  apply first_Some in Hx as (Hi & _).
  destruct (negb refresh); [by left|].
  destruct (falsy _); [by left|].
  destruct reply as [|http_status json]; [by left|].
  destruct (negb _); [by left|].
  destruct json as [response_data|]; [|by left].
  destruct (py_get response_data "status" JNull) as [ok| |]; try by left.
  destruct (negb _); [by left|].
  destruct (py_get response_data "data" _) as [data| |];
    cbn [mbind outcome_bind]; try by left.
  destruct (py_get data "status" _) as [status| |];
    cbn [mbind outcome_bind]; try by left.
  destruct (Payments.py_lower status) as [paystack_status| |];
    cbn [mbind outcome_bind]; try by left.
  destruct (String.eqb paystack_status "success").
  - destruct (py_get data "paid_at" JNull) as [p| |];
      cbn [mbind outcome_bind]; try by left.
    destruct (paid_at_value p) as [q| |]; try by left.
    right. by eexists i, x, _, _.
  - destruct (String.eqb paystack_status "failed"); [|by left].
    right. by exists i, x, "failed", (Transaction.paid_at x).
Qed.

Lemma initiate_payment_shape payment u tok new_id reply st :
  snd (Payments.initiate_payment payment u tok new_id reply st) = st.
Proof.
  unfold Payments.initiate_payment. destruct (falsy _); [done|].
  destruct reply as [|http_status ok url]; [done|]. by destruct (negb _ || negb _).
Qed.

Lemma payment_step_shape op st :
  payment_step op st = st \/
  exists i x status paid,
    transactions st !! i = Some x /\
    payment_step op st
    = with_transactions st
        (<[i := Transaction.set_paid_at (Transaction.set_status x status) paid]>
           (transactions st)).
Proof.
  destruct op as [a u tok new_id reply|request now|reference refresh reply]; simpl.
  - left. destruct (Payments.PaymentInitiateRequest_validate a); [|done..].
    apply initiate_payment_shape.
  - apply payments_webhook_shape.
  - apply get_transaction_status_shape.
Qed.

End Shapes.

Section CallbackShape.
Import GoogleAuth.
Context `{Env}.

Lemma create_or_update_user_shape google_id email name picture
    new_user_id new_wallet_id r now st :
  let st' :=
    snd (create_or_update_user google_id email name picture
           new_user_id new_wallet_id r now st) in
  st' = st \/
  (exists i u,
      users st !! i = Some u /\
      st' = with_users st
              (<[i := User.mk (User.id u) (User.email u) name picture google_id
                              (User.is_active u)]> (users st))) \/
  (first (matches google_id email) (users st) = None /\
   st' = with_users st
           (users st ++ [User.mk new_user_id email name picture google_id true])) \/
  (first (matches google_id email) (users st) = None /\
   insert_wallet
     (with_users st
        (users st ++ [User.mk new_user_id email name picture google_id true]))
     (Wallet.mk new_wallet_id new_user_id (Wallet.generate_wallet_number r) 0)
   = Return st').
Proof.
  unfold create_or_update_user.
  destruct (first _ (users st)) as [[i u]|] eqn:Hf.
  - apply first_Some in Hf as (Hi & _). unfold update_user.
    destruct (match google_id with Some _ => _ | None => _ end); [by left|].
    right. left. by exists i, u.
  - unfold insert_user. destruct (existsb _ (users st)); [by left|].
    destruct (insert_wallet _ _) as [st2| |] eqn:Hw.
    + right. right. right. done.
    + right. right. left. done.
    + right. right. left. done.
Qed.

Lemma google_callback_store code state error reply new_user_id new_wallet_id r now
    oauth_states st :
  snd (google_callback code state error reply new_user_id new_wallet_id r now
         oauth_states st) = st \/
  exists user_info,
    snd (google_callback code state error reply new_user_id new_wallet_id r now
           oauth_states st)
    = snd (create_or_update_user (gi_id user_info) (default "" (gi_email user_info))
             (gi_name user_info) (gi_picture user_info)
             new_user_id new_wallet_id r now st).
Proof.
  unfold google_callback.
  destruct (truthy error); [by left|]. destruct (falsy code); [by left|].
  destruct (falsy state); [by left|].
  destruct (oauth_states !! _); [|by left].
  destruct reply as [| | |user_info]; [by left..|].
  destruct (falsy (gi_email user_info)); [by left|].
  right. exists user_info.
  by destruct (create_or_update_user _ _ _ _ _ _ _ _ _) as [[resp| |] st'].
Qed.

End CallbackShape.

(** ** Rows that stay *)
Section Persists.
Context {A : Type} (R : A -> A -> Prop).

Lemma persists_refl (l : list A) : (forall x, R x x) -> persists R l l.
Proof. intros Hrefl i x Hi. eauto. Qed.

Lemma persists_trans (l1 l2 l3 : list A) :
  (forall x y z, R x y -> R y z -> R x z) ->
  persists R l1 l2 -> persists R l2 l3 -> persists R l1 l3.
Proof.
  intros Htrans H12 H23 i x Hi.
  destruct (H12 i x Hi) as (y & Hy & Hxy). destruct (H23 i y Hy) as (z & Hz & Hyz).
  eauto.
Qed.

Lemma persists_app (l l2 : list A) : (forall x, R x x) -> persists R l (l ++ l2).
Proof.
  intros Hrefl i x Hi. exists x. split; [|done]. by apply lookup_app_l_Some.
Qed.

Lemma persists_insert (l : list A) k x y :
  (forall z, R z z) -> l !! k = Some x -> R x y -> persists R l (<[k := y]> l).
Proof.
  intros Hrefl Hk Hxy i z Hi. destruct (decide (i = k)) as [->|Hne].
  - exists y. split; [|congruence].
    apply list_lookup_insert_eq. by apply lookup_lt_Some in Hk.
  - exists z. split; [|done]. by rewrite list_lookup_insert_ne.
Qed.

End Persists.

Lemma wallet_kept_refl w : wallet_kept w w.
Proof. done. Qed.

Lemma wallet_kept_trans w1 w2 w3 : wallet_kept w1 w2 -> wallet_kept w2 w3 -> wallet_kept w1 w3.
Proof. unfold wallet_kept. congruence. Qed.

Lemma wallet_kept_balance w b : wallet_kept w (Wallet.set_balance w b).
Proof. done. Qed.

Lemma transaction_kept_refl x : transaction_kept x x.
Proof. done. Qed.

Lemma transaction_kept_trans x1 x2 x3 :
  transaction_kept x1 x2 -> transaction_kept x2 x3 -> transaction_kept x1 x3.
Proof.
  intros [Hi1 Hs1] [Hi2 Hs2]. split; [congruence|].
  intros Hs. rewrite (Hs1 Hs) in *. auto.
Qed.

Lemma key_kept_refl k : key_kept k k.
Proof. done. Qed.

Lemma key_kept_trans k1 k2 k3 : key_kept k1 k2 -> key_kept k2 k3 -> key_kept k1 k3.
Proof. intros [Hi1 Ha1] [Hi2 Ha2]. split; [congruence|auto]. Qed.

(** ** Rows of the service never disappear *)
Section Evolution.
Import Schemas WalletRouter ApiKeys KeyRollover GoogleAuth.
Context `{Env}.

Lemma insert_wallet_Return st w st' :
  insert_wallet st w = Return st' ->
  st' = with_wallets st (wallets st ++ [w]) /\
  forall x, In x (wallets st) ->
    Wallet.id x <> Wallet.id w /\ Wallet.user_id x <> Wallet.user_id w /\
    Wallet.wallet_number x <> Wallet.wallet_number w.
Proof.
  unfold insert_wallet. destruct (existsb _ _) eqn:He; [discriminate|].
  intros [= <-]. split; [done|]. intros x Hx.
  pose proof (proj1 (existsb_false_Forall _ _) He x Hx) as Hf.
  apply orb_false_iff in Hf as [Hf Hn]. apply orb_false_iff in Hf as [Hi Hu].
  repeat split; [by apply N.eqb_neq|by apply N.eqb_neq|by apply String.eqb_neq].
Qed.

(** The three relations between the tables before and after one ledger
    request. *)
Lemma step_evolves op st :
  persists wallet_kept (wallets st) (wallets (step op st)) /\
  persists transaction_kept (transactions st) (transactions (step op st)) /\
  api_keys (step op st) = api_keys st /\ users (step op st) = users st.
Proof.
  assert (persists wallet_kept (wallets st) (wallets st) /\
          persists transaction_kept (transactions st) (transactions st) /\
          api_keys st = api_keys st /\ users st = users st) as Hsame.
  { split; [apply persists_refl, wallet_kept_refl|].
    split; [apply persists_refl, transaction_kept_refl|done]. }
  destruct op as [a u tok new_id reply|request now|number a u tok new_id now]; simpl.
  - destruct (WalletDepositRequest_validate a) as [deposit| |]; try exact Hsame.
    destruct (initiate_deposit_shape deposit u tok new_id reply st)
      as [->|(i & wallet & _ & Hins)]; [exact Hsame|].
    apply insert_transaction_Return in Hins. rewrite Hins. simpl.
    split; [apply persists_refl, wallet_kept_refl|].
    split; [apply persists_app, transaction_kept_refl|done].
  - destruct (paystack_webhook_shape request now st)
      as [->|[(i & x & j & w & paid & Hi & Hs & Hj & ->)|(i & x & Hi & Hs & ->)]];
      [exact Hsame| |]; simpl.
    + split; [apply (persists_insert _ _ j w);
                auto using wallet_kept_refl, wallet_kept_balance|].
      split; [|done].
      apply (persists_insert _ _ i x); auto using transaction_kept_refl.
      split; [done|]. intros Hsucc. by destruct Hs.
    + split; [apply persists_refl, wallet_kept_refl|]. split; [|done].
      apply (persists_insert _ _ i x); auto using transaction_kept_refl.
      split; [done|]. intros Hsucc. by destruct Hs.
  - destruct (WalletTransferRequest_validate number a) as [transfer| |]; try exact Hsame.
    destruct (transfer_funds_shape transfer u tok new_id now st)
      as [->|(i & j & sender & recipient & Hij & Hi & Hj & _ & Hins)]; [exact Hsame|].
    apply insert_transaction_Return in Hins. rewrite Hins. simpl.
    split; [|split; [apply persists_app, transaction_kept_refl|done]].
    apply (persists_trans _ _ (<[i := Wallet.set_balance sender
                                       (Wallet.balance sender - tr_amount transfer)]>
                                 (wallets st))).
    + intros x y z. apply wallet_kept_trans.
    + apply (persists_insert _ _ i sender); auto using wallet_kept_refl, wallet_kept_balance.
    + apply (persists_insert _ _ j recipient);
        auto using wallet_kept_refl, wallet_kept_balance.
      by rewrite list_lookup_insert_ne.
Qed.

Lemma key_step_evolves op st :
  wallets (key_step op st) = wallets st /\
  transactions (key_step op st) = transactions st /\
  users (key_step op st) = users st /\
  persists key_kept (api_keys st) (api_keys (key_step op st)).
Proof.
  assert (wallets st = wallets st /\ transactions st = transactions st /\
          users st = users st /\ persists key_kept (api_keys st) (api_keys st)) as Hsame.
  { repeat split. apply persists_refl, key_kept_refl. }
  destruct op as [key_data u rp new_id now|rollover_data u rp new_id now|key_id u]; simpl.
  - destruct (create_api_key_shape key_data u rp new_id now st)
      as [->|(k & _ & _ & _ & ->)]; [exact Hsame|].
    repeat split. apply persists_app, key_kept_refl.
  - destruct (rollover_api_key_shape rollover_data u rp new_id now st)
      as [->|(k & _ & _ & _ & ->)]; [exact Hsame|].
    repeat split. apply persists_app, key_kept_refl.
  - destruct (revoke_api_key_shape key_id u st)
      as [->|(i & k & Hi & _ & _ & ->)]; [exact Hsame|].
    repeat split. apply (persists_insert _ _ i k); auto using key_kept_refl.
    by split.
Qed.

Lemma callback_evolves code state error reply new_user_id new_wallet_id r now
    oauth_states st :
  let st' :=
    snd (google_callback code state error reply new_user_id new_wallet_id r now
           oauth_states st) in
  (wallets st' = wallets st \/
   exists w, wallets st' = (wallets st ++ [w])%list /\ Wallet.balance w = 0 /\
             forall x, In x (wallets st) ->
               Wallet.id x <> Wallet.id w /\ Wallet.user_id x <> Wallet.user_id w /\
               Wallet.wallet_number x <> Wallet.wallet_number w) /\
  transactions st' = transactions st /\ api_keys st' = api_keys st.
Proof.
  intros st'. subst st'.
  destruct (google_callback_store code state error reply new_user_id new_wallet_id r
              now oauth_states st) as [->|[user_info ->]]; [by (split; [left|])|].
  destruct (create_or_update_user_shape (gi_id user_info) (default "" (gi_email user_info))
              (gi_name user_info) (gi_picture user_info)
              new_user_id new_wallet_id r now st)
    as [->|[(i & u & _ & ->)|[(_ & ->)|(_ & Hw)]]]; try by (split; [left|]).
  apply insert_wallet_Return in Hw as [-> Hfresh]. simpl.
  split; [|done]. right. eexists. split; [done|]. split; [done|]. exact Hfresh.
Qed.

Lemma transaction_kept_row x x' : transaction_kept x x' -> transaction_row_kept x x'.
Proof. by intros [Hi _]. Qed.

Lemma persists_mono {A} (R R' : A -> A -> Prop) (l l' : list A) :
  (forall x y, R x y -> R' x y) -> persists R l l' -> persists R' l l'.
Proof.
  intros Hsub Hp i x Hi. destruct (Hp i x Hi) as (y & Hy & Hxy). eauto.
Qed.

Lemma transaction_row_kept_refl x : transaction_row_kept x x.
Proof. done. Qed.

Lemma transaction_row_kept_trans x1 x2 x3 :
  transaction_row_kept x1 x2 -> transaction_row_kept x2 x3 ->
  transaction_row_kept x1 x3.
Proof. unfold transaction_row_kept. congruence. Qed.

(** A request to the payments router leaves wallets, keys and users as
    they are and keeps every transaction row but for status and payment
    time. *)
Lemma payment_step_evolves op st :
  wallets (payment_step op st) = wallets st /\
  api_keys (payment_step op st) = api_keys st /\
  users (payment_step op st) = users st /\
  persists transaction_row_kept (transactions st) (transactions (payment_step op st)).
Proof.
  destruct (payment_step_shape op st) as [->|(i & x & status & paid & Hi & ->)].
  - repeat split. apply persists_refl, transaction_row_kept_refl.
  - repeat split. simpl.
    apply (persists_insert _ _ i x); auto using transaction_row_kept_refl.
    reflexivity.
Qed.

Lemma serve_keeps_success request (s : State) :
  (forall op, request <> PaymentsRequest op) ->
  persists transaction_kept (transactions (fst s))
           (transactions (fst (serve request s))).
Proof.
  intros Hnot. destruct s as [st states].
  destruct request as [op|op|code state error reply new_user_id new_wallet_id r now|op];
    simpl.
  - by destruct (step_evolves op st) as (_ & Hx & _).
  - destruct (key_step_evolves op st) as (_ & -> & _).
    apply persists_refl, transaction_kept_refl.
  - destruct (callback_evolves code state error reply new_user_id new_wallet_id r now
                states st) as (_ & -> & _).
    apply persists_refl, transaction_kept_refl.
  - by destruct (Hnot op).
Qed.

Lemma serve_evolves request (s : State) :
  persists wallet_kept (wallets (fst s)) (wallets (fst (serve request s))) /\
  persists transaction_row_kept (transactions (fst s))
           (transactions (fst (serve request s))) /\
  persists key_kept (api_keys (fst s)) (api_keys (fst (serve request s))).
Proof.
  destruct s as [st states].
  destruct request as [op|op|code state error reply new_user_id new_wallet_id r now|op];
    simpl.
  - destruct (step_evolves op st) as (Hw & Hx & -> & _).
    split; [done|]. split; [|apply persists_refl, key_kept_refl].
    apply (persists_mono transaction_kept); [apply transaction_kept_row|exact Hx].
  - destruct (key_step_evolves op st) as (-> & -> & _ & Hk).
    split; [apply persists_refl, wallet_kept_refl|].
    split; [apply persists_refl, transaction_row_kept_refl|done].
  - destruct (callback_evolves code state error reply new_user_id new_wallet_id r now
                states st) as ([->|(w & -> & _)] & -> & ->).
    + split; [apply persists_refl, wallet_kept_refl|].
      split; [apply persists_refl, transaction_row_kept_refl
             |apply persists_refl, key_kept_refl].
    + split; [apply persists_app, wallet_kept_refl|].
      split; [apply persists_refl, transaction_row_kept_refl
             |apply persists_refl, key_kept_refl].
  - destruct (payment_step_evolves op st) as (-> & -> & _ & Hx).
    split; [apply persists_refl, wallet_kept_refl|].
    split; [done|apply persists_refl, key_kept_refl].
Qed.

Lemma served_evolves (s0 s : State) :
  served s0 s ->
  persists wallet_kept (wallets (fst s0)) (wallets (fst s)) /\
  persists transaction_row_kept (transactions (fst s0)) (transactions (fst s)) /\
  persists key_kept (api_keys (fst s0)) (api_keys (fst s)).
Proof.
  induction 1 as [|s request _ (IHw & IHx & IHk)].
  - split; [apply persists_refl, wallet_kept_refl|].
    split; [apply persists_refl, transaction_row_kept_refl
           |apply persists_refl, key_kept_refl].
  - destruct (serve_evolves request s) as (Hw & Hx & Hk).
    split; [|split].
    + eapply persists_trans; eauto using wallet_kept_trans.
    + eapply persists_trans; eauto using transaction_row_kept_trans.
    + eapply persists_trans; eauto using key_kept_trans.
Qed.

Lemma served_keeps_success (s0 s : State) :
  served_without_payments s0 s ->
  persists transaction_kept (transactions (fst s0)) (transactions (fst s)).
Proof.
  induction 1 as [|s request _ IH Hnot].
  - apply persists_refl, transaction_kept_refl.
  - eapply persists_trans; [apply transaction_kept_trans|exact IH|].
    by apply serve_keeps_success.
Qed.

Lemma without_payments_served (s0 s : State) :
  served_without_payments s0 s -> served s0 s.
Proof. induction 1; by constructor. Qed.

(** Through any sequence of requests to the endpoints that write, a wallet
    row is never removed and keeps its id, its owner and its wallet number:
    only the balance moves. *)
Theorem wallet_rows_are_permanent (s0 s : State) (i : nat) (w : Wallet.t) :
  served s0 s ->
  wallets (fst s0) !! i = Some w ->
  exists w',
    wallets (fst s) !! i = Some w' /\
    Wallet.id w' = Wallet.id w /\ Wallet.user_id w' = Wallet.user_id w /\
    Wallet.wallet_number w' = Wallet.wallet_number w.
Proof.
  intros Hs Hi. destruct (served_evolves s0 s Hs) as (Hw & _).
  destruct (Hw i w Hi) as (w' & Hi' & Hk). exists w'. split; [done|].
  unfold wallet_kept, wallet_identity in Hk. by injection Hk.
Qed.

(** Through any sequence of requests to the endpoints of the four routers,
    a transaction row is never removed and keeps its id, reference, owner,
    wallet, amount, type and recipient.  Through the requests outside the
    payments router a row in status "success" is final, status and payment
    time included.  The payments router does not keep that: its webhook has
    no test of the present status, so a "charge.failed" event delivered
    there for a row, successful or not, leaves the row in status "failed". *)
Theorem transactions_are_append_only (s0 s : State) (i : nat) (x : Transaction.t) :
  transactions (fst s0) !! i = Some x ->
  (served s0 s ->
   exists x',
     transactions (fst s) !! i = Some x' /\
     transaction_identity x' = transaction_identity x) /\
  (served_without_payments s0 s ->
   exists x',
     transactions (fst s) !! i = Some x' /\
     transaction_identity x' = transaction_identity x /\
     (Transaction.status x = "success" -> x' = x)) /\
  (forall request payload now,
     delivered request = Some payload ->
     event payload = Some "charge.failed" ->
     data_reference payload = Some (Transaction.reference x) ->
     transaction_by_reference (fst s0) (Transaction.reference x) = Some (i, x) ->
     transactions (fst (serve (PaymentsRequest (PaymentWebhook request now)) s0)) !! i
     = Some (Transaction.set_status x "failed")).
Proof.
  intros Hi. split; [|split].
  - intros Hs. destruct (served_evolves s0 s Hs) as (_ & Hx & _).
    destruct (Hx i x Hi) as (x' & Hi' & Hk). by exists x'.
  - intros Hs. destruct (served_keeps_success s0 s Hs i x Hi) as (x' & Hi' & Hk).
    by exists x'.
  - intros request payload now Hd Hev Hr Hx. destruct s0 as [st states]. simpl in *.
    apply delivered_accepted in Hd as (d & Ha & Hd & _ & He).
    rewrite Hd in Hr. injection Hr as Hr.
    rewrite (payments_webhook_accepted _ _ now st Ha), Hr, Hx, !He, Hev. simpl.
    apply list_lookup_insert_eq. by apply lookup_lt_Some in Hi.
Qed.

(** Through any sequence of requests, a key row is never removed, keeps its
    id, name, prefix, hash, owner, permissions and expiry, and once revoked
    is never active again. *)
Theorem revocation_is_permanent (s0 s : State) (i : nat) (k : APIKey.t) :
  served s0 s ->
  api_keys (fst s0) !! i = Some k ->
  exists k',
    api_keys (fst s) !! i = Some k' /\
    key_identity k' = key_identity k /\
    (APIKey.is_active k = false -> APIKey.is_active k' = false).
Proof.
  intros Hs Hi. destruct (served_evolves s0 s Hs) as (_ & _ & Hk).
  destruct (Hk i k Hi) as (k' & Hi' & Hkept). by exists k'.
Qed.

End Evolution.

(** ** Where money comes from *)
Section Money.
Import Schemas WalletRouter ApiKeys KeyRollover GoogleAuth.
Context `{Env}.

Lemma total_balance_app l w :
  total_balance (l ++ [w]) = total_balance l + Wallet.balance w.
Proof. induction l as [|a l IH]; simpl; [lia|]. rewrite IH. lia. Qed.

Lemma webhook_total request now st :
  total_balance (wallets (snd (paystack_webhook request now st)))
    = total_balance (wallets st) \/
  exists i x,
    transactions st !! i = Some x /\ Transaction.status x <> "success" /\
    total_balance (wallets (snd (paystack_webhook request now st)))
      = total_balance (wallets st) + Transaction.amount x.
Proof.
  destruct (paystack_webhook_shape request now st)
    as [->|[(i & x & j & w & paid & Hi & Hs & Hj & ->)|(i & x & Hi & Hs & ->)]];
    [by left| |by left].
  right. exists i, x. split; [done|]. split; [done|]. simpl.
  rewrite (total_balance_insert _ j w) by done. simpl. lia.
Qed.

Lemma transfer_total transfer u tok new_id now st :
  total_balance (wallets (snd (transfer_funds transfer u tok new_id now st)))
  = total_balance (wallets st).
Proof.
  destruct (transfer_funds_shape transfer u tok new_id now st)
    as [->|(i & j & sender & recipient & Hij & Hi & Hj & _ & Hins)]; [done|].
  apply insert_transaction_Return in Hins. rewrite Hins. simpl.
  rewrite (total_balance_insert _ j recipient) by (by rewrite list_lookup_insert_ne).
  rewrite (total_balance_insert _ i sender) by done. simpl. lia.
Qed.

Lemma deposit_wallets deposit u tok new_id reply st :
  wallets (snd (initiate_deposit deposit u tok new_id reply st)) = wallets st.
Proof.
  destruct (initiate_deposit_shape deposit u tok new_id reply st)
    as [->|(i & wallet & _ & Hins)]; [done|].
  apply insert_transaction_Return in Hins. by rewrite Hins.
Qed.

(** The webhook moves the ledger total by nothing or by the amount of one
    recorded transaction that was not yet successful. *)
Theorem webhook_credits_one_amount (request : WebhookRequest)
    (now : Datetime.datetime) (st : Store) :
  total_balance (wallets (snd (paystack_webhook request now st)))
    = total_balance (wallets st) \/
  exists i x,
    transactions st !! i = Some x /\ Transaction.status x <> "success" /\
    total_balance (wallets (snd (paystack_webhook request now st)))
      = total_balance (wallets st) + Transaction.amount x.
Proof. apply webhook_total. Qed.

Lemma non_webhook_total (request : Request) (s : State) :
  (forall r now, request <> LedgerRequest (Webhook r now)) ->
  total_balance (wallets (fst (serve request s))) = total_balance (wallets (fst s)).
Proof.
  intros Hnot. destruct s as [st states].
  destruct request as [op|op|code state error reply new_user_id new_wallet_id r now|op];
    simpl.
  - destruct op as [a u tok new_id reply|request now|number a u tok new_id now]; simpl.
    + destruct (WalletDepositRequest_validate a); [|done..]. by rewrite deposit_wallets.
    + by destruct (Hnot request now).
    + destruct (WalletTransferRequest_validate number a); [|done..].
      apply transfer_total.
  - by destruct (key_step_evolves op st) as (-> & _).
  - destruct (callback_evolves code state error reply new_user_id new_wallet_id r now
                states st) as ([->|(w & -> & Hzero & _)] & _); [done|].
    rewrite total_balance_app. lia.
  - by destruct (payment_step_evolves op st) as (-> & _).
Qed.

(** The webhook is the only endpoint that changes the ledger total: deposit
    initiation, transfers, the key endpoints and the login callback leave the
    sum of all balances as it is. *)
Theorem only_the_webhook_credits (request : Request) (s : State) :
  (forall r now, request <> LedgerRequest (Webhook r now)) ->
  total_balance (wallets (fst (serve request s))) = total_balance (wallets (fst s)).
Proof. apply non_webhook_total. Qed.

Lemma serve_ok request (s : State) : ledger_ok (fst s) -> ledger_ok (fst (serve request s)).
Proof.
  intros Hok. destruct s as [st states].
  destruct request as [op|op|code state error reply new_user_id new_wallet_id r now|op];
    simpl in *.
  - by apply step_ok.
  - destruct Hok as [Hw Hx]. destruct (key_step_evolves op st) as (Ew & Ex & _).
    split; [by rewrite Ew|by rewrite Ex].
  - destruct Hok as [Hw Hx].
    destruct (callback_evolves code state error reply new_user_id new_wallet_id r now
                states st) as ([Ew|(w & Ew & Hzero & _)] & Ex & _);
      (split; [rewrite Ew|by rewrite Ex]); [done|].
    apply Forall_app. split; [done|]. constructor; [lia|constructor].
  - destruct Hok as [Hw Hx]. split.
    + by destruct (payment_step_evolves op st) as (-> & _).
    + destruct (payment_step_shape op st) as [->|(i & x & status & paid & Hi & ->)];
        [done|]. simpl. apply Forall_insert; [done|].
      by apply (Forall_lookup_1 _ _ _ _ Hx Hi).
Qed.

Lemma serve_total request (s : State) :
  ledger_ok (fst s) ->
  total_balance (wallets (fst s)) <= total_balance (wallets (fst (serve request s))).
Proof.
  intros [Hw Hx].
  destruct request as [[a u tok new_id reply|request now|number a u tok new_id now]|op|
                       code state error reply new_user_id new_wallet_id r now|op].
  2:{ destruct s as [st states]. simpl in *.
      destruct (webhook_total request now st) as [->|(i & x & Hi & _ & ->)]; [lia|].
      pose proof (Forall_lookup_1 _ _ _ _ Hx Hi). simpl in *. lia. }
  all: rewrite non_webhook_total; [lia|discriminate].
Qed.

Lemma served_ok (s0 s : State) :
  served s0 s -> ledger_ok (fst s0) ->
  ledger_ok (fst s) /\
  total_balance (wallets (fst s0)) <= total_balance (wallets (fst s)).
Proof.
  intros Hs Hok. induction Hs as [|s request _ [IHok IHtotal]]; [split; [done|lia]|].
  split; [by apply serve_ok|]. pose proof (serve_total request s IHok). lia.
Qed.

(** From a store with non-negative balances and recorded amounts, through
    any sequence of requests to the endpoints that write, the ledger total
    never decreases and no balance becomes negative. *)
Theorem money_is_never_destroyed (s0 s : State) :
  served s0 s ->
  (forall w, In w (wallets (fst s0)) -> 0 <= Wallet.balance w) ->
  (forall x, In x (transactions (fst s0)) -> 0 <= Transaction.amount x) ->
  total_balance (wallets (fst s0)) <= total_balance (wallets (fst s)) /\
  forall w, In w (wallets (fst s)) -> 0 <= Wallet.balance w.
Proof.
  intros Hs Hw0 Hx0.
  destruct (served_ok s0 s Hs) as [[Hw _] Htotal].
  { split; by apply List.Forall_forall. }
  split; [exact Htotal|]. by apply List.Forall_forall.
Qed.

End Money.

(** ** Keys: quota, rollover, isolation of owners *)
Section Keys.
Import ApiKeys KeyRollover GoogleAuth.
Context `{Env}.

Lemma filter_insert_le {A} (p : A -> bool) (l : list A) i y :
  p y = false -> (length (List.filter p (<[i := y]> l)) <= length (List.filter p l))%nat.
Proof.
  intros Hy. revert i. induction l as [|a l IH]; intros [|i]; simpl; try lia.
  - rewrite Hy. destruct (p a); simpl; lia.
  - specialize (IH i). destruct (p a); simpl; lia.
Qed.

Lemma filter_insert_same {A} (p : A -> bool) (l : list A) i x y :
  l !! i = Some x -> p x = false -> p y = false ->
  List.filter p (<[i := y]> l) = List.filter p l.
Proof.
  revert i. induction l as [|a l IH]; intros [|i] Hi Hx Hy; simpl in *; try done.
  - injection Hi as ->. by rewrite Hx, Hy.
  - by rewrite (IH i Hi Hx Hy).
Qed.

Lemma filter_and {A} (p q : A -> bool) (l : list A) :
  List.filter (fun x => p x && q x) l = List.filter q (List.filter p l).
Proof.
  induction l as [|a l IH]; [done|]. simpl.
  destruct (p a); simpl; [|done]. destruct (q a); by rewrite IH.
Qed.

Lemma active_count_app st k uid :
  active_count (with_api_keys st (api_keys st ++ [k])) uid
  = (active_count st uid
     + if (APIKey.owner_id k =? uid)%N && APIKey.is_active k then 1 else 0)%nat.
Proof.
  unfold active_count. simpl. rewrite List.filter_app, length_app. simpl.
  by destruct ((APIKey.owner_id k =? uid)%N && APIKey.is_active k).
Qed.

Lemma key_step_quota op st uid :
  (active_count st uid <= 5)%nat -> (active_count (key_step op st) uid <= 5)%nat.
Proof.
  intros Hq.
  assert (forall u k, (active_count st (User.id u) < 5)%nat ->
                      APIKey.owner_id k = User.id u ->
                      (active_count (with_api_keys st (api_keys st ++ [k])) uid <= 5)%nat)
    as Happ.
  { intros u k Hlt Ho. rewrite active_count_app.
    destruct (N.eqb_spec (APIKey.owner_id k) uid) as [He|Hne]; simpl; [|lia].
    rewrite Ho in He. subst uid. destruct (APIKey.is_active k); lia. }
  destruct op as [key_data u rp new_id now|rollover_data u rp new_id now|key_id u]; simpl.
  - destruct (create_api_key_shape key_data u rp new_id now st)
      as [->|(k & Hlt & Ho & _ & ->)]; eauto.
  - destruct (rollover_api_key_shape rollover_data u rp new_id now st)
      as [->|(k & Hlt & Ho & _ & ->)]; eauto.
  - destruct (revoke_api_key_shape key_id u st)
      as [->|(i & k & Hi & _ & _ & ->)]; [done|].
    unfold active_count in *. simpl.
    etransitivity; [apply filter_insert_le|exact Hq].
    simpl. apply andb_false_r.
Qed.

Lemma serve_api_keys request (s : State) :
  (exists op, request = KeyRequest op) \/
  api_keys (fst (serve request s)) = api_keys (fst s).
Proof.
  destruct s as [st states].
  destruct request as [op|op|code state error reply new_user_id new_wallet_id r now|op];
    simpl.
  - right. by destruct (step_evolves op st) as (_ & _ & -> & _).
  - left. by exists op.
  - right.
    by destruct (callback_evolves code state error reply new_user_id new_wallet_id r now
                   states st) as (_ & _ & ->).
  - right. by destruct (payment_step_evolves op st) as (_ & -> & _).
Qed.

(** An owner within the quota of 5 active keys stays within it through any
    sequence of requests: creation and rollover refuse the sixth, revocation
    only lowers the count, the other endpoints do not touch keys. *)
Theorem active_keys_stay_within_quota (s0 s : State) (uid : N) :
  served s0 s ->
  (active_count (fst s0) uid <= 5)%nat ->
  (active_count (fst s) uid <= 5)%nat.
Proof.
  intros Hs Hq. induction Hs as [|s request _ IH]; [done|].
  destruct (serve_api_keys request s) as [[op ->]|Hsame].
  - simpl. by apply key_step_quota.
  - unfold active_count in *. by rewrite Hsame.
Qed.

(** A key that has no expiry, or whose expiry is still ahead, cannot be
    rolled over: the answer is 400 "not expired" and nothing changes. *)
Theorem rollover_requires_expired_key (rollover_data : RolloverRequest) (user : User.t)
    (random_part : string) (new_id : N) (now : Datetime.datetime) (st : Store)
    (key_uuid : N) (i : nat) (old_key : APIKey.t) :
  UUID (expired_key_id rollover_data) = Some key_uuid ->
  first (fun k => (APIKey.id k =? key_uuid)%N && (APIKey.owner_id k =? User.id user)%N)
        (api_keys st) = Some (i, old_key) ->
  (APIKey.expires_at old_key = None \/
   exists expires_at, APIKey.expires_at old_key = Some expires_at /\ now < expires_at) ->
  rollover_api_key rollover_data user random_part new_id now st
    = (HTTPException KeyNotExpired, st) /\
  status_code KeyNotExpired = 400.
Proof.
  intros Hu Hf Hexp. unfold rollover_api_key. rewrite Hu, Hf.
  destruct Hexp as [->|(e & -> & Hlt)]; [done|].
  apply Z.ltb_lt in Hlt. by rewrite Hlt.
Qed.

(** Rolling over an expired key of an owner below the quota adds one active
    key with the old key's permissions, the owner's id and the old name
    followed by " (Renewed)", and returns its raw secret; the old key and
    all other rows stay as they are.  Neither the active flag of the old key
    nor that of the account is looked at. *)
Theorem rollover_renews_key (rollover_data : RolloverRequest) (user : User.t)
    (random_part : string) (new_id : N) (now : Datetime.datetime) (st : Store)
    (key_uuid : N) (i : nat) (old_key : APIKey.t)
    (old_expiry new_expiry : Datetime.datetime) :
  UUID (expired_key_id rollover_data) = Some key_uuid ->
  first (fun k => (APIKey.id k =? key_uuid)%N && (APIKey.owner_id k =? User.id user)%N)
        (api_keys st) = Some (i, old_key) ->
  APIKey.expires_at old_key = Some old_expiry -> old_expiry <= now ->
  (active_count st (User.id user) < 5)%nat ->
  Utils.parse_expiry now (rr_expiry rollover_data) = Return new_expiry ->
  (forall k, In k (api_keys st) ->
     APIKey.id k <> new_id /\
     APIKey.key_hash k <> hash_api_key (generate_api_key random_part)) ->
  let new_key :=
    APIKey.mk new_id (APIKey.name old_key ++ " (Renewed)")
              (get_api_key_prefix (generate_api_key random_part))
              (hash_api_key (generate_api_key random_part))
              (User.id user) (APIKey.permissions old_key) (Some new_expiry) true in
  rollover_api_key rollover_data user random_part new_id now st
    = (Return (mkAPIKeyResponse (generate_api_key random_part) (Some new_expiry)),
       with_api_keys st (api_keys st ++ [new_key])) /\
  now < new_expiry.
Proof.
  intros Hu Hf He Hle Hq Hp Hfresh new_key. unfold rollover_api_key.
  rewrite Hu, Hf, He.
  destruct (Z.ltb_spec now old_expiry); [lia|].
  destruct (Nat.leb_spec 5 (active_count st (User.id user))); [lia|].
  rewrite Hp. rewrite insert_api_key_fresh by exact Hfresh. split; [done|].
  apply parse_expiry_Return in Hp as (n & d & _ & _ & Hn & Hd & ->).
  pose proof (unit_cases (List.last (list_ascii_of_string (rr_expiry rollover_data))
                            "000"%char)) as Hc.
  rewrite Hd in Hc.
  assert (0 < d) as Hpos by (destruct Hc as [[_ ->]|[[_ ->]|[[_ ->]|[_ ->]]]]; reflexivity).
  nia.
Qed.

(** A second revocation of a revoked key is refused with 400 "already
    revoked" and changes nothing. *)
Theorem revoke_is_refused_twice (key_id : string) (user : User.t) (st st1 : Store)
    (answer : string * string) :
  revoke_api_key key_id user st = (Return answer, st1) ->
  revoke_api_key key_id user st1 = (HTTPException KeyAlreadyRevoked, st1).
Proof.
  unfold revoke_api_key. destruct (UUID key_id) as [key_uuid|]; [|discriminate].
  destruct (first _ (api_keys st)) as [[i k]|] eqn:Hf; [|discriminate].
  destruct (APIKey.is_active k) eqn:Hk; [|discriminate]. simpl.
  intros [= _ <-]. simpl.
  pose proof (first_Some _ _ _ _ Hf) as (Hi & _).
  rewrite (first_insert _ _ i k _ Hi) by reflexivity.
  by rewrite Hf, Nat.eqb_refl.
Qed.

(** What one owner does with keys is invisible to another: a key request of
    user [u] leaves the listing and the active count of every other owner
    unchanged. *)
Theorem key_requests_are_isolated (op : KeyOp) (st : Store) (other : User.t) :
  User.id other <> User.id (match op with
                            | CreateKey _ u _ _ _ | RolloverKey _ u _ _ _
                            | RevokeKey _ u => u
                            end) ->
  list_api_keys other (key_step op st) = list_api_keys other st /\
  active_count (key_step op st) (User.id other) = active_count st (User.id other).
Proof.
  intros Hne.
  assert (forall k, APIKey.owner_id k <> User.id other ->
            List.filter (fun k => (APIKey.owner_id k =? User.id other)%N)
                        (api_keys st ++ [k])
            = List.filter (fun k => (APIKey.owner_id k =? User.id other)%N) (api_keys st))
    as Happ.
  { intros k Hk. rewrite List.filter_app. simpl.
    apply N.eqb_neq in Hk. rewrite Hk. apply app_nil_r. }
  assert (forall i k k', api_keys st !! i = Some k ->
            APIKey.owner_id k <> User.id other -> APIKey.owner_id k' = APIKey.owner_id k ->
            List.filter (fun k => (APIKey.owner_id k =? User.id other)%N)
                        (<[i := k']> (api_keys st))
            = List.filter (fun k => (APIKey.owner_id k =? User.id other)%N) (api_keys st))
    as Hins.
  { intros i k k' Hi Hk Ho. apply (filter_insert_same _ _ i k); [done|..].
    - by apply N.eqb_neq.
    - rewrite Ho. by apply N.eqb_neq. }
  assert (forall l l' : list APIKey.t,
            List.filter (fun k => (APIKey.owner_id k =? User.id other)%N) l'
            = List.filter (fun k => (APIKey.owner_id k =? User.id other)%N) l ->
            length (List.filter
                      (fun k => (APIKey.owner_id k =? User.id other)%N
                                && APIKey.is_active k) l')
            = length (List.filter
                        (fun k => (APIKey.owner_id k =? User.id other)%N
                                  && APIKey.is_active k) l)) as Hcount.
  { intros l l' Hl. by rewrite !filter_and, Hl. }
  unfold list_api_keys, active_count.
  destruct op as [key_data u rp new_id now|rollover_data u rp new_id now|key_id u]; simpl.
  - destruct (create_api_key_shape key_data u rp new_id now st)
      as [->|(k & _ & Ho & _ & ->)]; [done|]. simpl.
    assert (APIKey.owner_id k <> User.id other) as Hk by congruence.
    split; [by rewrite Happ|]. apply Hcount. by apply Happ.
  - destruct (rollover_api_key_shape rollover_data u rp new_id now st)
      as [->|(k & _ & Ho & _ & ->)]; [done|]. simpl.
    assert (APIKey.owner_id k <> User.id other) as Hk by congruence.
    split; [by rewrite Happ|]. apply Hcount. by apply Happ.
  - destruct (revoke_api_key_shape key_id u st)
      as [->|(i & k & Hi & Ho & _ & ->)]; [done|]. simpl.
    assert (APIKey.owner_id k <> User.id other) as Hk by congruence.
    split; [by rewrite (Hins i k)|]. apply Hcount. by apply (Hins i k).
Qed.

End Keys.

(** ** Credentials *)
Section Credentials.
Import ApiKeys KeyRollover Verifier AuthDeps.
Context `{Env} `{Jose}.

(** An API key authenticates exactly when it is non-empty, its hash is that
    of a stored key which is active and not past its expiry, and the owner
    of that key exists; the verdict is then that owner and that key. *)
Theorem api_key_authentication (x_api_key : option string) (now : Datetime.datetime)
    (st : Store) (user : User.t) (api_key : APIKey.t) :
  get_current_user_from_api_key x_api_key now st = Authenticated (user, api_key) <->
  exists raw i j,
    x_api_key = Some raw /\ raw <> "" /\
    first (fun k => String.eqb (APIKey.key_hash k) (hash_api_key raw)) (api_keys st)
      = Some (i, api_key) /\
    APIKey.is_active api_key = true /\
    (forall expires_at, APIKey.expires_at api_key = Some expires_at -> now <= expires_at) /\
    first (fun u => (User.id u =? APIKey.owner_id api_key)%N) (users st) = Some (j, user).
Proof.
  unfold get_current_user_from_api_key. split.
  - destruct x_api_key as [raw|]; [|discriminate]. simpl.
    destruct (String.eqb raw "") eqn:Hraw; [discriminate|]. apply String.eqb_neq in Hraw.
    destruct (first _ (api_keys st)) as [[i k]|] eqn:Hk; [|discriminate].
    destruct (APIKey.is_active k) eqn:Ha; [|discriminate]. simpl.
    destruct (APIKey.expires_at k) as [e|] eqn:He.
    + destruct (Z.ltb_spec e now); [discriminate|].
      destruct (first _ (users st)) as [[j u]|] eqn:Hu; [|discriminate].
      intros [= <- <-]. exists raw, i, j. repeat split; try done.
      intros e' Heq. rewrite He in Heq. injection Heq as <-. lia.
    + destruct (first _ (users st)) as [[j u]|] eqn:Hu; [|discriminate].
      intros [= <- <-]. exists raw, i, j. repeat split; try done.
      intros e' Heq. by rewrite He in Heq.
  - intros (raw & i & j & -> & Hraw & Hk & Ha & He & Hu). simpl.
    apply String.eqb_neq in Hraw. rewrite Hraw, Hk, Ha. simpl.
    destruct (APIKey.expires_at api_key) as [e|].
    + specialize (He e eq_refl). destruct (Z.ltb_spec e now); [lia|]. by rewrite Hu.
    + by rewrite Hu.
Qed.

Lemma json_string_In (perm : string) (perms : list string) :
  In (JString perm) (map JString perms) <-> In perm perms.
Proof.
  rewrite in_map_iff. split.
  - by intros (x & [= ->] & Hx).
  - intros Hin. by exists perm.
Qed.

Lemma permission_checker_key required user k :
  permission_checker required (user, Some k) = Return user <->
  forall perm, In perm required -> In (JString perm) (api_key_permissions k).
Proof.
  rewrite <- missing_of_nil. unfold permission_checker. fold (missing_of required k).
  destruct (missing_of required k); split; done.
Qed.

(** The raw key that a creation returns authenticates from then on until
    its expiry, which lies after the creation: the verdict is the owner and
    the new key, and the permission gate then lets through exactly the
    requirements within the permissions asked for at creation. *)
Theorem created_key_authenticates (key_data : APIKeyCreate) (user owner : User.t)
    (random_part : string) (new_id : N) (now : Datetime.datetime) (st st' : Store)
    (resp : APIKeyResponse) (j : nat) :
  create_api_key key_data user random_part new_id now st = (Return resp, st') ->
  first (fun u => (User.id u =? User.id user)%N) (users st) = Some (j, owner) ->
  exists expires_at k,
    resp_expires_at resp = Some expires_at /\ now < expires_at /\
    forall now', now' <= expires_at ->
      get_current_user_from_api_key (Some (api_key resp)) now' st'
        = Authenticated (owner, k) /\
      forall required,
        permission_checker required (owner, Some k) = Return owner <->
        forall perm, In perm required -> In perm (kc_permissions key_data).
Proof.
  unfold create_api_key. destruct (negb _); [discriminate|].
  destruct (5 <=? _)%nat; [discriminate|].
  destruct (Utils.parse_expiry now (kc_expiry key_data)) as [e| |] eqn:Hp; try discriminate.
  unfold insert_api_key. destruct (existsb _ (api_keys st)) eqn:Hex; [discriminate|].
  intros [= <- <-] Hu. cbn [resp_expires_at api_key].
  set (k := APIKey.mk new_id _ _ _ _ _ _ _).
  exists e, k. split; [done|]. split.
  { apply parse_expiry_Return in Hp as (n & d & _ & _ & Hn & Hd & ->).
    pose proof (unit_cases (List.last (list_ascii_of_string (kc_expiry key_data))
                              "000"%char)) as Hc.
    rewrite Hd in Hc.
    assert (0 < d) by (destruct Hc as [[_ ->]|[[_ ->]|[[_ ->]|[_ ->]]]]; reflexivity).
    nia. }
  intros now' Hnow'. split.
  - unfold get_current_user_from_api_key. cbn [falsy default id api_keys with_api_keys].
    change (String.eqb (generate_api_key random_part) "") with false. cbv iota.
    assert (first (fun x => String.eqb (APIKey.key_hash x)
                              (hash_api_key (generate_api_key random_part)))
                  (api_keys st) = None) as Hnone.
    { apply first_None. intros x Hx.
      pose proof (proj1 (existsb_false_Forall _ _) Hex x Hx) as Hf.
      by apply orb_false_iff in Hf as [_ Hh]. }
    rewrite (first_app_None _ _ k Hnone). subst k.
    assert ((e <? now') = false) as Hlt by (apply Z.ltb_ge; lia).
    cbv beta iota delta [APIKey.key_hash APIKey.is_active APIKey.expires_at
                         APIKey.owner_id negb users with_api_keys].
    rewrite String.eqb_refl. cbv iota. rewrite Hlt.
    unfold users in Hu. by rewrite Hu.
  - intros required. rewrite permission_checker_key. subst k. simpl.
    split; intros Hall perm Hin; [by apply json_string_In, Hall|by apply json_string_In, Hall].
Qed.

(** Once a key is revoked, the secret that hashes to it is refused with 401
    "revoked", whatever the time. *)
Theorem revoked_key_is_rejected (key_id raw : string) (user : User.t)
    (st st1 : Store) (answer : string * string) (key_uuid : N) (i : nat)
    (k : APIKey.t) (now : Datetime.datetime) :
  UUID key_id = Some key_uuid ->
  first (fun x => (APIKey.id x =? key_uuid)%N && (APIKey.owner_id x =? User.id user)%N)
        (api_keys st) = Some (i, k) ->
  first (fun x => String.eqb (APIKey.key_hash x) (hash_api_key raw)) (api_keys st)
    = Some (i, k) ->
  raw <> "" ->
  revoke_api_key key_id user st = (Return answer, st1) ->
  get_current_user_from_api_key (Some raw) now st1 = Unauthenticated RevokedApiKey.
Proof.
  intros Hu Hid Hhash Hraw. unfold revoke_api_key. rewrite Hu, Hid.
  destruct (APIKey.is_active k); [|discriminate]. simpl. intros [= _ <-].
  unfold get_current_user_from_api_key. simpl.
  apply String.eqb_neq in Hraw. rewrite Hraw.
  pose proof (first_Some _ _ _ _ Hhash) as (Hi & _).
  rewrite (first_insert _ _ i k _ Hi) by reflexivity.
  by rewrite Hhash, Nat.eqb_refl.
Qed.

(** A bearer token that verifies decides the request: the principal is the
    token's user with no key attached, so every permission requirement
    passes, also when the request carries an API key, whatever that key
    grants and whether it is valid or not. *)
Theorem bearer_token_comes_first (token x_api_key : option string)
    (now : Datetime.datetime) (st : Store) (user : User.t) (required : list string) :
  get_current_user_from_jwt token now st = Authenticated user ->
  get_current_user_or_service token x_api_key now st = Authenticated (user, None) /\
  require_permissions required token x_api_key now st = Authenticated (Return user).
Proof.
  intros Hjwt.
  assert (get_current_user_or_service token x_api_key now st = Authenticated (user, None))
    as Hdual.
  { unfold get_current_user_or_service. destruct token as [credentials|].
    - by rewrite Hjwt.
    - discriminate. }
  split; [exact Hdual|]. unfold require_permissions. by rewrite Hdual.
Qed.

(** A bearer token that does not verify does not stand in the way of an API
    key: its 401 is dropped, the principal is the owner of the key with the
    key attached, and the permission gate then lets the request through when
    the key grants all that is required and answers 403 with the missing
    permissions otherwise. *)
Theorem api_key_is_the_fallback (token x_api_key : option string)
    (now : Datetime.datetime) (st : Store) (why : Unauthorized)
    (user : User.t) (api_key : APIKey.t) (required : list string) :
  get_current_user_from_jwt token now st = Unauthenticated why ->
  get_current_user_from_api_key x_api_key now st = Authenticated (user, api_key) ->
  get_current_user_or_service token x_api_key now st
    = Authenticated (user, Some api_key) /\
  require_permissions required token x_api_key now st
    = Authenticated (match missing_of required api_key with
                     | [] => Return user
                     | _ :: _ => HTTPException (MissingPermissions
                                                  (missing_of required api_key))
                     end).
Proof.
  intros Hjwt Hkey.
  assert (falsy x_api_key = false) as Hpresent.
  { unfold get_current_user_from_api_key in Hkey. by destruct (falsy x_api_key). }
  assert (get_current_user_or_service token x_api_key now st
          = Authenticated (user, Some api_key)) as Hdual.
  { unfold get_current_user_or_service. rewrite Hpresent, Hkey.
    destruct token as [credentials|]; [by rewrite Hjwt|done]. }
  split; [exact Hdual|]. unfold require_permissions. by rewrite Hdual.
Qed.

End Credentials.

(** ** Rows found by a unique column *)
Section UniqueColumn.
Context {A B : Type} (f : A -> B) (p : A -> bool).

Lemma first_exists (l : list A) i x :
  l !! i = Some x -> p x = true -> exists k y, first p l = Some (k, y).
Proof.
  intros Hi Hp. destruct (first p l) as [[k y]|] eqn:Hf; [eauto|].
  pose proof (proj1 (first_None p l) Hf x) as Hx.
  rewrite Hx in Hp; [discriminate|].
  apply list_elem_of_In, list_elem_of_lookup. eauto.
Qed.

Lemma NoDup_map_lookup (l : list A) i j x y :
  NoDup (map f l) -> l !! i = Some x -> l !! j = Some y -> f x = f y -> i = j.
Proof.
  revert i j. induction l as [|a l IH]; intros i j Hnd Hi Hj Hxy; [done|].
  simpl in Hnd. apply NoDup_cons in Hnd as [Hnotin Hnd].
  assert (forall n z, l !! n = Some z -> f z ∈ map f l) as Hin.
  { intros n z Hn. apply list_elem_of_In, in_map, list_elem_of_In, list_elem_of_lookup.
    eauto. }
  destruct i as [|i], j as [|j]; simpl in *; try done.
  - injection Hi as ->. destruct Hnotin. rewrite Hxy. eauto.
  - injection Hj as ->. destruct Hnotin. rewrite <- Hxy. eauto.
  - f_equal. eauto.
Qed.

(** With a unique column, the first row that has the value is the row. *)
Lemma first_by_unique (l : list A) (v : B) i x :
  NoDup (map f l) -> (forall y, p y = true <-> f y = v) ->
  l !! i = Some x -> f x = v -> first p l = Some (i, x).
Proof.
  intros Hnd Hp Hi Hx.
  destruct (first_exists l i x Hi) as (k & y & Hf); [by apply Hp|].
  pose proof (first_Some _ _ _ _ Hf) as (Hk & Hy & _).
  apply Hp in Hy.
  assert (k = i) as -> by (apply (NoDup_map_lookup l k i y x); congruence).
  rewrite Hf. congruence.
Qed.

End UniqueColumn.

(** ** Deposits and transfers, step by step *)
Section Ledger.
Import Schemas WalletRouter.
Context `{Env}.

Lemma wallet_by_id_unique st i w :
  NoDup (map Wallet.id (wallets st)) -> wallets st !! i = Some w ->
  wallet_by_id st (Some (Wallet.id w)) = Some (i, w).
Proof.
  intros Hnd Hi. unfold wallet_by_id.
  apply (first_by_unique Wallet.id _ _ (Wallet.id w)); try done.
  intros y. apply N.eqb_eq.
Qed.

Lemma insert_transaction_fresh st x st' :
  insert_transaction st x = Return st' ->
  first (fun y => String.eqb (Transaction.reference y) (Transaction.reference x))
        (transactions st) = None.
Proof.
  unfold insert_transaction. destruct (existsb _ _) eqn:He; [discriminate|].
  intros _. apply first_None. intros y Hy.
  pose proof (proj1 (existsb_false_Forall _ _) He y Hy) as Hf.
  by apply orb_false_iff in Hf as [_ Hr].
Qed.

(** A transfer to the sender's own wallet number is refused with 400 and
    changes nothing, when the balance covers the amount and wallet numbers
    are unique. *)
Theorem self_transfer_is_refused (transfer : WalletTransferRequest) (user : User.t)
    (token_hex : string) (new_id : N) (now : Datetime.datetime) (st : Store)
    (i : nat) (wallet : Wallet.t) :
  NoDup (map Wallet.wallet_number (wallets st)) ->
  wallet_of_user st (User.id user) = Some (i, wallet) ->
  tr_amount transfer <= Wallet.balance wallet ->
  tr_wallet_number transfer = Wallet.wallet_number wallet ->
  transfer_funds transfer user token_hex new_id now st = (HTTPException SelfTransfer, st) /\
  status_code SelfTransfer = 400.
Proof.
  intros Hnd Hw Hle Hnum. unfold transfer_funds. rewrite Hw.
  destruct (Z.ltb_spec (Wallet.balance wallet) (tr_amount transfer)); [lia|].
  pose proof (first_Some _ _ _ _ Hw) as (Hi & _).
  unfold wallet_by_number.
  rewrite (first_by_unique Wallet.wallet_number _ _ (tr_wallet_number transfer) i wallet);
    try done.
  - by rewrite N.eqb_refl.
  - intros y. apply String.eqb_eq.
Qed.

(** A transfer that succeeds records one transaction, at the end of the
    table: a "transfer" in status "success" for the amount, from the
    sender's wallet to the recipient's, paid at the time of the request,
    under the reference returned to the caller.  Users and keys are not
    touched. *)
Theorem transfer_is_recorded (transfer : WalletTransferRequest) (user : User.t)
    (token_hex : string) (new_id : N) (now : Datetime.datetime)
    (st st' : Store) (resp : TransferData) :
  transfer_funds transfer user token_hex new_id now st = (Return resp, st') ->
  exists i j sender recipient,
    wallet_of_user st (User.id user) = Some (i, sender) /\
    wallet_by_number st (tr_wallet_number transfer) = Some (j, recipient) /\
    resp = mkTransferData ("txn_" ++ token_hex) (tr_amount transfer)
                          (tr_wallet_number transfer) /\
    transactions st'
      = (transactions st ++
         [Transaction.mk new_id ("txn_" ++ token_hex) (User.id user)
                         (Some (Wallet.id sender)) (tr_amount transfer)
                         "transfer" "success" (Some (Wallet.id recipient))
                         (Some now)])%list /\
    users st' = users st /\ api_keys st' = api_keys st.
Proof.
  unfold transfer_funds.
  destruct (wallet_of_user _ _) as [[i sender]|] eqn:Hs; [|discriminate].
  destruct (_ <? _); [discriminate|].
  destruct (wallet_by_number _ _) as [[j recipient]|] eqn:Hr; [|discriminate].
  destruct (_ =? _)%N; [discriminate|].
  destruct (insert_transaction _ _) as [st2| |] eqn:Hins; try discriminate.
  intros [= <- <-]. apply insert_transaction_Return in Hins. subst st2.
  by exists i, j, sender, recipient.
Qed.

(** A deposit initiation that succeeds records one pending "deposit" for
    the amount on the caller's wallet, under the returned reference
    "txn_..."; no balance moves, and the status lookup of that reference
    answers "pending" with the amount and no payment time. *)
Theorem deposit_opens_pending (deposit : WalletDepositRequest) (user : User.t)
    (token_hex : string) (new_id : N) (reply : GatewayReply) (st st' : Store)
    (reference authorization_url : string) :
  initiate_deposit deposit user token_hex new_id reply st
    = (Return (reference, authorization_url), st') ->
  exists i wallet,
    wallet_of_user st (User.id user) = Some (i, wallet) /\
    reference = "txn_" ++ token_hex /\
    st' = with_transactions st
            (transactions st ++
             [Transaction.mk new_id reference (User.id user) (Some (Wallet.id wallet))
                             (dep_amount deposit) "deposit" "pending" None None]) /\
    get_deposit_status reference st'
      = Return (mkStatus reference "pending" (dep_amount deposit) None) /\
    get_wallet_balance user st' = get_wallet_balance user st.
Proof.
  unfold initiate_deposit.
  destruct (wallet_of_user _ _) as [[i wallet]|] eqn:Hw; [|discriminate].
  destruct (falsy _); [discriminate|].
  destruct reply as [|code ok url]; [discriminate|].
  destruct (negb _ || negb _); [discriminate|].
  destruct (insert_transaction _ _) as [st2| |] eqn:Hins; try discriminate.
  intros [= <- <- <-]. pose proof (insert_transaction_fresh _ _ _ Hins) as Hfresh.
  apply insert_transaction_Return in Hins. subst st2.
  exists i, wallet. split; [done|]. split; [done|]. split; [done|]. split.
  - unfold get_deposit_status, transaction_by_reference. simpl in *.
    rewrite (first_app_None _ _ _ Hfresh). simpl. by rewrite String.eqb_refl.
  - unfold get_wallet_balance, wallet_of_user. done.
Qed.

End Ledger.

Section DepositRoundTrip.
Import Schemas WalletRouter.
Context `{Env}.

(** The whole deposit: after an initiation that succeeded, the first
    delivery of "charge.success" for the returned reference raises the
    balance that the owner reads by exactly the deposited amount, and the
    status lookup of the reference then answers "success" with the payment
    time.  Wallet ids are unique. *)
Theorem deposit_then_confirmation (deposit : WalletDepositRequest) (user : User.t)
    (token_hex : string) (new_id : N) (reply : GatewayReply) (st st1 : Store)
    (reference authorization_url : string) (request : WebhookRequest)
    (payload : Payload) (now : Datetime.datetime) (balance : Z) :
  NoDup (map Wallet.id (wallets st)) ->
  get_wallet_balance user st = Return balance ->
  initiate_deposit deposit user token_hex new_id reply st
    = (Return (reference, authorization_url), st1) ->
  delivered request = Some payload ->
  data_reference payload = Some reference ->
  event payload = Some "charge.success" ->
  let st2 := snd (paystack_webhook request now st1) in
  get_wallet_balance user st2 = Return (balance + dep_amount deposit) /\
  get_deposit_status reference st2
    = Return (mkStatus reference "success" (dep_amount deposit)
                       (Some (confirmed_paid_at (data_paid_at payload) now))) /\
  total_balance (wallets st2) = total_balance (wallets st) + dep_amount deposit.
Proof.
  intros Hnd Hbal Hinit Hd Hr He st2. subst st2.
  unfold initiate_deposit in Hinit. unfold get_wallet_balance in Hbal.
  destruct (wallet_of_user st (User.id user)) as [[i wallet]|] eqn:Hw; [|discriminate].
  injection Hbal as <-.
  destruct (falsy _); [discriminate|].
  destruct reply as [|code ok url]; [discriminate|].
  destruct (negb _ || negb _); [discriminate|].
  destruct (insert_transaction _ _) as [st'| |] eqn:Hins; try discriminate.
  injection Hinit as <- <- <-.
  pose proof (insert_transaction_fresh _ _ _ Hins) as Hfresh.
  apply insert_transaction_Return in Hins. subst st'. simpl in Hfresh.
  set (x := Transaction.mk new_id _ _ _ _ _ _ _ _) in *.
  pose proof (first_Some _ _ _ _ Hw) as (Hi & _).
  set (st1 := with_transactions st (transactions st ++ [x])).
  assert (transaction_by_reference st1 (generate_reference token_hex)
          = Some (length (transactions st), x)) as Hx.
  { unfold transaction_by_reference. simpl. rewrite (first_app_None _ _ _ Hfresh).
    subst x. simpl. by rewrite String.eqb_refl. }
  assert (wallet_by_id st1 (Transaction.wallet_id x) = Some (i, wallet)) as Hwid.
  { subst x. simpl. by apply (wallet_by_id_unique st). }
  rewrite (webhook_credit request payload _ now st1 _ x i wallet Hd Hr He Hx);
    [|subst x; discriminate|exact Hwid].
  simpl. split; [|split].
  - unfold get_wallet_balance, wallet_of_user in *. simpl.
    rewrite (first_insert _ _ i wallet _ Hi) by reflexivity.
    by rewrite Hw, Nat.eqb_refl.
  - unfold get_deposit_status, transaction_by_reference in *. simpl in *.
    rewrite (first_insert _ _ (length (transactions st)) x).
    + by rewrite Hx, Nat.eqb_refl.
    + by apply first_Some in Hx as (Hl & _).
    + reflexivity.
  - rewrite (total_balance_insert _ i wallet) by done. subst x. simpl. lia.
Qed.

End DepositRoundTrip.

(** ** The transaction history *)
Section HistoryFacts.
Import Schemas WalletRouter History.
Variable created_at : Transaction.t -> Datetime.datetime.

Lemma insert_desc_In x l y :
  In y (insert_desc created_at x l) <-> y = x \/ In y l.
Proof.
  induction l as [|a l IH]; simpl; [intuition|].
  destruct (created_at a <? created_at x); simpl; [intuition|].
  rewrite IH. intuition.
Qed.

Lemma order_In l y : In y (order_by_created_at_desc created_at l) <-> In y l.
Proof.
  induction l as [|a l IH]; simpl; [done|]. rewrite insert_desc_In, IH. intuition.
Qed.

Lemma insert_desc_length x l :
  length (insert_desc created_at x l) = S (length l).
Proof.
  induction l as [|a l IH]; simpl; [done|].
  destruct (created_at a <? created_at x); simpl; [done|]. by rewrite IH.
Qed.

Lemma order_length l : length (order_by_created_at_desc created_at l) = length l.
Proof. induction l as [|a l IH]; simpl; [done|]. by rewrite insert_desc_length, IH. Qed.

Lemma insert_desc_sorted x l :
  StronglySorted (fun a b => created_at b <= created_at a) l ->
  StronglySorted (fun a b => created_at b <= created_at a) (insert_desc created_at x l).
Proof.
  induction 1 as [|a l Hs IH Hall]; simpl; [repeat constructor|].
  destruct (Z.ltb_spec (created_at a) (created_at x)).
  - constructor; [by constructor|].
    constructor; [lia|]. eapply Forall_impl; [exact Hall|]. simpl. intros; lia.
  - constructor; [exact IH|].
    apply List.Forall_forall. intros y Hy. apply insert_desc_In in Hy as [->|Hy]; [lia|].
    by apply (proj1 (List.Forall_forall _ _) Hall).
Qed.

Lemma order_sorted l :
  StronglySorted (fun a b => created_at b <= created_at a)
                 (order_by_created_at_desc created_at l).
Proof.
  induction l as [|a l IH]; simpl; [constructor|]. by apply insert_desc_sorted.
Qed.

Lemma map_sorted st l :
  StronglySorted (fun a b => created_at b <= created_at a) l ->
  StronglySorted (fun a b => resp_created_at b <= resp_created_at a)
                 (map (render created_at st) l).
Proof.
  induction 1 as [|a l Hs IH Hall]; simpl; constructor; [done|].
  apply List.Forall_forall. intros y Hy. apply in_map_iff in Hy as (z & <- & Hz).
  simpl. by apply (proj1 (List.Forall_forall _ _) Hall).
Qed.

(** The history of a user with a wallet shows exactly the transactions
    whose wallet or recipient wallet is that wallet, each once per row,
    newest first. *)
Theorem history_lists_the_wallet (user : User.t) (st : Store) (i : nat)
    (wallet : Wallet.t) :
  wallet_of_user st (User.id user) = Some (i, wallet) ->
  exists items,
    get_transactions created_at user st = Return items /\
    (forall item,
        In item items <->
        exists x, In x (transactions st) /\
                  (Transaction.wallet_id x = Some (Wallet.id wallet) \/
                   Transaction.recipient_wallet_id x = Some (Wallet.id wallet)) /\
                  item = render created_at st x) /\
    length items
      = length (List.filter (involves (Wallet.id wallet)) (transactions st)) /\
    StronglySorted (fun a b => resp_created_at b <= resp_created_at a) items.
Proof.
  intros Hw. unfold get_transactions. rewrite Hw. eexists. split; [done|].
  assert (forall x, involves (Wallet.id wallet) x = true <->
                    Transaction.wallet_id x = Some (Wallet.id wallet) \/
                    Transaction.recipient_wallet_id x = Some (Wallet.id wallet)) as Hinv.
  { intros x. unfold involves. rewrite orb_true_iff.
    assert (forall o, opt_is N.eqb o (Wallet.id wallet) = true <-> o = Some (Wallet.id wallet))
      as Ho.
    { intros [n|]; simpl; [|done]. rewrite N.eqb_eq. split; congruence. }
    by rewrite !Ho. }
  split; [|split].
  - intros item. rewrite in_map_iff. split.
    + intros (x & <- & Hx). apply order_In, filter_In in Hx as [Hx Hi].
      exists x. split; [done|]. split; [by apply Hinv|done].
    + intros (x & Hx & Hi & ->). exists x. split; [done|].
      apply order_In, filter_In. split; [done|]. by apply Hinv.
  - by rewrite length_map, order_length.
  - apply map_sorted, order_sorted.
Qed.

Lemma wallet_of_user_after_update (l : list Wallet.t) uid k w i s b :
  first (fun w => (Wallet.user_id w =? uid)%N) l = Some (k, w) ->
  l !! i = Some s ->
  exists w',
    first (fun w => (Wallet.user_id w =? uid)%N) (<[i := Wallet.set_balance s b]> l)
      = Some (k, w') /\
    Wallet.id w' = Wallet.id w.
Proof.
  intros Hf Hi. rewrite (first_insert _ _ i s _ Hi) by reflexivity. rewrite Hf.
  eexists. split; [done|]. destruct (k =? i)%nat eqn:Hk; [|done].
  apply Nat.eqb_eq in Hk. subst k. apply first_Some in Hf as (Hk & _).
  rewrite Hi in Hk. by injection Hk as ->.
Qed.

(** After a transfer that succeeded, the one recorded transaction shows in
    the history of the sender and in the history of the owner of the
    recipient wallet, as a successful "transfer" of the amount under the
    returned reference, with the recipient's wallet number.  Wallet ids are
    unique. *)
Theorem transfer_shows_in_both_histories (transfer : WalletTransferRequest)
    (user receiver : User.t) (token_hex : string) (new_id : N)
    (now : Datetime.datetime) (st st' : Store) (resp : TransferData)
    (j : nat) (recipient : Wallet.t) :
  NoDup (map Wallet.id (wallets st)) ->
  transfer_funds transfer user token_hex new_id now st = (Return resp, st') ->
  wallet_by_number st (tr_wallet_number transfer) = Some (j, recipient) ->
  wallet_of_user st (User.id receiver) = Some (j, recipient) ->
  exists x items_sender items_receiver,
    transactions st' = (transactions st ++ [x])%list /\
    get_transactions created_at user st' = Return items_sender /\
    get_transactions created_at receiver st' = Return items_receiver /\
    let item :=
      mkResponse "transfer" (tr_amount transfer) "success" (created_at x)
                 (Some (td_reference resp)) (Some (tr_wallet_number transfer)) in
    In item items_sender /\ In item items_receiver.
Proof.
  intros Hnd Hrun Hnum Hrecv. unfold transfer_funds in Hrun.
  destruct (wallet_of_user st (User.id user)) as [[i sender]|] eqn:Hs; [|discriminate].
  destruct (_ <? _); [discriminate|]. rewrite Hnum in Hrun.
  destruct (_ =? _)%N eqn:Hid; [discriminate|].
  destruct (insert_transaction _ _) as [st2| |] eqn:Hins; try discriminate.
  injection Hrun as <- <-. apply insert_transaction_Return in Hins. subst st2.
  set (x := Transaction.mk new_id _ _ _ _ _ _ _ _).
  set (sender' := Wallet.set_balance sender _).
  set (recipient' := Wallet.set_balance recipient _).
  set (l1 := <[i := sender']> (wallets st)).
  set (l2 := <[j := recipient']> l1).
  pose proof (first_Some _ _ _ _ Hs) as (Hi & _).
  pose proof (first_Some _ _ _ _ Hnum) as (Hj & Hjn & _).
  apply String.eqb_eq in Hjn.
  assert (i <> j) as Hij.
  { intros ->. apply N.eqb_neq in Hid. congruence. }
  assert (l1 !! j = Some recipient) as Hj1 by (subst l1; by rewrite list_lookup_insert_ne).
  assert (forall uid k w,
            wallet_of_user st uid = Some (k, w) ->
            exists w', first (fun w => (Wallet.user_id w =? uid)%N) l2 = Some (k, w') /\
                       Wallet.id w' = Wallet.id w) as Hkeep.
  { intros uid k w Hk.
    destruct (wallet_of_user_after_update _ uid k w i sender
                (Wallet.balance sender - tr_amount transfer) Hk Hi) as (w1 & Hf1 & Hid1).
    destruct (wallet_of_user_after_update _ uid k w1 j recipient
                (Wallet.balance recipient + tr_amount transfer) Hf1 Hj1)
      as (w2 & Hf2 & Hid2).
    exists w2. split; [exact Hf2|congruence]. }
  assert (map Wallet.id l2 = map Wallet.id (wallets st)) as Hids.
  { subst l2 l1 sender' recipient'. clear -Hi Hj Hij.
    assert (forall (l : list Wallet.t) n w b, l !! n = Some w ->
              map Wallet.id (<[n := Wallet.set_balance w b]> l) = map Wallet.id l) as Hm.
    { intros l. induction l as [|a l IH]; intros [|n] w b Hn; simpl in *; try done.
      - by injection Hn as ->.
      - by rewrite (IH n w b Hn). }
    rewrite (Hm _ j recipient); [by rewrite (Hm _ i sender)|].
    by rewrite list_lookup_insert_ne. }
  set (st' := with_transactions (with_wallets st l2) (transactions st ++ [x])).
  assert (render created_at st' x
          = mkResponse "transfer" (tr_amount transfer) "success" (created_at x)
                       (Some (generate_reference token_hex))
                       (Some (tr_wallet_number transfer))) as Hrender.
  { unfold render. subst x. cbn [Transaction.transaction_type Transaction.recipient_wallet_id
                                 Transaction.amount Transaction.status Transaction.reference].
    change (String.eqb "transfer" "transfer") with true. cbv iota.
    assert (wallet_by_id st' (Some (Wallet.id recipient)) = Some (j, recipient')) as ->.
    { apply (wallet_by_id_unique st' j recipient').
      - subst st'. simpl. by rewrite Hids.
      - subst st' l2. simpl. apply list_lookup_insert_eq.
        by apply lookup_lt_Some in Hj1. }
    subst recipient'. simpl. by rewrite Hjn. }
  assert (In x (transactions st')) as Hx.
  { subst st'. simpl. apply in_or_app. right. by left. }
  destruct (Hkeep _ _ _ Hs) as (ws & Hfs & Hids_s).
  destruct (Hkeep _ _ _ Hrecv) as (wr & Hfr & Hids_r).
  exists x. eexists. eexists. split; [done|].
  unfold get_transactions, wallet_of_user. cbn [wallets with_transactions with_wallets].
  rewrite Hfs, Hfr. split; [done|]. split; [done|]. cbv zeta.
  cbn [td_reference]. rewrite <- Hrender. split.
  - apply in_map, order_In, filter_In. split; [exact Hx|].
    unfold involves. subst x. simpl. by rewrite Hids_s, N.eqb_refl.
  - apply in_map, order_In, filter_In. split; [exact Hx|].
    unfold involves. subst x. simpl. rewrite Hids_r, N.eqb_refl. apply orb_true_r.
Qed.

End HistoryFacts.

(** ** The login callback *)
Section Login.
Import WalletRouter GoogleAuth.
Context `{Env}.

(** The anti-forgery state is consumed by the callback that presents it,
    also when the exchange with Google then fails; a second callback with
    the same state is answered 400 "Invalid state" and changes neither the
    store nor the set of states. *)
Theorem oauth_state_is_single_use (code code' state error error' : option string)
    (reply reply' : GoogleReply) (new_user_id new_wallet_id new_user_id' new_wallet_id' : N)
    (r r' : Z) (now now' : Datetime.datetime) (oauth_states : gmap string bool)
    (st st' : Store) (state_key : string) :
  truthy error = false -> falsy code = false ->
  truthy error' = false -> falsy code' = false ->
  state = Some state_key -> state_key <> "" ->
  is_Some (oauth_states !! state_key) ->
  let states1 :=
    snd (fst (google_callback code state error reply new_user_id new_wallet_id r now
                oauth_states st)) in
  states1 = delete state_key oauth_states /\
  google_callback code' state error' reply' new_user_id' new_wallet_id' r' now'
                  states1 st'
  = (HTTPException InvalidState, states1, st').
Proof.
  intros Herr Hcode Herr' Hcode' -> Hkey [b Hb] states1.
  assert (falsy (Some state_key) = false) as Hstate by (by apply String.eqb_neq).
  assert (states1 = delete state_key oauth_states) as ->.
  { subst states1. unfold google_callback. rewrite Herr, Hcode, Hstate.
    cbn [default id]. rewrite Hb.
    destruct reply as [| | |user_info]; try done.
    destruct (falsy (gi_email user_info)); [done|].
    by destruct (create_or_update_user _ _ _ _ _ _ _ _ _) as [[resp| |] st2]. }
  split; [done|].
  unfold google_callback. rewrite Herr', Hcode', Hstate. cbn [default id].
  by rewrite lookup_delete_eq.
Qed.

(** A login that matches an existing user, by Google id or by email,
    creates nothing: the wallets are untouched, the number of users is the
    same, and either the store is unchanged or the matched row has its name,
    picture and Google id replaced while id, email and active flag stay. *)
Theorem returning_user_creates_nothing (code state error : option string)
    (user_info : GoogleUserInfo) (new_user_id new_wallet_id : N) (r : Z)
    (now : Datetime.datetime) (oauth_states : gmap string bool) (st : Store)
    (i : nat) (existing_user : User.t) :
  first (matches (gi_id user_info) (default "" (gi_email user_info))) (users st)
    = Some (i, existing_user) ->
  let st' :=
    snd (google_callback code state error (UserInfo user_info) new_user_id
           new_wallet_id r now oauth_states st) in
  wallets st' = wallets st /\ length (users st') = length (users st) /\
  (st' = st \/
   st' = with_users st
           (<[i := User.mk (User.id existing_user) (User.email existing_user)
                           (gi_name user_info) (gi_picture user_info)
                           (gi_id user_info) (User.is_active existing_user)]>
              (users st))).
Proof.
  intros Hf st'. subst st'.
  assert (snd (google_callback code state error (UserInfo user_info) new_user_id
                 new_wallet_id r now oauth_states st) = st \/
          snd (google_callback code state error (UserInfo user_info) new_user_id
                 new_wallet_id r now oauth_states st)
          = snd (create_or_update_user (gi_id user_info) (default "" (gi_email user_info))
                   (gi_name user_info) (gi_picture user_info)
                   new_user_id new_wallet_id r now st)) as Hcases.
  { unfold google_callback.
    destruct (truthy error); [by left|]. destruct (falsy code); [by left|].
    destruct (falsy state); [by left|]. destruct (oauth_states !! _); [|by left].
    destruct (falsy (gi_email user_info)); [by left|]. right.
    by destruct (create_or_update_user _ _ _ _ _ _ _ _ _) as [[resp| |] st2]. }
  destruct Hcases as [Hsame|Hrun]; [rewrite Hsame; by auto|]. rewrite Hrun.
  unfold create_or_update_user. rewrite Hf. unfold update_user.
  destruct (match gi_id user_info with Some _ => _ | None => _ end); [by auto|].
  simpl. split; [done|]. split; [by rewrite length_insert|by right].
Qed.

(** After the first login of a new user (no match, unused ids, wallet
    number not taken), the balance endpoint answers 0 for that user. *)
Theorem first_login_balance_is_zero (code state error : option string)
    (user_info : GoogleUserInfo) (new_user_id new_wallet_id : N) (r : Z)
    (now : Datetime.datetime) (oauth_states : gmap string bool) (st : Store)
    (state_key email : string) (user : User.t) :
  truthy error = false -> falsy code = false ->
  state = Some state_key -> state_key <> "" ->
  is_Some (oauth_states !! state_key) ->
  gi_email user_info = Some email -> email <> "" ->
  first (matches (gi_id user_info) email) (users st) = None ->
  (forall u, In u (users st) -> User.id u <> new_user_id) ->
  (forall w, In w (wallets st) ->
     Wallet.id w <> new_wallet_id /\ Wallet.user_id w <> new_user_id /\
     Wallet.wallet_number w <> Wallet.generate_wallet_number r) ->
  User.id user = new_user_id ->
  get_wallet_balance user
    (snd (google_callback code state error (UserInfo user_info) new_user_id
            new_wallet_id r now oauth_states st))
  = Return 0.
Proof.
  intros Herr Hcode -> Hkey [b Hstate] Hemail Hne Hnone Hids Hwal Huser.
  unfold google_callback. rewrite Herr, Hcode.
  assert (falsy (Some state_key) = false) as -> by (by apply String.eqb_neq).
  cbn [default id]. rewrite Hstate, Hemail.
  assert (falsy (Some email) = false) as -> by (by apply String.eqb_neq).
  cbn [default id]. unfold create_or_update_user. rewrite Hnone.
  rewrite insert_user_fresh by done. rewrite insert_wallet_fresh by done.
  assert (first (fun w => (Wallet.user_id w =? new_user_id)%N) (wallets st) = None)
    as Hfirst.
  { apply first_None. intros w Hw. apply N.eqb_neq. by apply Hwal. }
  destruct (Utils.create_access_token _ _);
    unfold get_wallet_balance, wallet_of_user; simpl; rewrite Huser;
    rewrite (first_app_None _ _ _ Hfirst); simpl; by rewrite N.eqb_refl.
Qed.

End Login.

(** ** Expiry, wallet numbers, permissions *)
Section UtilsFacts.
Import Datetime Utils SchemaValidators.

Lemma add_timedelta_range now dd hh t :
  (td ← mk_timedelta dd hh; add now td) = Return t -> 0 <= t <= datetime_max.
Proof.
  unfold mk_timedelta. destruct (_ <=? timedelta_max_days); [|discriminate].
  simpl. unfold add.
  destruct (Z.leb_spec 0 (now + (dd * us_per_day + hh * us_per_hour))); [|discriminate].
  destruct (Z.leb_spec (now + (dd * us_per_day + hh * us_per_hour)) datetime_max);
    [|discriminate].
  simpl. intros [= <-]. lia.
Qed.

(** An expiry that is accepted lies strictly after the time of parsing and
    within the range of [datetime]. *)
Theorem expiry_lies_ahead (now t : datetime) (expiry_str : string) :
  parse_expiry now expiry_str = Return t -> now < t /\ 0 <= t <= datetime_max.
Proof.
  intros Hp. split.
  - apply parse_expiry_Return in Hp as (n & d & _ & _ & Hn & Hd & ->).
    pose proof (unit_cases (List.last (list_ascii_of_string expiry_str) "000"%char)) as Hc.
    rewrite Hd in Hc.
    assert (0 < d) by (destruct Hc as [[_ ->]|[[_ ->]|[[_ ->]|[_ ->]]]]; reflexivity).
    nia.
  - unfold parse_expiry in Hp.
    destruct (_ <? 2)%nat; [discriminate|].
    destruct (py_int _) as [n|]; [|discriminate].
    destruct (n <=? 0); [discriminate|].
    repeat (destruct (Ascii.eqb _ _); [by eapply add_timedelta_range|]).
    discriminate.
Qed.

Lemma code_digit_char d : 0 <= d < 10 -> code (Wallet.digit_char d) = 48 + d.
Proof.
  intros Hd. unfold code, Wallet.digit_char. rewrite N_ascii_embedding by lia. lia.
Qed.

Lemma zero_padded_digits_value width : forall n acc,
  exists ds,
    list_ascii_of_string (Wallet.zero_padded width n acc)
      = (ds ++ list_ascii_of_string acc)%list /\
    length ds = width /\
    Forall (fun c => is_digit c = true) ds /\
    decimal_value ds = n mod 10 ^ Z.of_nat width.
Proof.
  induction width as [|w IH]; intros n acc.
  - exists []. repeat split; [constructor|]. simpl. by rewrite Z.mod_1_r.
  - simpl Wallet.zero_padded.
    destruct (IH (n / 10) (String (Wallet.digit_char (n mod 10)) acc))
      as (ds & Hl & Hlen & Hdig & Hval).
    assert (0 <= n mod 10 < 10) as Hmod by (apply Z.mod_pos_bound; lia).
    exists (ds ++ [Wallet.digit_char (n mod 10)])%list.
    split; [|split; [|split]].
    + rewrite Hl. simpl. by rewrite <- app_assoc.
    + rewrite length_app. simpl. lia.
    + apply Forall_app. split; [done|]. constructor; [|constructor].
      by apply digit_char_is_digit.
    + unfold decimal_value in *. rewrite fold_left_app. simpl. rewrite Hval.
      rewrite code_digit_char by done.
      rewrite Nat2Z.inj_succ, Z.pow_succ_r by lia.
      rewrite (Z.rem_mul_r n 10 (10 ^ Z.of_nat w)) by lia. lia.
Qed.

(** A wallet number is "4" followed by the 12 decimal digits of the draw:
    reading the digits back, as a number or with [int()], gives the draw, so
    different draws below 10^12 give different wallet numbers. *)
Theorem wallet_number_round_trip (r : Z) :
  0 <= r < 10 ^ 12 ->
  exists digits,
    list_ascii_of_string (Wallet.generate_wallet_number r) = ("4"%char :: digits) /\
    length digits = 12%nat /\
    decimal_value digits = r /\
    py_int digits = Some r /\
    forall r', 0 <= r' < 10 ^ 12 ->
      Wallet.generate_wallet_number r' = Wallet.generate_wallet_number r -> r' = r.
Proof.
  intros Hr.
  assert (forall n, 0 <= n < 10 ^ 12 ->
            exists ds, list_ascii_of_string (Wallet.generate_wallet_number n)
                       = ("4"%char :: ds) /\ length ds = 12%nat /\
                       Forall (fun c => is_digit c = true) ds /\ decimal_value ds = n)
    as Hshape.
  { intros n Hn. destruct (zero_padded_digits_value 12 n "") as (ds & Hl & Hlen & Hdig & Hval).
    exists ds. unfold Wallet.generate_wallet_number.
    change (list_ascii_of_string (String "4" (Wallet.zero_padded 12 n "")))
      with ("4"%char :: list_ascii_of_string (Wallet.zero_padded 12 n "")).
    rewrite Hl. simpl. rewrite app_nil_r. repeat split; try done.
    rewrite Hval. apply Z.mod_small. exact Hn. }
  destruct (Hshape r Hr) as (ds & Hl & Hlen & Hdig & Hval).
  exists ds. split; [done|]. split; [done|]. split; [done|]. split.
  - rewrite <- Hval. apply py_int_digits; [|done|].
    + intros ->. discriminate.
    + unfold int_max_str_digits. lia.
  - intros r' Hr' Heq. destruct (Hshape r' Hr') as (ds' & Hl' & _ & _ & Hval').
    rewrite Heq, Hl in Hl'. injection Hl' as <-. congruence.
Qed.

(** The permissions of a key request are accepted exactly when the list is
    not empty and holds only "deposit", "transfer" and "read"; what is kept
    has the same permissions, each once, so at most three. *)
Theorem permissions_are_validated (v : list string) :
  (v <> [] /\ (forall perm, In perm v -> In perm valid_permissions) ->
   exists kept,
     validate_permissions v = Return kept /\
     List.NoDup kept /\ (forall perm, In perm kept <-> In perm v) /\
     (0 < length kept <= 3)%nat) /\
  (v = [] \/ (exists perm, In perm v /\ ~ In perm valid_permissions) ->
   validate_permissions v = HTTPException ValidationError).
Proof.
  assert (forall perm, existsb (String.eqb perm) valid_permissions = true
                       <-> In perm valid_permissions) as Hvalid.
  { intros perm. rewrite existsb_exists. split.
    - intros (x & Hx & He). apply String.eqb_eq in He. by subst.
    - intros Hin. exists perm. split; [done|]. apply String.eqb_refl. }
  split.
  - intros [Hne Hall]. unfold validate_permissions.
    destruct v as [|p v]; [done|].
    assert (forallb (fun perm => existsb (String.eqb perm) valid_permissions) (p :: v)
            = true) as ->.
    { apply forallb_forall. intros perm Hin. by apply Hvalid, Hall. }
    eexists. split; [done|].
    split; [apply List.NoDup_nodup|]. split; [apply nodup_In|]. split.
    + assert (In p (nodup string_dec (p :: v))) as Hin by (apply nodup_In; by left).
      destruct (nodup string_dec (p :: v)); [destruct Hin|simpl; lia].
    + change 3%nat with (length valid_permissions).
      apply NoDup_incl_length; [apply List.NoDup_nodup|].
      intros perm Hin. apply Hall. by apply nodup_In in Hin.
  - intros [->|(perm & Hin & Hnot)]; [done|]. unfold validate_permissions.
    destruct v as [|p v]; [done|].
    destruct (forallb _ (p :: v)) eqn:Hf; [|done].
    destruct Hnot. apply Hvalid. by apply (proj1 (forallb_forall _ _) Hf).
Qed.

End UtilsFacts.

(** ** One wallet per user *)
Section WalletUniqueness.
Import Schemas WalletRouter GoogleAuth.
Context `{Env}.

Lemma map_insert_same {A B} (f : A -> B) (l : list A) i x y :
  l !! i = Some x -> f y = f x -> map f (<[i := y]> l) = map f l.
Proof.
  revert i. induction l as [|a l IH]; intros [|i] Hi Hf; simpl in *; try done.
  - injection Hi as ->. by rewrite Hf.
  - by rewrite (IH i Hi Hf).
Qed.

Lemma step_wallet_columns {B} (f : Wallet.t -> B) op st :
  (forall w b, f (Wallet.set_balance w b) = f w) ->
  map f (wallets (step op st)) = map f (wallets st).
Proof.
  intros Hf.
  destruct op as [a u tok new_id reply|request now|number a u tok new_id now]; simpl.
  - destruct (WalletDepositRequest_validate a); [|done..]. by rewrite deposit_wallets.
  - destruct (paystack_webhook_shape request now st)
      as [->|[(i & x & j & w & paid & Hi & Hs & Hj & ->)|(i & x & Hi & Hs & ->)]];
      [done| |done].
    simpl. by apply (map_insert_same f _ j w).
  - destruct (WalletTransferRequest_validate number a) as [transfer| |]; [|done..].
    destruct (transfer_funds_shape transfer u tok new_id now st)
      as [->|(i & j & sender & recipient & Hij & Hi & Hj & _ & Hins)]; [done|].
    apply insert_transaction_Return in Hins. rewrite Hins. simpl.
    rewrite (map_insert_same f _ j recipient); [|by rewrite list_lookup_insert_ne|done].
    by apply (map_insert_same f _ i sender).
Qed.

Lemma NoDup_map_app_fresh {A B} (f : A -> B) (l : list A) (x : A) :
  NoDup (map f l) -> (forall y, In y l -> f y <> f x) -> NoDup (map f (l ++ [x])).
Proof.
  intros Hnd Hfresh. rewrite map_app. simpl. apply NoDup_app. split; [done|].
  split; [|apply NoDup_singleton].
  intros b Hb Hx. apply list_elem_of_singleton in Hx. subst b.
  apply list_elem_of_In, in_map_iff in Hb as (y & Hy & Hin). by destruct (Hfresh y Hin).
Qed.

Lemma serve_wallets_unique request (s : State) :
  wallets_unique (fst s) -> wallets_unique (fst (serve request s)).
Proof.
  intros (Hid & Hu & Hn). destruct s as [st states]. unfold wallets_unique.
  destruct request as [op|op|code state error reply new_user_id new_wallet_id r now|op];
    simpl in *.
  - by rewrite !step_wallet_columns.
  - by destruct (key_step_evolves op st) as (-> & _).
  - destruct (callback_evolves code state error reply new_user_id new_wallet_id r now
                states st) as ([->|(w & -> & _ & Hfresh)] & _); [done|].
    repeat split; apply NoDup_map_app_fresh; try done; intros y Hy; by apply Hfresh.
  - by destruct (payment_step_evolves op st) as (-> & _).
Qed.

(** When no two wallets share an id, an owner or a wallet number, none do
    after any sequence of requests: each user keeps at most one wallet. *)
Theorem wallet_uniqueness_is_kept (s0 s : State) :
  served s0 s -> wallets_unique (fst s0) -> wallets_unique (fst s).
Proof.
  intros Hs Hu. induction Hs as [|s request _ IH]; [done|].
  by apply serve_wallets_unique.
Qed.

End WalletUniqueness.

(** * Concrete instances of the further properties *)

Lemma served_fold (H : Env) (requests : list Request) (s0 s : State) :
  served s0 s -> served s0 (fold_left (fun s request => serve request s) requests s).
Proof.
  revert s. induction requests as [|request requests IH]; intros s Hs; simpl; [done|].
  apply IH. by constructor.
Qed.

Lemma sample_final_served : @served sample_env sample_state sample_final.
Proof. apply served_fold. constructor. Qed.

Lemma sample_final_value :
  map Wallet.balance (wallets (fst sample_final)) = [1100; 400; 0] /\
  map Transaction.status (transactions (fst sample_final)) = ["success"; "success"] /\
  length (api_keys (fst sample_final)) = 1%nat /\
  map User.email (users (fst sample_final)) = ["alice@x.com"; "bob@x.com"; "carol@x.com"].
Proof. vm_compute. repeat split. Qed.

Lemma only_the_webhook_credits_witness :
  total_balance
    (wallets (fst (@serve sample_env
                     (LedgerRequest (Transfer "4000000000002" 400 alice "bb" 101%N
                                              sample_now))
                     sample_state)))
  = total_balance (wallets sample_store).
Proof.
  apply (only_the_webhook_credits (H := sample_env)
           (LedgerRequest (Transfer "4000000000002" 400 alice "bb" 101%N sample_now))
           sample_state).
  intros r now. discriminate.
Defined.

Lemma money_is_never_destroyed_witness :
  total_balance (wallets sample_store) <= total_balance (wallets (fst sample_final)) /\
  forall w, In w (wallets (fst sample_final)) -> 0 <= Wallet.balance w.
Proof.
  apply (money_is_never_destroyed (H := sample_env) sample_state sample_final
           sample_final_served).
  - simpl. intros w [<-|[<-|[]]]; simpl; lia.
  - simpl. intros x [<-|[]]; simpl; lia.
Defined.

Lemma wallet_rows_are_permanent_witness :
  exists w',
    wallets (fst sample_final) !! 1%nat = Some w' /\
    Wallet.id w' = 20%N /\ Wallet.user_id w' = 2%N /\
    Wallet.wallet_number w' = "4000000000002".
Proof.
  apply (wallet_rows_are_permanent (H := sample_env) sample_state sample_final 1
           (Wallet.mk 20 2 "4000000000002" 0) sample_final_served).
  reflexivity.
Defined.

Lemma without_payments_fold (H : Env) (requests : list Request) (s0 s : State) :
  Forall (fun request => forall op, request <> PaymentsRequest op) requests ->
  served_without_payments s0 s ->
  served_without_payments s0 (fold_left (fun s request => serve request s) requests s).
Proof.
  intros Hall. revert s.
  induction Hall as [|request requests Hnot _ IH]; intros s Hs; simpl; [done|].
  apply IH. by constructor.
Qed.

Lemma confirmed_final_served :
  @served_without_payments sample_env (confirmed_store, ∅) confirmed_final.
Proof.
  apply without_payments_fold; [|constructor].
  repeat constructor; discriminate.
Qed.

Lemma transactions_are_append_only_witness :
  transactions confirmed_store !! 0%nat = Some confirmed_row /\
  Transaction.status confirmed_row = "success" /\
  transactions (fst confirmed_final) !! 0%nat = Some confirmed_row /\
  transactions (fst reopened) !! 0%nat
  = Some (Transaction.set_status confirmed_row "failed").
Proof.
  destruct (transactions_are_append_only (H := sample_env) (confirmed_store, ∅)
              confirmed_final 0 confirmed_row eq_refl) as (_ & Hfinal & Hreopen).
  split; [reflexivity|]. split; [reflexivity|]. split.
  - destruct (Hfinal confirmed_final_served) as (x' & Hi & _ & Hsame).
    rewrite Hi. f_equal. apply Hsame. reflexivity.
  - apply (Hreopen (charge_failed "txn_aa")
             (mkPayload (Some "charge.failed") (Some "txn_aa") None));
      reflexivity.
Defined.

(** The wallet webhook alone credits a deposit once.  With the payments
    router in between it credits twice: the failure event delivered there
    reopens the confirmed deposit, and the next confirmation at the wallet
    webhook adds the amount again. *)
Example payments_webhook_reopens_a_confirmed_deposit :
  map Wallet.balance (wallets sample_store) = [1000; 0] /\
  map Wallet.balance (wallets confirmed_store) = [1500; 0] /\
  map Transaction.status (transactions (fst reopened)) = ["failed"] /\
  map Wallet.balance (wallets (fst credited_again)) = [2000; 0] /\
  map Transaction.status (transactions (fst credited_again)) = ["success"].
Proof. repeat split. Qed.

Lemma revoked_then_served :
  @served sample_env
    (@serve sample_env (KeyRequest (RevokeKey "abc" alice)) (full_store, ∅)) revoked_then.
Proof. constructor. constructor. Qed.

Lemma revocation_is_permanent_witness :
  exists k',
    api_keys (fst revoked_then) !! 2%nat = Some k' /\
    key_identity k' = key_identity (sample_key 3 "h3") /\
    (APIKey.is_active (APIKey.set_is_active (sample_key 3 "h3") false) = false ->
     APIKey.is_active k' = false).
Proof.
  apply (revocation_is_permanent (H := sample_env) _ revoked_then 2
           (APIKey.set_is_active (sample_key 3 "h3") false) revoked_then_served).
  reflexivity.
Defined.

Lemma active_keys_stay_within_quota_witness :
  (ApiKeys.active_count (fst revoked_then) 1 <= 5)%nat.
Proof.
  apply (active_keys_stay_within_quota (H := sample_env) _ revoked_then 1
           revoked_then_served).
  vm_compute. lia.
Defined.

Lemma rollover_requires_expired_key_witness :
  @KeyRollover.rollover_api_key sample_env (KeyRollover.mkRollover "a" "1D") alice
    "cd" 7%N sample_now expired_store
  = (HTTPException KeyNotExpired, expired_store).
Proof.
  apply (rollover_requires_expired_key (H := sample_env) (KeyRollover.mkRollover "a" "1D")
           alice "cd" 7%N sample_now expired_store 1%N 0%nat
           (APIKey.mk 1 "batch" "sk_live_00000000" "sha256:sk_live_one" 1
                      (JArray [JString "read"]) None true) eq_refl eq_refl).
  by left.
Defined.

Lemma rollover_renews_key_witness :
  @KeyRollover.rollover_api_key sample_env (KeyRollover.mkRollover "abc" "1D") alice
    "cd" 7%N sample_now expired_store
  = (Return (ApiKeys.mkAPIKeyResponse "sk_live_cd"
               (Some (sample_now + Datetime.us_per_day))),
     with_api_keys expired_store
       (api_keys expired_store ++
        [APIKey.mk 7 "ci (Renewed)" "sk_live_cd" "sha256:sk_live_cd" 1
                   (JArray [JString "read"; JString "transfer"])
                   (Some (sample_now + Datetime.us_per_day)) true])).
Proof.
  refine (proj1 (rollover_renews_key (H := sample_env) (KeyRollover.mkRollover "abc" "1D")
                   alice "cd" 7%N sample_now expired_store 3%N 1%nat
                   (APIKey.mk 3 "ci" "sk_live_11111111" "sha256:sk_live_old" 1
                              (JArray [JString "read"; JString "transfer"])
                              (Some (sample_now - 1)) true)
                   (sample_now - 1) (sample_now + Datetime.us_per_day)
                   eq_refl eq_refl eq_refl _ _ eq_refl _)).
  - lia.
  - vm_compute. lia.
  - simpl. intros k [<-|[<-|[]]]; split; discriminate.
Defined.

Lemma key_requests_are_isolated_witness :
  KeyRollover.list_api_keys bob
    (@key_step sample_env (RevokeKey "abc" alice) full_store)
  = KeyRollover.list_api_keys bob full_store.
Proof.
  refine (proj1 (key_requests_are_isolated (H := sample_env) (RevokeKey "abc" alice)
                   full_store bob _)).
  discriminate.
Defined.

Lemma created_key_authenticates_witness :
  exists expires_at k,
    sample_now < expires_at /\
    @Verifier.get_current_user_from_api_key sample_env (Some "sk_live_ab") sample_now
      (snd (@ApiKeys.create_api_key sample_env
              (ApiKeys.mkAPIKeyCreate "ci" ["read"] "2H") alice "ab" 6%N sample_now
              sample_store))
    = Verifier.Authenticated (alice, k).
Proof.
  destruct (created_key_authenticates (H := sample_env)
              (ApiKeys.mkAPIKeyCreate "ci" ["read"] "2H") alice alice "ab" 6%N
              sample_now sample_store _ _ 0%nat eq_refl eq_refl)
    as (expires_at & k & _ & Hlt & Hauth).
  exists expires_at, k. split; [exact Hlt|]. apply Hauth. lia.
Defined.

Lemma revoked_key_is_rejected_witness :
  @Verifier.get_current_user_from_api_key sample_env (Some "sk_live_old") sample_now
    (snd (@ApiKeys.revoke_api_key sample_env "abc" alice expired_store))
  = Verifier.Unauthenticated Verifier.RevokedApiKey.
Proof.
  apply (revoked_key_is_rejected (H := sample_env) "abc" "sk_live_old" alice
           expired_store _ ("abc", "ci") 3%N 1%nat
           (APIKey.mk 3 "ci" "sk_live_11111111" "sha256:sk_live_old" 1
                      (JArray [JString "read"; JString "transfer"])
                      (Some (sample_now - 1)) true) sample_now
           eq_refl eq_refl eq_refl);
    [discriminate|reflexivity].
Defined.

Lemma bearer_token_comes_first_witness :
  @Verifier.require_permissions sample_env sample_jose ["transfer"]
    (Some "alice-token") (Some "sk_live_old") sample_now expired_store
  = Verifier.Authenticated (Return alice).
Proof.
  refine (proj2 (bearer_token_comes_first (H := sample_env) (H0 := sample_jose)
                   (Some "alice-token") (Some "sk_live_old") sample_now expired_store
                   alice ["transfer"] eq_refl)).
Defined.

Lemma api_key_is_the_fallback_witness :
  @Verifier.require_permissions sample_env sample_jose ["transfer"]
    (Some "forged-token") (Some "sk_live_one") sample_now expired_store
  = Verifier.Authenticated (HTTPException (MissingPermissions ["transfer"])).
Proof.
  refine (proj2 (api_key_is_the_fallback (H := sample_env) (H0 := sample_jose)
                   (Some "forged-token") (Some "sk_live_one") sample_now expired_store
                   Verifier.InvalidCredentials alice
                   (APIKey.mk 1 "batch" "sk_live_00000000" "sha256:sk_live_one" 1
                              (JArray [JString "read"]) None true)
                   ["transfer"] eq_refl eq_refl)).
Defined.

Lemma self_transfer_is_refused_witness :
  WalletRouter.transfer_funds (Schemas.mkTransfer "4000000000001" 400)
    alice "bb" 101%N sample_now sample_store
  = (HTTPException SelfTransfer, sample_store).
Proof.
  refine (proj1 (self_transfer_is_refused (Schemas.mkTransfer "4000000000001" 400)
                   alice "bb" 101%N sample_now sample_store 0%nat
                   (Wallet.mk 10 1 "4000000000001" 1000) _ eq_refl _ eq_refl)).
  - apply NoDup_ListNoDup. repeat constructor; simpl; intuition discriminate.
  - simpl. lia.
Defined.

Lemma transfer_is_recorded_witness :
  transactions after_transfer
  = [Transaction.mk 100 "txn_aa" 1 (Some 10%N) 500 "deposit" "pending" None None;
     Transaction.mk 101 "txn_bb" 1 (Some 10%N) 400 "transfer" "success" (Some 20%N)
                    (Some sample_now)].
Proof.
  destruct (transfer_is_recorded (Schemas.mkTransfer "4000000000002" 400)
              alice "bb" 101%N sample_now sample_store after_transfer
              (WalletRouter.mkTransferData "txn_bb" 400 "4000000000002") eq_refl)
    as (i & j & sender & recipient & Hs & Hr & _ & Hx & _).
  injection Hs as <- <-. injection Hr as <- <-. exact Hx.
Defined.

Lemma deposit_opens_pending_witness :
  exists st',
    @WalletRouter.initiate_deposit sample_env (Schemas.mkDeposit 500) bob "dd" 102%N
      (WalletRouter.Response 200 true "https://pay") sample_store
    = (Return ("txn_dd", "https://pay"), st') /\
    WalletRouter.get_deposit_status "txn_dd" st'
    = Return (WalletRouter.mkStatus "txn_dd" "pending" 500 None).
Proof.
  eexists. split; [reflexivity|].
  destruct (deposit_opens_pending (H := sample_env) (Schemas.mkDeposit 500) bob "dd"
              102%N (WalletRouter.Response 200 true "https://pay") sample_store _
              "txn_dd" "https://pay" eq_refl)
    as (i & wallet & _ & _ & _ & Hstatus & _).
  exact Hstatus.
Defined.

Lemma deposit_then_confirmation_witness :
  let st1 :=
    snd (@WalletRouter.initiate_deposit sample_env (Schemas.mkDeposit 500) bob "dd"
           102%N (WalletRouter.Response 200 true "https://pay") sample_store) in
  let st2 :=
    snd (@WalletRouter.paystack_webhook sample_env (charge_success "txn_dd")
           sample_now st1) in
  WalletRouter.get_wallet_balance bob sample_store = Return 0 /\
  WalletRouter.get_wallet_balance bob st2 = Return (0 + 500).
Proof.
  intros st1 st2. split; [reflexivity|].
  refine (proj1 (deposit_then_confirmation (H := sample_env) (Schemas.mkDeposit 500)
                   bob "dd" 102%N (WalletRouter.Response 200 true "https://pay")
                   sample_store st1 "txn_dd" "https://pay" (charge_success "txn_dd")
                   (mkPayload (Some "charge.success") (Some "txn_dd") None)
                   sample_now 0 _ eq_refl eq_refl eq_refl eq_refl eq_refl)).
  apply NoDup_ListNoDup. repeat constructor; simpl; intuition discriminate.
Defined.

Lemma history_lists_the_wallet_witness :
  exists items,
    History.get_transactions sample_created_at bob after_transfer = Return items /\
    length items = 1%nat.
Proof.
  destruct (history_lists_the_wallet sample_created_at bob after_transfer 1%nat
              (Wallet.mk 20 2 "4000000000002" 400) eq_refl)
    as (items & Hrun & _ & Hlen & _).
  exists items. split; [exact Hrun|exact Hlen].
Defined.

Lemma transfer_shows_in_both_histories_witness :
  exists items_sender items_receiver,
    History.get_transactions sample_created_at alice after_transfer = Return items_sender /\
    History.get_transactions sample_created_at bob after_transfer = Return items_receiver /\
    In (History.mkResponse "transfer" 400 "success" 101 (Some "txn_bb")
                           (Some "4000000000002")) items_sender /\
    In (History.mkResponse "transfer" 400 "success" 101 (Some "txn_bb")
                           (Some "4000000000002")) items_receiver.
Proof.
  destruct (transfer_shows_in_both_histories sample_created_at
              (Schemas.mkTransfer "4000000000002" 400) alice bob "bb" 101%N sample_now
              sample_store after_transfer
              (WalletRouter.mkTransferData "txn_bb" 400 "4000000000002")
              1%nat (Wallet.mk 20 2 "4000000000002" 0))
    as (x & items_sender & items_receiver & Hx & Hs & Hr & Hin);
    [apply NoDup_ListNoDup; repeat constructor; simpl; intuition discriminate
    |reflexivity..|].
  exists items_sender, items_receiver. split; [exact Hs|]. split; [exact Hr|].
  assert (x = Transaction.mk 101 "txn_bb" 1 (Some 10%N) 400 "transfer" "success"
                             (Some 20%N) (Some sample_now)) as ->.
  { vm_compute in Hx. by injection Hx as <-. }
  exact Hin.
Defined.

Lemma oauth_state_is_single_use_witness :
  let states1 :=
    snd (fst (@GoogleAuth.google_callback sample_env (Some "code") (Some "s1") None
                GoogleAuth.TokenRefused 3%N 30%N 3 sample_now
                (<["s1" := true]> ∅) login_store)) in
  @GoogleAuth.google_callback sample_env (Some "code") (Some "s1") None
    (GoogleAuth.UserInfo carol_info) 3%N 30%N 3 sample_now states1 login_store
  = (HTTPException InvalidState, states1, login_store).
Proof.
  refine (proj2 (oauth_state_is_single_use (H := sample_env) (Some "code") (Some "code")
                   (Some "s1") None None GoogleAuth.TokenRefused
                   (GoogleAuth.UserInfo carol_info) 3%N 30%N 3%N 30%N 3 3
                   sample_now sample_now (<["s1" := true]> ∅) login_store login_store
                   "s1" eq_refl eq_refl eq_refl eq_refl eq_refl _ _)).
  - discriminate.
  - exists true. reflexivity.
Defined.

Lemma returning_user_creates_nothing_witness :
  let st' :=
    snd (@GoogleAuth.google_callback sample_env (Some "code") (Some "s1") None
           (GoogleAuth.UserInfo
              (GoogleAuth.mkInfo (Some "g-bob") (Some "bob@x.com") (Some "Robert") None))
           3%N 30%N 3 sample_now (<["s1" := true]> ∅) login_store) in
  wallets st' = wallets login_store /\
  map User.name (users st') = [Some "Alice"; Some "Robert"].
Proof.
  intros st'. split; [|reflexivity].
  refine (proj1 (returning_user_creates_nothing (H := sample_env) (Some "code")
                   (Some "s1") None
                   (GoogleAuth.mkInfo (Some "g-bob") (Some "bob@x.com") (Some "Robert")
                                      None)
                   3%N 30%N 3 sample_now (<["s1" := true]> ∅) login_store 1%nat bob
                   eq_refl)).
Defined.

Lemma first_login_balance_is_zero_witness :
  WalletRouter.get_wallet_balance
    (User.mk 3 "carol@x.com" (Some "Carol") None (Some "g-carol") true)
    (snd (first_login 3))
  = Return 0.
Proof.
  refine (first_login_balance_is_zero (H := sample_env) (Some "code") (Some "s1") None
            carol_info 3%N 30%N 3 sample_now (<["s1" := true]> (<["s2" := true]> ∅))
            login_store "s1" "carol@x.com"
            (User.mk 3 "carol@x.com" (Some "Carol") None (Some "g-carol") true)
            eq_refl eq_refl eq_refl _ _ eq_refl _ eq_refl _ _ eq_refl).
  - discriminate.
  - exists true. reflexivity.
  - discriminate.
  - simpl. intros u [<-|[<-|[]]]; discriminate.
  - simpl. intros w [<-|[<-|[]]]; repeat split; discriminate.
Defined.

Lemma expiry_lies_ahead_witness :
  sample_now < sample_now + 7 * Datetime.us_per_day.
Proof.
  refine (proj1 (expiry_lies_ahead sample_now (sample_now + 7 * Datetime.us_per_day)
                   "7d" _)).
  vm_compute. reflexivity.
Defined.

Lemma wallet_number_round_trip_witness :
  exists digits,
    list_ascii_of_string (Wallet.generate_wallet_number 42) = ("4"%char :: digits) /\
    Utils.py_int digits = Some 42.
Proof.
  destruct (wallet_number_round_trip 42) as (digits & Hl & _ & _ & Hint & _).
  - vm_compute. split; congruence.
  - exists digits. split; [exact Hl|exact Hint].
Defined.

Lemma wallet_uniqueness_is_kept_witness : @wallets_unique (fst sample_final).
Proof.
  apply (wallet_uniqueness_is_kept (H := sample_env) sample_state sample_final
           sample_final_served).
  repeat split; apply NoDup_ListNoDup; repeat constructor; simpl; intuition discriminate.
Defined.
